(** * tzindex: block model, implicit operations and the op table cursor

    A shallow embedding of the parts of the indexer that build a block
    ([etl/model/block.go]), derive implicit events and block-level
    operations ([etl/op_implicit.go]) and page through the operation table
    ([server/tables], [StreamOpTable]), followed by the properties proved
    about them.

    Conventions.
    - Go's [int], [int64] are 64-bit two's complement numbers: they are
      carried as [Z] and every addition goes through [add64].
    - A Go pointer to a [Block] is a key of the [heap] of the [State]; the
      parent back-reference of a block is such a key, so that a child and its
      parent (or a block and itself) alias the way they do in the program.
    - A Go [panic] (nil dereference, index out of range, negative [make]
      length) is the outcome [Panic]; an [error] return is [Err]. *)

From Stdlib Require Import ZArith List Lia Bool Ascii String Permutation Sorted.
From stdpp Require Import base option list gmap strings pretty.

Open Scope Z_scope.

(** ** Outcomes *)

Inductive result (A : Type) : Type :=
| Ok (a : A)
| Err (msg : string)
| Panic.
Arguments Ok {A} a.
Arguments Err {A} msg.
Arguments Panic {A}.

(** ** Machine integers *)

Definition two63 : Z := 2 ^ 63.
Definition two64 : Z := 2 ^ 64.

(** The value a 64-bit signed register holds after an operation whose
    mathematical result is [z]. *)
Definition wrap64 (z : Z) : Z := (z + two63) mod two64 - two63.

Definition add64 (a b : Z) : Z := wrap64 (a + b).

Definition int64_range (z : Z) : Prop := - two63 <= z < two63.

(** ** Time ([time.Time], [time.Duration])

    An instant is the number of nanoseconds since the zero [time.Time];
    a [Duration] is an [int64] count of nanoseconds.  [Time.Sub] returns the
    difference, or the largest (smallest) [Duration] when the difference
    does not fit. *)

Definition Time : Type := Z.
Definition Duration : Type := Z.
Definition Second : Duration := 1000000000.
Definition minDuration : Duration := - two63.
Definition maxDuration : Duration := two63 - 1.

Definition Time_Sub (t u : Time) : Duration :=
  let d := t - u in
  if d <? minDuration then minDuration
  else if maxDuration <? d then maxDuration
  else d.

(** ** Enumerations *)

Inductive OpType : Type :=
| OpTypeInvalid
| OpTypeBake
| OpTypeEndorsement
| OpTypeTransaction
| OpTypeReveal
| OpTypeDelegation
| OpTypeOrigination
| OpTypeNonceRevelation
| OpTypeActivation
| OpTypeBallot
| OpTypeProposal
| OpTypeDoubleBaking
| OpTypeDoubleEndorsement
| OpTypeUnfreeze
| OpTypeInvoice
| OpTypeAirdrop
| OpTypeSeedSlash
| OpTypeMigration
| OpTypeSubsidy
| OpTypeRegisterConstant
| OpTypePreendorsement
| OpTypeDoublePreendorsement
| OpTypeDepositsLimit
| OpTypeDeposit
| OpTypeBonus
| OpTypeReward
| OpTypeRollupOrigination
| OpTypeRollupTransaction.

Inductive FlowType : Type :=
| FlowTypeInvalid
| FlowTypeEndorsement
| FlowTypeTransaction
| FlowTypeOrigination
| FlowTypeDelegation
| FlowTypeReveal
| FlowTypeBaking
| FlowTypeNonceRevelation
| FlowTypeActivation
| FlowTypePenalty
| FlowTypeInternal
| FlowTypeInvoice
| FlowTypeAirdrop
| FlowTypeSubsidy
| FlowTypeRegisterConstant
| FlowTypeBonus
| FlowTypeReward
| FlowTypeDeposit
| FlowTypeDepositsLimit.

Inductive FlowCategory : Type :=
| FlowCategoryRewards
| FlowCategoryDeposits
| FlowCategoryFees
| FlowCategoryBalance
| FlowCategoryDelegation.

Inductive VotingPeriodKind : Type :=
| VotingPeriodInvalid
| VotingPeriodProposal
| VotingPeriodExploration
| VotingPeriodCooldown
| VotingPeriodPromotion
| VotingPeriodAdoption.

Definition VotingPeriodKind_IsValid (k : VotingPeriodKind) : bool :=
  match k with VotingPeriodInvalid => false | _ => true end.

(** The operation kinds of the node ([tezos.OpType]) that the implicit
    results of a block can carry. *)
Inductive TezosOpType : Type :=
| TzOpTypeOrigination
| TzOpTypeTransaction
| TzOpTypeOther (name : string).

Definition TezosOpType_String (k : TezosOpType) : string :=
  match k with
  | TzOpTypeOrigination => "origination"
  | TzOpTypeTransaction => "transaction"
  | TzOpTypeOther s => s
  end.

(** ** Addresses

    An address is carried in its printed form; the invalid address has
    none.  Contract addresses print with the prefix [KT1]; the zero
    address is the implicit account whose hash is all zero bytes. *)

Inductive Address : Type :=
| AddrInvalid
| Addr (text : string).

Definition Address_IsValid (a : Address) : bool :=
  match a with AddrInvalid => false | Addr _ => true end.

Definition Address_String (a : Address) : string :=
  match a with AddrInvalid => "" | Addr s => s end.

Definition Address_IsContract (a : Address) : bool :=
  match a with
  | AddrInvalid => false
  | Addr s => String.prefix "KT1" s
  end.

Definition ZeroAddress : Address := Addr "tz1Ke2h7sDdakHJQh8WX4Z372du1KChsksyU".

Definition Address_Equal (a b : Address) : bool :=
  match a, b with
  | AddrInvalid, AddrInvalid => true
  | Addr s, Addr t => String.eqb s t
  | _, _ => false
  end.

(** ** Raw operations attached to an [Op]

    [Op.Raw] is an interface value: nil, an [*rpc.Transaction] or any
    other typed operation.  Every non-nil one answers [Meta().Power()]. *)

Inductive RawOp : Type :=
| RawNil
| RawTransaction (Destination : Address) (Power : Z)
| RawOther (Power : Z).

Definition AccountID : Type := Z.

(** ** Records of the model package *)

Ltac setter eta proj :=
  let v := fresh "v" in
  let r := fresh "r" in
  intros v r;
  let e := eval cbv beta delta [eta] in (eta r) in
  let p := constr:(proj r) in
  match eval pattern p in e with
  | ?f _ => let t := eval cbv beta in (f v) in exact t
  end.

Module OpRef.
Record t : Type := mk {
  Kind : OpType;
  N : Z;
  L : Z;
  P : Z
}.
End OpRef.

Module Op.
Record t : Type := mk {
  RowId : Z;
  Type_ : OpType;
  Height : Z;
  Cycle : Z;
  Timestamp : Time;
  OpN : Z;
  OpL : Z;
  OpP : Z;
  OpC : Z;
  OpI : Z;
  IsSuccess : bool;
  IsEvent : bool;
  IsInternal : bool;
  IsContract : bool;
  IsStorageUpdate : bool;
  SenderId : AccountID;
  ReceiverId : AccountID;
  Volume : Z;
  Fee : Z;
  Reward : Z;
  Deposit : Z;
  Burned : Z;
  GasLimit : Z;
  GasUsed : Z;
  StoragePaid : Z;
  Entrypoint : Z;
  Parameters : list Z;
  Storage : list Z;
  StorageHash : Z;
  BigmapEvents : list (Z * Z * Z);
  Contract : option AccountID;
  Raw : RawOp
}.

Definition eta (o : t) : t :=
  mk (RowId o) (Type_ o) (Height o) (Cycle o) (Timestamp o) (OpN o) (OpL o)
     (OpP o) (OpC o) (OpI o) (IsSuccess o) (IsEvent o) (IsInternal o)
     (IsContract o) (IsStorageUpdate o) (SenderId o) (ReceiverId o)
     (Volume o) (Fee o) (Reward o) (Deposit o) (Burned o) (GasLimit o)
     (GasUsed o) (StoragePaid o) (Entrypoint o) (Parameters o) (Storage o)
     (StorageHash o) (BigmapEvents o) (Contract o) (Raw o).

(** The zero value of the struct, as [AllocOp] hands it out. *)
Definition zero : t :=
  mk 0 OpTypeInvalid 0 0 0 0 0 0 0 0 false false false false false 0 0
     0 0 0 0 0 0 0 0 0 [] [] 0 [] None RawNil.

Definition set_IsContract : bool -> t -> t := ltac:(setter eta IsContract).
Definition set_IsStorageUpdate : bool -> t -> t := ltac:(setter eta IsStorageUpdate).
Definition set_SenderId : AccountID -> t -> t := ltac:(setter eta SenderId).
Definition set_Volume : Z -> t -> t := ltac:(setter eta Volume).
Definition set_Fee : Z -> t -> t := ltac:(setter eta Fee).
Definition set_Reward : Z -> t -> t := ltac:(setter eta Reward).
Definition set_Deposit : Z -> t -> t := ltac:(setter eta Deposit).
Definition set_Burned : Z -> t -> t := ltac:(setter eta Burned).
Definition set_GasUsed : Z -> t -> t := ltac:(setter eta GasUsed).
Definition set_StoragePaid : Z -> t -> t := ltac:(setter eta StoragePaid).
Definition set_Entrypoint : Z -> t -> t := ltac:(setter eta Entrypoint).
Definition set_Storage : list Z -> t -> t := ltac:(setter eta Storage).
Definition set_StorageHash : Z -> t -> t := ltac:(setter eta StorageHash).
Definition set_BigmapEvents : list (Z * Z * Z) -> t -> t := ltac:(setter eta BigmapEvents).
Definition set_Contract : option AccountID -> t -> t := ltac:(setter eta Contract).
End Op.

Module Flow.
Record t : Type := mk {
  AccountId : AccountID;
  OpN : Z;
  Operation : FlowType;
  Category : FlowCategory;
  AmountIn : Z;
  AmountOut : Z;
  IsFee : bool;
  IsBurned : bool;
  IsFrozen : bool;
  IsUnfrozen : bool
}.
End Flow.

Module Account.
Record t : Type := mk {
  RowId : AccountID;
  Address_ : Address;
  IsNew : bool;
  IsDirty : bool;
  IsBaker : bool;
  IsContract : bool;
  IsFunded : bool;
  WasFunded : bool;
  LastSeen : Z
}.

Definition eta (a : t) : t :=
  mk (RowId a) (Address_ a) (IsNew a) (IsDirty a) (IsBaker a) (IsContract a)
     (IsFunded a) (WasFunded a) (LastSeen a).

Definition set_IsContract : bool -> t -> t := ltac:(setter eta IsContract).
End Account.

Module Baker.
Record t : Type := mk { Acc : Account.t }.
End Baker.

(** [tezos.Params]: the protocol constants the code below reads.  The
    cycle arithmetic of the constants ([CycleStartHeight], [IsCycleStart])
    and their specialisation to a network and protocol belong to the tzgo
    library; they are parameters of [FetchRPC]. *)
Module Params.
Record t : Type := mk {
  Version : Z;
  PreservedCycles : Z;
  Deployment : Z;
  BlocksPerCycle : Z
}.

Definition eta (p : t) : t :=
  mk (Version p) (PreservedCycles p) (Deployment p) (BlocksPerCycle p).

Definition set_Deployment : Z -> t -> t := ltac:(setter eta Deployment).
End Params.

(** Modelled from the spec: the [Chain] and [Supply] structs are declared
    outside the files at hand; the spec describes them as running
    chain-wide totals (active accounts, total supply, frozen amounts)
    copied by value from the parent block. *)
Module Chain.
Record t : Type := mk { TotalAccounts : Z; ActiveAccounts : Z }.
Definition zero : t := mk 0 0.
End Chain.

Module Supply.
Record t : Type := mk { Total : Z; Frozen : Z }.
Definition zero : t := mk 0 0.
End Supply.

(** ** Node data ([rpc] package), as far as the builder reads it *)

Module BalanceUpdate.
Record t : Type := mk {
  Kind : string;
  Address_ : Address;
  Amount : Z
}.
End BalanceUpdate.

Module Script.
Record t : Type := mk {
  Bigmaps : list Z;
  BigmapTypes : list (Z * Z)
}.
End Script.

Module ImplicitResult.
Record t : Type := mk {
  Kind : TezosOpType;
  OriginatedContracts : list Address;
  Script_ : option Script.t;
  BalanceUpdates : list BalanceUpdate.t;
  Gas : Z;
  PaidStorageSizeDiff : Z;
  StorageIsValid : bool;
  StorageBinary : list Z;
  StorageHash64 : Z
}.
End ImplicitResult.

Module RpcBlock.
Record t : Type := mk {
  Hash : option string;
  Level : Z;
  Cycle : Z;
  Timestamp : Time;
  Version : Z;
  Priority : Z;
  PayloadRound : Z;
  LbVote : Z;
  ProofOfWorkNonce : list Z;
  Proto : Z;
  ChainId : string;
  Protocol : string;
  LiquidityBakingEscapeEma : Z;
  VotingPeriodKind_ : VotingPeriodKind;
  ImplicitOperationsResults : list ImplicitResult.t
}.
End RpcBlock.

(** A rights entry fetched for a cycle: the height it was asked at and
    the cycle. *)
Module Bundle.
Record t : Type := mk {
  Block : option RpcBlock.t;
  Params_ : option Params.t;
  Baking : list (Z * Z);
  Endorsing : list (Z * Z)
}.

Definition empty : t := mk None None [] [].

Definition eta (x : t) : t := mk (Block x) (Params_ x) (Baking x) (Endorsing x).

Definition set_Block : option RpcBlock.t -> t -> t := ltac:(setter eta Block).
Definition set_Params : option Params.t -> t -> t := ltac:(setter eta Params_).
End Bundle.

(** ** The [Block] struct *)

Module Block.
Record t : Type := mk {
  RowId : Z;
  ParentId : Z;
  Hash : option string;
  Height : Z;
  Cycle : Z;
  IsCycleSnapshot : bool;
  Timestamp : Time;
  Solvetime : Z;
  Version : Z;
  Round : Z;
  Nonce : Z;
  VotingPeriodKind_ : VotingPeriodKind;
  BakerId : AccountID;
  ProposerId : AccountID;
  NSlotsEndorsed : Z;
  NOpsApplied : Z;
  NOpsFailed : Z;
  NContractCalls : Z;
  NRollupCalls : Z;
  NEvents : Z;
  NTx : Z;
  Volume : Z;
  Fee : Z;
  Reward : Z;
  Deposit : Z;
  ActivatedSupply : Z;
  BurnedSupply : Z;
  MintedSupply : Z;
  SeenAccounts : Z;
  NewAccounts : Z;
  NewContracts : Z;
  ClearedAccounts : Z;
  FundedAccounts : Z;
  GasLimit : Z;
  GasUsed : Z;
  StoragePaid : Z;
  LbEscapeVote : Z;
  LbEscapeEma : Z;
  ProposerConsensusKeyId : AccountID;
  BakerConsensusKeyId : AccountID;
  TZ : option Bundle.t;
  Params_ : option Params.t;
  Chain_ : option Chain.t;
  Supply_ : option Supply.t;
  Ops : list Op.t;
  Flows : list Flow.t;
  Baker_ : option Baker.t;
  Proposer : option Baker.t;
  Parent : option positive;
  HasProposals : bool;
  HasBallots : bool;
  HasSeeds : bool;
  AbsentBaker : AccountID;
  AbsentEndorsers : list AccountID
}.

Definition eta (b : t) : t :=
  mk (RowId b) (ParentId b) (Hash b) (Height b) (Cycle b) (IsCycleSnapshot b)
     (Timestamp b) (Solvetime b) (Version b) (Round b) (Nonce b)
     (VotingPeriodKind_ b) (BakerId b) (ProposerId b) (NSlotsEndorsed b)
     (NOpsApplied b) (NOpsFailed b) (NContractCalls b) (NRollupCalls b)
     (NEvents b) (NTx b) (Volume b) (Fee b) (Reward b) (Deposit b)
     (ActivatedSupply b) (BurnedSupply b) (MintedSupply b) (SeenAccounts b)
     (NewAccounts b) (NewContracts b) (ClearedAccounts b) (FundedAccounts b)
     (GasLimit b) (GasUsed b) (StoragePaid b) (LbEscapeVote b) (LbEscapeEma b)
     (ProposerConsensusKeyId b) (BakerConsensusKeyId b) (TZ b) (Params_ b)
     (Chain_ b) (Supply_ b) (Ops b) (Flows b) (Baker_ b) (Proposer b)
     (Parent b) (HasProposals b) (HasBallots b) (HasSeeds b) (AbsentBaker b)
     (AbsentEndorsers b).

(** [new(Block)]: every field at its zero value. *)
Definition zero : t :=
  mk 0 0 None 0 0 false 0 0 0 0 0 VotingPeriodInvalid 0 0 0
     0 0 0 0 0 0 0 0 0 0 0 0 0 0 0 0 0 0 0 0 0 0 0 0 0
     None None None None [] [] None None None false false false 0 [].

Definition set_ParentId : Z -> t -> t := ltac:(setter eta ParentId).
Definition set_Hash : option string -> t -> t := ltac:(setter eta Hash).
Definition set_Height : Z -> t -> t := ltac:(setter eta Height).
Definition set_Cycle : Z -> t -> t := ltac:(setter eta Cycle).
Definition set_Timestamp : Time -> t -> t := ltac:(setter eta Timestamp).
Definition set_Solvetime : Z -> t -> t := ltac:(setter eta Solvetime).
Definition set_Version : Z -> t -> t := ltac:(setter eta Version).
Definition set_Round : Z -> t -> t := ltac:(setter eta Round).
Definition set_Nonce : Z -> t -> t := ltac:(setter eta Nonce).
Definition set_VotingPeriodKind : VotingPeriodKind -> t -> t := ltac:(setter eta VotingPeriodKind_).
Definition set_NSlotsEndorsed : Z -> t -> t := ltac:(setter eta NSlotsEndorsed).
Definition set_NOpsApplied : Z -> t -> t := ltac:(setter eta NOpsApplied).
Definition set_NOpsFailed : Z -> t -> t := ltac:(setter eta NOpsFailed).
Definition set_NContractCalls : Z -> t -> t := ltac:(setter eta NContractCalls).
Definition set_NRollupCalls : Z -> t -> t := ltac:(setter eta NRollupCalls).
Definition set_NEvents : Z -> t -> t := ltac:(setter eta NEvents).
Definition set_NTx : Z -> t -> t := ltac:(setter eta NTx).
Definition set_Volume : Z -> t -> t := ltac:(setter eta Volume).
Definition set_Fee : Z -> t -> t := ltac:(setter eta Fee).
Definition set_Reward : Z -> t -> t := ltac:(setter eta Reward).
Definition set_Deposit : Z -> t -> t := ltac:(setter eta Deposit).
Definition set_ActivatedSupply : Z -> t -> t := ltac:(setter eta ActivatedSupply).
Definition set_BurnedSupply : Z -> t -> t := ltac:(setter eta BurnedSupply).
Definition set_MintedSupply : Z -> t -> t := ltac:(setter eta MintedSupply).
Definition set_SeenAccounts : Z -> t -> t := ltac:(setter eta SeenAccounts).
Definition set_NewAccounts : Z -> t -> t := ltac:(setter eta NewAccounts).
Definition set_NewContracts : Z -> t -> t := ltac:(setter eta NewContracts).
Definition set_ClearedAccounts : Z -> t -> t := ltac:(setter eta ClearedAccounts).
Definition set_FundedAccounts : Z -> t -> t := ltac:(setter eta FundedAccounts).
Definition set_GasLimit : Z -> t -> t := ltac:(setter eta GasLimit).
Definition set_GasUsed : Z -> t -> t := ltac:(setter eta GasUsed).
Definition set_StoragePaid : Z -> t -> t := ltac:(setter eta StoragePaid).
Definition set_LbEscapeVote : Z -> t -> t := ltac:(setter eta LbEscapeVote).
Definition set_LbEscapeEma : Z -> t -> t := ltac:(setter eta LbEscapeEma).
Definition set_TZ : option Bundle.t -> t -> t := ltac:(setter eta TZ).
Definition set_Params : option Params.t -> t -> t := ltac:(setter eta Params_).
Definition set_Chain : option Chain.t -> t -> t := ltac:(setter eta Chain_).
Definition set_Supply : option Supply.t -> t -> t := ltac:(setter eta Supply_).
Definition set_Ops : list Op.t -> t -> t := ltac:(setter eta Ops).
Definition set_Flows : list Flow.t -> t -> t := ltac:(setter eta Flows).
Definition set_Parent : option positive -> t -> t := ltac:(setter eta Parent).
Definition set_HasProposals : bool -> t -> t := ltac:(setter eta HasProposals).
Definition set_HasBallots : bool -> t -> t := ltac:(setter eta HasBallots).
Definition set_HasSeeds : bool -> t -> t := ltac:(setter eta HasSeeds).
End Block.

(** The aggregate counters of a block, the fields [Update] recomputes. *)
Module Counter.
Inductive t : Type :=
| NOpsApplied
| NOpsFailed
| NEvents
| NContractCalls
| NRollupCalls
| NTx
| Volume
| Fee
| Reward
| Deposit
| ActivatedSupply
| BurnedSupply
| MintedSupply
| SeenAccounts
| NewAccounts
| NewContracts
| ClearedAccounts
| FundedAccounts
| GasLimit
| GasUsed
| StoragePaid.

Definition all : list t :=
  [ NOpsApplied; NOpsFailed; NEvents; NContractCalls; NRollupCalls; NTx;
    Volume; Fee; Reward; Deposit; ActivatedSupply; BurnedSupply; MintedSupply;
    SeenAccounts; NewAccounts; NewContracts; ClearedAccounts; FundedAccounts;
    GasLimit; GasUsed; StoragePaid ].
End Counter.

#[global] Instance Counter_eq_dec : EqDecision Counter.t.
Proof. solve_decision. Defined.

(** The field [b.X] of a counter [X]. *)
Definition counter (c : Counter.t) (b : Block.t) : Z :=
  match c with
  | Counter.NOpsApplied => Block.NOpsApplied b
  | Counter.NOpsFailed => Block.NOpsFailed b
  | Counter.NEvents => Block.NEvents b
  | Counter.NContractCalls => Block.NContractCalls b
  | Counter.NRollupCalls => Block.NRollupCalls b
  | Counter.NTx => Block.NTx b
  | Counter.Volume => Block.Volume b
  | Counter.Fee => Block.Fee b
  | Counter.Reward => Block.Reward b
  | Counter.Deposit => Block.Deposit b
  | Counter.ActivatedSupply => Block.ActivatedSupply b
  | Counter.BurnedSupply => Block.BurnedSupply b
  | Counter.MintedSupply => Block.MintedSupply b
  | Counter.SeenAccounts => Block.SeenAccounts b
  | Counter.NewAccounts => Block.NewAccounts b
  | Counter.NewContracts => Block.NewContracts b
  | Counter.ClearedAccounts => Block.ClearedAccounts b
  | Counter.FundedAccounts => Block.FundedAccounts b
  | Counter.GasLimit => Block.GasLimit b
  | Counter.GasUsed => Block.GasUsed b
  | Counter.StoragePaid => Block.StoragePaid b
  end.

(** The assignment [b.X = v]. *)
Definition set_counter (c : Counter.t) (v : Z) (b : Block.t) : Block.t :=
  match c with
  | Counter.NOpsApplied => Block.set_NOpsApplied v b
  | Counter.NOpsFailed => Block.set_NOpsFailed v b
  | Counter.NEvents => Block.set_NEvents v b
  | Counter.NContractCalls => Block.set_NContractCalls v b
  | Counter.NRollupCalls => Block.set_NRollupCalls v b
  | Counter.NTx => Block.set_NTx v b
  | Counter.Volume => Block.set_Volume v b
  | Counter.Fee => Block.set_Fee v b
  | Counter.Reward => Block.set_Reward v b
  | Counter.Deposit => Block.set_Deposit v b
  | Counter.ActivatedSupply => Block.set_ActivatedSupply v b
  | Counter.BurnedSupply => Block.set_BurnedSupply v b
  | Counter.MintedSupply => Block.set_MintedSupply v b
  | Counter.SeenAccounts => Block.set_SeenAccounts v b
  | Counter.NewAccounts => Block.set_NewAccounts v b
  | Counter.NewContracts => Block.set_NewContracts v b
  | Counter.ClearedAccounts => Block.set_ClearedAccounts v b
  | Counter.FundedAccounts => Block.set_FundedAccounts v b
  | Counter.GasLimit => Block.set_GasLimit v b
  | Counter.GasUsed => Block.set_GasUsed v b
  | Counter.StoragePaid => Block.set_StoragePaid v b
  end.

(** The additive update [b.X += v] (and [b.X++] for [v = 1]). *)
Definition add (c : Counter.t) (v : Z) (b : Block.t) : Block.t :=
  set_counter c (add64 (counter c b) v) b.

(** ** Program state: the heap of blocks, the block pool, the RPC log *)

Inductive RpcCall : Type :=
| CallGetBlock (hash : string)
| CallGetConstants (height : Z)
| CallFetchRightsByCycle (height cycle : Z).

Record State : Type := mkState {
  heap : gmap positive Block.t;
  blockPool : list positive;
  rpcCalls : list RpcCall
}.

Definition set_heap (h : gmap positive Block.t) (s : State) : State :=
  mkState h (blockPool s) (rpcCalls s).
Definition set_blockPool (l : list positive) (s : State) : State :=
  mkState (heap s) l (rpcCalls s).
Definition set_rpcCalls (l : list RpcCall) (s : State) : State :=
  mkState (heap s) (blockPool s) l.

(** Computations that read and write the state and may fail. *)
Definition M (A : Type) : Type := State -> State * result A.

#[global] Instance M_ret : MRet M := fun A a s => (s, Ok a).

#[global] Instance M_bind : MBind M := fun A B f m s =>
  match m s with
  | (s', Ok a) => f a s'
  | (s', Err e) => (s', Err e)
  | (s', Panic) => (s', Panic)
  end.

Definition fail {A : Type} (msg : string) : M A := fun s => (s, Err msg).

Definition panic {A : Type} : M A := fun s => (s, Panic).

(** Dereference of a block pointer. *)
Definition load (p : positive) : M Block.t := fun s =>
  match heap s !! p with
  | Some b => (s, Ok b)
  | None => (s, Panic)
  end.

Definition store (p : positive) (b : Block.t) : M unit := fun s =>
  (set_heap (<[p := b]> (heap s)) s, Ok tt).

(** A field assignment through a pointer: [p.X = v]. *)
Definition modify (p : positive) (f : Block.t -> Block.t) : M unit :=
  b ← load p; store p (f b).

Definition logCall (c : RpcCall) : M unit := fun s =>
  (set_rpcCalls (rpcCalls s ++ [c]) s, Ok tt).

(** ** [blockPool], [AllocBlock], [Reset], [Free]

    [sync.Pool.Get] hands out some pooled object, or a new one when the
    pool is empty; the model takes the head of the pool. *)
Definition AllocBlock : M positive := fun s =>
  match blockPool s with
  | p :: rest => (set_blockPool rest s, Ok p)
  | [] =>
      let p := fresh (dom (heap s)) in
      (set_heap (<[p := Block.zero]> (heap s)) s, Ok p)
  end.

(** [Reset] frees the ops and flows of the block to their own pools (not
    modelled: ops and flows are carried by value) and truncates both
    slices. *)
Definition Reset (b : Block.t) : Block.t :=
  {| Block.RowId := 0;
     Block.ParentId := 0;
     Block.Hash := None;
     Block.Height := 0;
     Block.Cycle := 0;
     Block.IsCycleSnapshot := false;
     Block.Timestamp := 0;
     Block.Solvetime := 0;
     Block.Version := 0;
     Block.Round := 0;
     Block.Nonce := 0;
     Block.VotingPeriodKind_ := VotingPeriodInvalid;
     Block.BakerId := 0;
     Block.ProposerId := 0;
     Block.NSlotsEndorsed := 0;
     Block.NOpsApplied := 0;
     Block.NOpsFailed := 0;
     Block.NContractCalls := 0;
     Block.NRollupCalls := 0;
     Block.NEvents := 0;
     Block.NTx := 0;
     Block.Volume := 0;
     Block.Fee := 0;
     Block.Reward := 0;
     Block.Deposit := 0;
     Block.ActivatedSupply := 0;
     Block.BurnedSupply := 0;
     Block.MintedSupply := 0;
     Block.SeenAccounts := 0;
     Block.NewAccounts := 0;
     Block.NewContracts := 0;
     Block.ClearedAccounts := 0;
     Block.FundedAccounts := 0;
     Block.GasLimit := 0;
     Block.GasUsed := 0;
     Block.StoragePaid := 0;
     Block.LbEscapeVote := 0;
     Block.LbEscapeEma := 0;
     Block.ProposerConsensusKeyId := 0;
     Block.BakerConsensusKeyId := 0;
     Block.TZ := None;
     Block.Params_ := None;
     Block.Chain_ := None;
     Block.Supply_ := None;
     Block.Ops := [];
     Block.Flows := [];
     Block.Baker_ := None;
     Block.Proposer := None;
     Block.Parent := None;
     Block.HasProposals := false;
     Block.HasBallots := false;
     Block.HasSeeds := false;
     Block.AbsentBaker := 0;
     Block.AbsentEndorsers := [] |}.

(** [blockPool.Put]. *)
Definition poolPut (p : positive) : M unit := fun s =>
  (set_blockPool (p :: blockPool s) s, Ok tt).

Definition Free (p : positive) : M unit :=
  modify p Reset;; poolPut p.

(** ** [NextN] *)
Definition NextN (b : Block.t) : Z :=
  match last (Block.Ops b) with
  | Some o => add64 (Op.OpN o) 1
  | None => 0
  end.

(** ** [NewBlock] *)

(** [binary.BigEndian.Uint64] on the first eight bytes. *)
Definition BigEndian_Uint64 (bs : list Z) : Z :=
  foldl (fun acc x => acc * 256 + x) 0 (take 8 bs).

Definition NewBlock (tz : option Bundle.t) (parent : option positive) : M positive :=
  b ← AllocBlock;
  match tz with
  | None => fail "block init: missing rpc block"
  | Some bundle =>
    match Bundle.Block bundle with
    | None => fail "block init: missing rpc block"
    | Some blk =>
      modify b (Block.set_TZ tz);;
      modify b (Block.set_Params (Bundle.Params_ bundle));;
      modify b (Block.set_Chain (Some Chain.zero));;
      modify b (Block.set_Supply (Some Supply.zero));;
      (* init block model from rpc block and local data *)
      modify b (Block.set_Height (RpcBlock.Level blk));;
      modify b (Block.set_Cycle (RpcBlock.Cycle blk));;
      modify b (Block.set_Timestamp (RpcBlock.Timestamp blk));;
      modify b (Block.set_Hash (RpcBlock.Hash blk));;
      modify b (Block.set_Version (RpcBlock.Version blk));;
      modify b (Block.set_Round (add64 (RpcBlock.Priority blk) (RpcBlock.PayloadRound blk)));;
      modify b (Block.set_LbEscapeVote (RpcBlock.LbVote blk));;
      modify b (Block.set_LbEscapeEma (RpcBlock.LiquidityBakingEscapeEma blk));;
      (if 8 <=? Z.of_nat (length (RpcBlock.ProofOfWorkNonce blk))
       then modify b (Block.set_Nonce (BigEndian_Uint64 (RpcBlock.ProofOfWorkNonce blk)))
       else mret tt);;
      (* adjust protocol version number for genesis and bootstrap blocks *)
      (if RpcBlock.Level blk <=? 1
       then modify b (fun x => Block.set_Version (add64 (Block.Version x) (-1)) x)
       else mret tt);;
      (* be robust against missing voting period *)
      modify b (Block.set_VotingPeriodKind (RpcBlock.VotingPeriodKind_ blk));;
      (if negb (VotingPeriodKind_IsValid (RpcBlock.VotingPeriodKind_ blk))
       then match parent with
            | Some q =>
                pb ← load q;
                modify b (Block.set_VotingPeriodKind (Block.VotingPeriodKind_ pb))
            | None => modify b (Block.set_VotingPeriodKind VotingPeriodProposal)
            end
       else mret tt);;
      (* parent info *)
      match parent with
      | Some q =>
          pb ← load q;
          modify b (Block.set_ParentId (Block.RowId pb));;
          modify b (Block.set_Parent (Some q));;
          pb ← load q;
          modify b (fun x =>
            Block.set_Solvetime
              (Z.max 0 (Z.quot (Time_Sub (Block.Timestamp x) (Block.Timestamp pb)) Second)) x);;
          pb ← load q;
          (match Block.Chain_ pb with
           | Some c => modify b (Block.set_Chain (Some c))
           | None => mret tt
           end);;
          pb ← load q;
          (match Block.Supply_ pb with
           | Some c => modify b (Block.set_Supply (Some c))
           | None => mret tt
           end);;
          mret b
      | None => mret b
      end
    end
  end.

(** ** [Update] *)

(** The assignments that open [Update]. *)
Definition Update_init (b : Block.t) : Block.t :=
  let b := Block.set_NOpsApplied 0 b in
  let b := Block.set_NOpsFailed 0 b in
  let b := Block.set_NEvents 0 b in
  let b := Block.set_NContractCalls 0 b in
  let b := Block.set_NRollupCalls 0 b in
  let b := Block.set_NTx 0 b in
  let b := Block.set_Volume 0 b in
  let b := Block.set_Fee 0 b in
  let b := Block.set_Reward 0 b in
  let b := Block.set_Deposit 0 b in
  let b := Block.set_ActivatedSupply 0 b in
  let b := Block.set_BurnedSupply 0 b in
  let b := Block.set_MintedSupply 0 b in
  let b := Block.set_SeenAccounts 0 b in
  let b := Block.set_NewAccounts 0 b in
  let b := Block.set_NewContracts 0 b in
  let b := Block.set_ClearedAccounts 0 b in
  let b := Block.set_FundedAccounts 0 b in
  let b := Block.set_GasLimit 0 b in
  let b := Block.set_GasUsed 0 b in
  let b := Block.set_StoragePaid 0 b in
  b.

(** [op.Raw.Meta().Power()]; a nil interface value panics. *)
Definition RawOp_Power (r : RawOp) : option Z :=
  match r with
  | RawNil => None
  | RawTransaction _ pw => Some pw
  | RawOther pw => Some pw
  end.

(** One iteration of [for _, op := range b.Ops]; the state is the block
    and the local [endorsedSlots].  [None] is a panic. *)
Definition Update_op (st : Block.t * Z) (op : Op.t) : option (Block.t * Z) :=
  let '(b, endorsedSlots) := st in
  let b := add Counter.GasLimit (Op.GasLimit op) b in
  let b := add Counter.GasUsed (Op.GasUsed op) b in
  let b := add Counter.StoragePaid (Op.StoragePaid op) b in
  let b :=
    if Op.IsSuccess op then
      if Op.IsEvent op then add Counter.NEvents 1 b else add Counter.NOpsApplied 1 b
    else add Counter.NOpsFailed 1 b in
  match Op.Type_ op with
  | OpTypeBake =>
      (* only bake ops count against block deposit and reward *)
      let b := add Counter.MintedSupply (Op.Reward op) b in
      let b := add Counter.Reward (Op.Reward op) b in
      let b := add Counter.Deposit (Op.Deposit op) b in
      Some (b, endorsedSlots)
  | OpTypeBonus =>
      let b := add Counter.MintedSupply (Op.Reward op) b in
      let b := add Counter.Reward (Op.Reward op) b in
      Some (b, endorsedSlots)
  | OpTypeReward =>
      let b := add Counter.MintedSupply (Op.Reward op) b in
      let b := add Counter.BurnedSupply (Op.Burned op) b in
      Some (b, endorsedSlots)
  | OpTypeEndorsement =>
      match RawOp_Power (Op.Raw op) with
      | None => None
      | Some pw =>
          let endorsedSlots := add64 endorsedSlots pw in
          let b := add Counter.MintedSupply (Op.Reward op) b in
          Some (b, endorsedSlots)
      end
  | OpTypeNonceRevelation =>
      let b := Block.set_HasSeeds true b in
      let b := add Counter.MintedSupply (Op.Reward op) b in
      Some (b, endorsedSlots)
  | OpTypeAirdrop | OpTypeInvoice | OpTypeSubsidy =>
      let b := add Counter.MintedSupply (Op.Reward op) b in
      Some (b, endorsedSlots)
  | OpTypeActivation =>
      let b :=
        if Op.IsSuccess op then
          let b := add Counter.ActivatedSupply (Op.Volume op) b in
          add Counter.Volume (Op.Volume op) b
        else b in
      Some (b, endorsedSlots)
  | OpTypeDoubleBaking | OpTypeDoubleEndorsement | OpTypeDoublePreendorsement =>
      let b := add Counter.BurnedSupply (Op.Burned op) b in
      Some (b, endorsedSlots)
  | OpTypeSeedSlash =>
      let b := add Counter.BurnedSupply (Op.Burned op) b in
      (* post-Ithaca seed slash mints and directly burns *)
      match Block.Params_ b with
      | None => None
      | Some params =>
          let b :=
            if 12 <=? Params.Version params
            then add Counter.MintedSupply (Op.Reward op) b else b in
          Some (b, endorsedSlots)
      end
  | OpTypeTransaction =>
      let b := add Counter.Fee (Op.Fee op) b in
      let b := add Counter.BurnedSupply (Op.Burned op) b in
      let b := add Counter.MintedSupply (Op.Reward op) b in
      if Op.IsSuccess op && negb (Op.IsEvent op) then
        match Op.Raw op with
        | RawTransaction dest _ =>
            let b :=
              if Address_Equal ZeroAddress dest
              then add Counter.BurnedSupply (Op.Volume op) b
              else add Counter.Volume (Op.Volume op) b in
            (* only count external calls with params *)
            let b :=
              if negb (Op.IsInternal op) && Address_IsContract dest
                 && (0 <? Z.of_nat (length (Op.Parameters op)))
              then add Counter.NContractCalls 1 b else b in
            (* only count external tx *)
            let b := if negb (Op.IsInternal op) then add Counter.NTx 1 b else b in
            Some (b, endorsedSlots)
        | _ => None
        end
      else Some (b, endorsedSlots)
  | OpTypeOrigination | OpTypeRollupOrigination =>
      let b := add Counter.Fee (Op.Fee op) b in
      let b := add Counter.BurnedSupply (Op.Burned op) b in
      let b := if Op.IsSuccess op then add Counter.Volume (Op.Volume op) b else b in
      Some (b, endorsedSlots)
  | OpTypeDelegation | OpTypeReveal | OpTypeDepositsLimit =>
      let b := add Counter.Fee (Op.Fee op) b in
      Some (b, endorsedSlots)
  | OpTypeRegisterConstant =>
      let b := add Counter.Fee (Op.Fee op) b in
      let b := add Counter.BurnedSupply (Op.Burned op) b in
      Some (b, endorsedSlots)
  | OpTypeProposal =>
      Some (Block.set_HasProposals true b, endorsedSlots)
  | OpTypeBallot =>
      Some (Block.set_HasBallots true b, endorsedSlots)
  | OpTypeRollupTransaction =>
      let b := add Counter.Fee (Op.Fee op) b in
      let b := add Counter.BurnedSupply (Op.Burned op) b in
      let b :=
        if Op.IsSuccess op then
          let b := add Counter.Volume (Op.Volume op) b in
          add Counter.NRollupCalls 1 b
        else b in
      Some (b, endorsedSlots)
  | _ => Some (b, endorsedSlots)
  end.

Fixpoint Update_ops (st : Block.t * Z) (ops : list Op.t) : option (Block.t * Z) :=
  match ops with
  | [] => Some st
  | op :: rest =>
      match Update_op st op with
      | Some st' => Update_ops st' rest
      | None => None
      end
  end.

(** The shared tail of both account loops. *)
Definition Update_seen (b : Block.t) (acc : Account.t) : Block.t :=
  if Account.LastSeen acc =? Block.Height b then
    let b := add Counter.SeenAccounts 1 b in
    if negb (Account.IsFunded acc) then
      if Account.WasFunded acc then add Counter.ClearedAccounts 1 b else b
    else
      if negb (Account.WasFunded acc) then add Counter.FundedAccounts 1 b else b
  else b.

(** One iteration of [for _, acc := range accounts]. *)
Definition Update_account (b : Block.t) (acc : Account.t) : Block.t :=
  if Account.IsNew acc && Account.IsDirty acc then
    if Account.IsBaker acc then b (* continue *)
    else
      let b :=
        if Account.IsContract acc
        then add Counter.NewContracts 1 b else add Counter.NewAccounts 1 b in
      Update_seen b acc
  else Update_seen b acc.

(** One iteration of [for _, bkr := range bakers]. *)
Definition Update_baker (b : Block.t) (bkr : Baker.t) : Block.t :=
  let acc := Baker.Acc bkr in
  let b := if Account.IsNew acc then add Counter.NewAccounts 1 b else b in
  Update_seen b acc.

(** [Update] over the entries of both maps in the order the two [range]
    statements visit them. *)
Definition Update_entries (p : positive)
    (accounts : list Account.t) (bakers : list Baker.t) : M unit :=
  b ← load p;
  match Update_ops (Update_init b, 0) (Block.Ops b) with
  | None => panic
  | Some (b, endorsedSlots) =>
      store p b;;
      (match Block.Parent b with
       | Some q => modify q (Block.set_NSlotsEndorsed endorsedSlots)
       | None => mret tt
       end);;
      (* count account changes *)
      modify p (fun b => foldl Update_account b accounts);;
      (* handle (new/updated) bakers separate *)
      modify p (fun b => foldl Update_baker b bakers)
  end.

Definition Update (p : positive)
    (accounts : gmap AccountID Account.t) (bakers : gmap AccountID Baker.t) : M unit :=
  Update_entries p (map_to_list accounts).*2 (map_to_list bakers).*2.

(** ** [FetchRPC] *)

(** The node client: every call answers with a value or an error. *)
Record Client : Type := mkClient {
  GetBlock : string -> result RpcBlock.t;
  GetConstants : Z -> result Params.t;
  FetchRightsByCycle : Z -> Z -> Bundle.t -> result Bundle.t
}.

(** Run a client answer inside [M]. *)
Definition liftResult {A : Type} (r : result A) : M A := fun s => (s, r).

Definition wrapErr {A : Type} (prefix : string) (r : result A) : result A :=
  match r with
  | Err e => Err (prefix +:+ e)
  | _ => r
  end.

Section FetchRPC.
(** The cycle arithmetic and the specialisation of the constants come
    from the tzgo library. *)
Variable CycleStartHeight : Params.t -> Z -> Z.
Variable IsCycleStart : Params.t -> Z -> bool.
Variable NewParams : Params.t.
Variable ForNetwork : Params.t -> string -> Params.t.
Variable ForProtocol : Params.t -> string -> Params.t.

(** The guard of the rights fetch. *)
Definition fetchesRights (b : Block.t) (params : Params.t) : bool :=
  (CycleStartHeight params 2 <=? Block.Height b) && IsCycleStart params (Block.Height b).

Definition FetchRPC (c : Client) (p : positive) : M unit :=
  b ← load p;
  match Block.Hash b with
  | None => fail ("invalid block hash on block id " +:+ pretty (Block.RowId b))
  | Some hash =>
    (match Block.TZ b with
     | None => modify p (Block.set_TZ (Some Bundle.empty))
     | Some _ => mret tt
     end);;
    b ← load p;
    tz ← (match Block.TZ b with Some tz => mret tz | None => panic end);
    blk ← (match Bundle.Block tz with
           | Some blk => mret blk
           | None =>
               logCall (CallGetBlock hash);;
               blk ← liftResult (GetBlock c hash);
               modify p (fun x => Block.set_TZ (Some (Bundle.set_Block (Some blk) tz)) x);;
               mret blk
           end);
    b ← load p;
    (match Block.Params_ b with
     | Some _ => mret tt
     | None =>
         (* fetch params from chain *)
         params ← (if 0 <? Block.Height b then
                     logCall (CallGetConstants (Block.Height b));;
                     liftResult (wrapErr "block init: " (GetConstants c (Block.Height b)))
                   else mret NewParams);
         let params := ForProtocol (ForNetwork params (RpcBlock.ChainId blk)) (RpcBlock.Protocol blk) in
         let params := Params.set_Deployment (RpcBlock.Proto blk) params in
         modify p (Block.set_Params (Some params))
     end);;
    b ← load p;
    params ← (match Block.Params_ b with Some x => mret x | None => panic end);
    tz ← (match Block.TZ b with Some tz => mret tz | None => panic end);
    modify p (Block.set_TZ (Some (Bundle.set_Params (Some params) tz)));;
    (* start fetching more rights at cycle 2 (look-ahead is 5) *)
    b ← load p;
    if fetchesRights b params then
      let cycle := add64 (Block.Cycle b) (Params.PreservedCycles params) in
      tz ← (match Block.TZ b with Some tz => mret tz | None => panic end);
      logCall (CallFetchRightsByCycle (Block.Height b) cycle);;
      tz' ← liftResult (FetchRightsByCycle c (Block.Height b) cycle tz);
      modify p (Block.set_TZ (Some tz'))
    else mret tt
  end.
End FetchRPC.

(** ** The builder ([etl] package) *)

(** Modelled from the spec: [NewEventOp] is declared outside the files at
    hand.  The spec identifies an Op inside its block by the composite
    position (list, position-in-list, position-in-block); the constructor
    receives that position and the type tag in an [OpRef] and the receiving
    account, and returns a successful event owned by the block. *)
Definition NewEventOp (b : Block.t) (recv : AccountID) (id : OpRef.t) : Op.t :=
  {| Op.RowId := 0;
     Op.Type_ := OpRef.Kind id;
     Op.Height := Block.Height b;
     Op.Cycle := Block.Cycle b;
     Op.Timestamp := Block.Timestamp b;
     Op.OpN := OpRef.N id;
     Op.OpL := OpRef.L id;
     Op.OpP := OpRef.P id;
     Op.OpC := 0;
     Op.OpI := 0;
     Op.IsSuccess := true;
     Op.IsEvent := true;
     Op.IsInternal := false;
     Op.IsContract := false;
     Op.IsStorageUpdate := false;
     Op.SenderId := 0;
     Op.ReceiverId := recv;
     Op.Volume := 0;
     Op.Fee := 0;
     Op.Reward := 0;
     Op.Deposit := 0;
     Op.Burned := 0;
     Op.GasLimit := 0;
     Op.GasUsed := 0;
     Op.StoragePaid := 0;
     Op.Entrypoint := 0;
     Op.Parameters := [];
     Op.Storage := [];
     Op.StorageHash := 0;
     Op.BigmapEvents := [];
     Op.Contract := None;
     Op.Raw := RawNil |}.

(** Modelled from the spec: [MapOpType] is declared outside the files at
    hand; it turns the node's operation kind into the model's type tag. *)
Definition MapOpType (k : TezosOpType) : OpType :=
  match k with
  | TzOpTypeOrigination => OpTypeOrigination
  | TzOpTypeTransaction => OpTypeTransaction
  | TzOpTypeOther _ => OpTypeInvalid
  end.

Module Contract.
Record t : Type := mk { AccountId : AccountID }.
End Contract.

Record Builder : Type := mkBuilder {
  block : Block.t;
  accMap : gmap string Account.t;
  conMap : gmap AccountID Contract.t
}.

Definition set_block (blk : Block.t) (b : Builder) : Builder :=
  mkBuilder blk (accMap b) (conMap b).
Definition set_accMap (m : gmap string Account.t) (b : Builder) : Builder :=
  mkBuilder (block b) m (conMap b).
Definition set_conMap (m : gmap AccountID Contract.t) (b : Builder) : Builder :=
  mkBuilder (block b) (accMap b) m.

(** Modelled from the spec: [AccountByAddress] is declared outside the
    files at hand; the account cache answers [Get(address)] with the
    entity and whether it was found. *)
Definition AccountByAddress (b : Builder) (a : Address) : option Account.t :=
  match a with
  | AddrInvalid => None
  | Addr s => accMap b !! s
  end.

(** Modelled from the spec: [NewSubsidyFlow] is declared outside the files
    at hand; a flow is one balance movement of an account, here an
    incoming amount tied to the position of the op. *)
Definition NewSubsidyFlow (dst : Account.t) (amount : Z) (id : OpRef.t) : Flow.t :=
  {| Flow.AccountId := Account.RowId dst;
     Flow.OpN := OpRef.N id;
     Flow.Operation := FlowTypeSubsidy;
     Flow.Category := FlowCategoryBalance;
     Flow.AmountIn := amount;
     Flow.AmountOut := 0;
     Flow.IsFee := false;
     Flow.IsBurned := false;
     Flow.IsFrozen := false;
     Flow.IsUnfrozen := false |}.

(** Modelled from the spec: [NewImplicitContract] is declared outside the
    files at hand; it registers the contract entity of an account the
    first time it is seen. *)
Definition NewImplicitContract (dst : Account.t) : Contract.t :=
  Contract.mk (Account.RowId dst).

(** [ops[n]] of the sparse array, for an index inside the array. *)
Definition slot (ops : list (option Op.t)) (n : Z) : option Op.t :=
  match ops !! Z.to_nat n with
  | Some (Some o) => Some o
  | _ => None
  end.

Section Etl.
(** The list ids of implicit operations are constants of the model
    package. *)
Variable OPL_BLOCK_EVENTS : Z.
Variable OPL_BLOCK_HEADER : Z.

(** Collaborators of the builder: the node, the contract table and the
    contract's own update of its storage. *)
Variable GetContractScript : Address -> result Script.t.
Variable LoadContractByAccountId : Builder -> AccountID -> result Contract.t.
Variable Contract_Update : Contract.t -> Op.t -> bool.

(** *** [AppendImplicitEvents] *)

(** One iteration of [for _, f := range flows]; [None] is a panic. *)
Definition implicitEvent (blk : Block.t) (ops : list (option Op.t)) (f : Flow.t)
    : option (list (option Op.t)) :=
  let n := Flow.OpN f in
  if (n <? 0) || (Z.of_nat (length ops) <=? n) then Some ops (* log, continue *)
  else
    let id := fun kind => OpRef.mk kind n OPL_BLOCK_EVENTS n in
    let put := fun o => <[Z.to_nat n := Some o]> ops in
    let new := fun kind =>
      Op.set_SenderId (Flow.AccountId f) (NewEventOp blk (Flow.AccountId f) (id kind)) in
    match Flow.Operation f with
    | FlowTypeInvoice =>
        (* only append additional invoice op post-Florence *)
        match Block.Params_ blk with
        | None => None
        | Some params =>
            if 9 <=? Params.Version params then
              match slot ops n with
              | None => Some (put (Op.set_Reward (Flow.AmountIn f) (new OpTypeInvoice)))
              | Some _ => Some ops
              end
            else Some ops
        end
    | FlowTypeBaking =>
        let o := match slot ops n with
                 | None => new OpTypeBake
                 | Some o => o
                 end in
        (* assuming only one flow per category per baker *)
        let o :=
          match Flow.Category f with
          | FlowCategoryDeposits => Op.set_Deposit (Flow.AmountIn f) o
          | FlowCategoryRewards => Op.set_Reward (Flow.AmountIn f) o
          | FlowCategoryBalance =>
              if Flow.IsFee f
              then Op.set_Fee (add64 (Op.Fee o) (Flow.AmountIn f)) o
              else Op.set_Reward (add64 (Op.Reward o) (Flow.AmountIn f)) o
          | _ => o
          end in
        Some (put o)
    | FlowTypeInternal =>
        (* only create ops for unfreeze-related internal events here *)
        if Flow.IsUnfrozen f then
          let o := match slot ops n with
                   | None => new OpTypeUnfreeze
                   | Some o => o
                   end in
          (* sum multiple flows per category per baker *)
          let o :=
            match Flow.Category f with
            | FlowCategoryDeposits => Op.set_Deposit (add64 (Op.Deposit o) (Flow.AmountOut f)) o
            | FlowCategoryRewards => Op.set_Reward (add64 (Op.Reward o) (Flow.AmountOut f)) o
            | FlowCategoryFees => Op.set_Fee (add64 (Op.Fee o) (Flow.AmountOut f)) o
            | _ => o
            end in
          Some (put o)
        else Some ops
    | FlowTypeNonceRevelation =>
        (* only seed slash events *)
        if Flow.IsBurned f then
          let o := match slot ops n with
                   | None => NewEventOp blk (Flow.AccountId f) (id OpTypeSeedSlash)
                   | Some o => o
                   end in
          (* sum multiple consecutive seed slashes into one op *)
          let o :=
            match Flow.Category f with
            | FlowCategoryRewards =>
                let o := Op.set_Reward (add64 (Op.Reward o) (Flow.AmountOut f)) o in
                Op.set_Burned (add64 (Op.Burned o) (Flow.AmountOut f)) o
            | FlowCategoryFees =>
                let o := Op.set_Fee (add64 (Op.Fee o) (Flow.AmountOut f)) o in
                Op.set_Burned (add64 (Op.Burned o) (Flow.AmountOut f)) o
            | FlowCategoryBalance =>
                let o := Op.set_Reward (add64 (Op.Reward o) (Flow.AmountIn f)) o in
                Op.set_Burned (add64 (Op.Burned o) (Flow.AmountOut f)) o
            | _ => o
            end in
          Some (put o)
        else Some ops
    | FlowTypeBonus =>
        match slot ops n with
        | None => Some (put (Op.set_Reward (Flow.AmountIn f) (new OpTypeBonus)))
        | Some o =>
            (* add bonus to existing block proposer *)
            Some (put (Op.set_Reward (add64 (Op.Reward o) (Flow.AmountIn f)) o))
        end
    | FlowTypeReward =>
        if Flow.IsBurned f then
          (* participation burn *)
          match slot ops n with
          | None =>
              let o := Op.set_Reward (Flow.AmountIn f) (new OpTypeReward) in
              Some (put (Op.set_Burned (Flow.AmountIn f) o))
          | Some _ => Some ops
          end
        else
          (* endorsement reward *)
          match slot ops n with
          | None => Some (put (Op.set_Reward (Flow.AmountIn f) (new OpTypeReward)))
          | Some _ => Some ops
          end
    | FlowTypeDeposit =>
        (* explicit deposit payment (positive) *)
        match Flow.Category f with
        | FlowCategoryDeposits =>
            match slot ops n with
            | None => Some (put (Op.set_Deposit (Flow.AmountIn f) (new OpTypeDeposit)))
            | Some _ => Some ops
            end
        | _ => Some ops
        end
    | _ => Some ops
    end.

Fixpoint implicitEvents (blk : Block.t) (ops : list (option Op.t)) (flows : list Flow.t)
    : option (list (option Op.t)) :=
  match flows with
  | [] => Some ops
  | f :: rest =>
      match implicitEvent blk ops f with
      | Some ops' => implicitEvents blk ops' rest
      | None => None
      end
  end.

(** The final loop: nil slots are skipped. *)
Definition compact (ops : list (option Op.t)) : list Op.t := omap id ops.

(** [flows] is the answer of [b.NewImplicitFlows()].  The function never
    returns a non-nil error: the outcome is [Ok] or [Panic]. *)
Definition AppendImplicitEvents (b : Builder) (flows : list Flow.t) : result Builder :=
  match last flows with
  | None => Ok b
  | Some lastFlow =>
      let blk := Block.set_Flows (Block.Flows (block b) ++ flows) (block b) in
      (* prepare ops *)
      let len := add64 (Flow.OpN lastFlow) 1 in
      if len <? 0 then Panic
      else
        match implicitEvents blk (replicate (Z.to_nat len) None) flows with
        | None => Panic
        | Some ops =>
            Ok (set_block (Block.set_Ops (Block.Ops blk ++ compact ops) blk) b)
        end
  end.

(** *** [AppendImplicitBlockOps] *)

(** The local closure [Errorf]; it reads [NextN] when it is called. *)
Definition Errorf (b : Builder) (op : ImplicitResult.t) (msg : string) : string :=
  "implicit block " +:+ TezosOpType_String (ImplicitResult.Kind op)
    +:+ " op [" +:+ pretty (NextN (block b)) +:+ "]: " +:+ msg.

(** Patch of the missing bigmap allocations: one alloc event per
    bigmap id, typed by the entry of [typs] at the same index. *)
Fixpoint bigmapAllocs (typs : list (Z * Z)) (n : nat) (ids : list Z)
    : option (list (Z * Z * Z)) :=
  match ids with
  | [] => Some []
  | i :: rest =>
      match typs !! n, bigmapAllocs typs (S n) rest with
      | Some (k, v), Some evs => Some ((i, k, v) :: evs)
      | _, _ => None
      end
  end.

(** The balance updates of an implicit origination: volume and one
    subsidy flow per update that is neither minted nor burned. *)
Fixpoint originationUpdates (dst : Account.t) (id : OpRef.t)
    (st : Op.t * list Flow.t) (vs : list BalanceUpdate.t) : Op.t * list Flow.t :=
  match vs with
  | [] => st
  | v :: rest =>
      let '(o, flows) := st in
      if String.eqb (BalanceUpdate.Kind v) "minted"
         || String.eqb (BalanceUpdate.Kind v) "burned"
      then originationUpdates dst id st rest
      else
        let o := Op.set_Volume (add64 (Op.Volume o) (BalanceUpdate.Amount v)) o in
        let f := NewSubsidyFlow dst (BalanceUpdate.Amount v) id in
        originationUpdates dst id (o, flows ++ [f]) rest
  end.

Definition implicitOrigination (b : Builder) (op : ImplicitResult.t) (id : OpRef.t)
    : Builder * result unit :=
  (* for now we expect a single address only *)
  match ImplicitResult.OriginatedContracts op with
  | [] => (b, Panic)
  | addr :: _ =>
    match AccountByAddress b addr with
    | None =>
        (b, Err (Errorf b op ("missing originated contract " +:+ Address_String addr)))
    | Some dst =>
      (* load script from RPC *)
      let script :=
        match ImplicitResult.Script_ op with
        | Some s => Ok s
        | None => GetContractScript (Account.Address_ dst)
        end in
      match script with
      | Panic => (b, Panic)
      | Err e =>
          (b, Err (Errorf b op ("loading contract script "
                     +:+ Address_String (Account.Address_ dst) +:+ ": " +:+ e)))
      | Ok script =>
        let id := OpRef.mk (MapOpType (ImplicitResult.Kind op))
                           (OpRef.N id) (OpRef.L id) (OpRef.P id) in
        let o := NewEventOp (block b) (Account.RowId dst) id in
        let o := Op.set_IsContract true o in
        let dst := Account.set_IsContract true dst in
        let b := set_accMap (<[Address_String addr := dst]> (accMap b)) b in
        let o := Op.set_GasUsed (ImplicitResult.Gas op) o in
        let o := Op.set_StoragePaid (ImplicitResult.PaidStorageSizeDiff op) o in
        let o :=
          if ImplicitResult.StorageIsValid op then
            let o := Op.set_Storage (ImplicitResult.StorageBinary op) o in
            let o := Op.set_StorageHash (ImplicitResult.StorageHash64 op) o in
            Op.set_IsStorageUpdate true o
          else o in
        (* patch missing bigmap allocs *)
        match bigmapAllocs (Script.BigmapTypes script) 0 (Script.Bigmaps script) with
        | None => (b, Panic)
        | Some bmd =>
          let o := if 0 <? Z.of_nat (length (Script.Bigmaps script))
                   then Op.set_BigmapEvents bmd o else o in
          (* add volume if balance update exists *)
          let '(o, flows) :=
            originationUpdates dst id (o, Block.Flows (block b))
                               (ImplicitResult.BalanceUpdates op) in
          (* register new implicit contract *)
          let con := NewImplicitContract dst in
          let o := Op.set_Contract (Some (Contract.AccountId con)) o in
          let blk := Block.set_Flows flows (block b) in
          let blk := Block.set_Ops (Block.Ops blk ++ [o]) blk in
          let b := set_block blk b in
          let b := set_conMap (<[Account.RowId dst := con]> (conMap b)) b in
          (b, Ok tt)
        end
      end
    end
  end.

(** The loop over the balance updates of an implicit transaction. *)
Fixpoint implicitTransaction (b : Builder) (op : ImplicitResult.t) (id : OpRef.t)
    (vs : list BalanceUpdate.t) : Builder * result unit :=
  match vs with
  | [] => (b, Ok tt)
  | v :: rest =>
    let addr := BalanceUpdate.Address_ v in
    if negb (Address_IsValid addr) then implicitTransaction b op id rest
    else
      match AccountByAddress b addr with
      | None => (b, Err (Errorf b op ("missing account " +:+ Address_String addr)))
      | Some dst =>
        match LoadContractByAccountId b (Account.RowId dst) with
        | Panic => (b, Panic)
        | Err e =>
            (b, Err (Errorf b op ("loading contract " +:+ pretty (Account.RowId dst)
                       +:+ " " +:+ Address_String addr +:+ ": " +:+ e)))
        | Ok dCon =>
          let id := OpRef.mk OpTypeSubsidy (OpRef.N id) (OpRef.L id) (OpRef.P id) in
          let o := NewEventOp (block b) (Account.RowId dst) id in
          let o := Op.set_IsContract true o in
          let o := Op.set_Volume (BalanceUpdate.Amount v) o in
          let o := Op.set_Reward (BalanceUpdate.Amount v) o in
          let o := Op.set_GasUsed (ImplicitResult.Gas op) o in
          let o := Op.set_StoragePaid (ImplicitResult.PaidStorageSizeDiff op) o in
          let o := Op.set_Entrypoint 1 o in
          let o := Op.set_Storage (ImplicitResult.StorageBinary op) o in
          let o := Op.set_StorageHash (ImplicitResult.StorageHash64 op) o in
          let o := Op.set_IsStorageUpdate (Contract_Update dCon o) o in
          let o := Op.set_Contract (Some (Contract.AccountId dCon)) o in
          let blk := Block.set_Ops (Block.Ops (block b) ++ [o]) (block b) in
          let blk :=
            if 0 <? Op.Volume o
            then Block.set_Flows (Block.Flows blk ++ [NewSubsidyFlow dst (Op.Volume o) id]) blk
            else blk in
          implicitTransaction (set_block blk b) op id rest
        end
      end
  end.

(** One iteration of the loop over the implicit results of the block. *)
Definition implicitResult (b : Builder) (op : ImplicitResult.t) : Builder * result unit :=
  let n := NextN (block b) in
  let id := OpRef.mk OpTypeInvalid n OPL_BLOCK_HEADER n in
  match ImplicitResult.Kind op with
  | TzOpTypeOrigination => implicitOrigination b op id
  | TzOpTypeTransaction => implicitTransaction b op id (ImplicitResult.BalanceUpdates op)
  | TzOpTypeOther _ => (b, Ok tt)
  end.

Fixpoint implicitResults (b : Builder) (rs : list ImplicitResult.t) : Builder * result unit :=
  match rs with
  | [] => (b, Ok tt)
  | op :: rest =>
      match implicitResult b op with
      | (b', Ok _) => implicitResults b' rest
      | (b', Err e) => (b', Err e)
      | (b', Panic) => (b', Panic)
      end
  end.

Definition AppendImplicitBlockOps (b : Builder) : Builder * result unit :=
  match Block.TZ (block b) with
  | None => (b, Panic)
  | Some tz =>
      match Bundle.Block tz with
      | None => (b, Panic)
      | Some blk => implicitResults b (RpcBlock.ImplicitOperationsResults blk)
      end
  end.
End Etl.

(** ** The operation table ([StreamOpTable])

    The query conditions belong to the pack library: a leaf compares a
    named column with a value, [And] and [Or] combine conditions, and a
    query keeps the rows that satisfy every condition added to it. *)

Inductive OrderType : Type := OrderAsc | OrderDesc.

Inductive FilterMode : Type :=
| FilterModeInvalid
| FilterModeEqual
| FilterModeNotEqual
| FilterModeGt
| FilterModeGte
| FilterModeLt
| FilterModeLte.

#[local] Set Warnings "-register-all".

Inductive Condition : Type :=
| Leaf (field : string) (mode : FilterMode) (value : Z)
| And (conds : list Condition)
| Or (conds : list Condition).

Definition Lt (field : string) (value : Z) : Condition := Leaf field FilterModeLt value.
Definition Gt (field : string) (value : Z) : Condition := Leaf field FilterModeGt value.
Definition Equal (field : string) (value : Z) : Condition := Leaf field FilterModeEqual value.

Record Query : Type := mkQuery {
  Order : OrderType;
  Conditions : list Condition
}.

Definition Query_OrCondition (conds : list Condition) (q : Query) : Query :=
  mkQuery (Order q) (Conditions q ++ [Or conds]).

Definition Query_And (field : string) (mode : FilterMode) (value : Z) (q : Query) : Query :=
  mkQuery (Order q) (Conditions q ++ [Leaf field mode value]).

(** A row of the op table, reduced to the two columns of the cursor. *)
Record Row : Type := mkRow {
  height : Z;
  op_n : Z
}.

Definition Row_column (r : Row) (field : string) : option Z :=
  if String.eqb field "height" then Some (height r)
  else if String.eqb field "op_n" then Some (op_n r)
  else None.

Definition matchMode (mode : FilterMode) (x v : Z) : bool :=
  match mode with
  | FilterModeInvalid => false
  | FilterModeEqual => x =? v
  | FilterModeNotEqual => negb (x =? v)
  | FilterModeGt => v <? x
  | FilterModeGte => v <=? x
  | FilterModeLt => x <? v
  | FilterModeLte => x <=? v
  end.

Fixpoint matches (c : Condition) (r : Row) : bool :=
  match c with
  | Leaf field mode v =>
      match Row_column r field with
      | Some x => matchMode mode x v
      | None => false
      end
  | And cs => forallb (fun c' => matches c' r) cs
  | Or cs => existsb (fun c' => matches c' r) cs
  end.

Definition Query_keeps (q : Query) (r : Row) : bool :=
  forallb (fun c => matches c r) (Conditions q).

(** [strconv.ParseUint(s, 10, 64)]: a non-empty string of decimal digits
    whose value fits 64 bits. *)
Definition digitOf (c : ascii) : option Z :=
  let n := Z.of_nat (nat_of_ascii c) in
  if (48 <=? n) && (n <=? 57) then Some (n - 48) else None.

Fixpoint parseDigits (acc : Z) (s : string) : option Z :=
  match s with
  | EmptyString => Some acc
  | String c rest =>
      match digitOf c with
      | Some d => parseDigits (acc * 10 + d) rest
      | None => None
      end
  end.

Definition ParseUint (s : string) : option Z :=
  match s with
  | EmptyString => None
  | _ =>
      match parseDigits 0 s with
      | Some v => if v <? two64 then Some v else None
      | None => None
      end
  end.

(** [int64(id >> 16)] and [int64(id & 0xFFFF)] for a [uint64] id. *)
Definition cursorHeight (id : Z) : Z := wrap64 (Z.shiftr id 16).
Definition cursorOpN (id : Z) : Z := wrap64 (Z.land id 65535).

(** The condition the [cursor] case adds to the query. *)
Definition cursorCondition (order : OrderType) (id : Z) : list Condition :=
  let height := cursorHeight id in
  let opn := cursorOpN id in
  match order with
  | OrderDesc =>
      [Lt "height" height; And [Equal "height" height; Lt "op_n" opn]]
  | OrderAsc =>
      [Gt "height" height; And [Equal "height" height; Gt "op_n" opn]]
  end.

(** [case "cursor":] of the filter loop; a bad request is [Err], an
    empty value list panics on [val[0]]. *)
Definition filterCursor (q : Query) (val : list string) : result Query :=
  match val with
  | [] => Panic
  | v :: _ =>
      match ParseUint v with
      | None => Err ("invalid cursor value '" +:+ v +:+ "'")
      | Some id => Ok (Query_OrCondition (cursorCondition (Order q) id) q)
      end
  end.

(** [case "row_id", "id":] of the filter loop. *)
Definition filterId (q : Query) (prefix : string) (mode : FilterMode) (val : list string)
    : result Query :=
  match mode with
  | FilterModeEqual =>
      match val with
      | [] => Panic
      | v :: _ =>
          match ParseUint v with
          | None => Err ("invalid id value '" +:+ v +:+ "'")
          | Some id =>
              Ok (Query_And "op_n" mode (cursorOpN id)
                    (Query_And "height" mode (cursorHeight id) q))
          end
      end
  | _ => Err ("invalid filter mode for column '" +:+ prefix +:+ "'")
  end.

(** The lexicographic order on (height, op_n) pairs. *)
Definition pair_lt (a b : Z * Z) : Prop :=
  fst a < fst b \/ (fst a = fst b /\ snd a < snd b).

(** ** Vocabulary of the statements *)

(** The composite position of an Op inside its block: list id, position
    in the list, position in the block. *)
Definition Position (o : Op.t) : Z * Z * Z := (Op.OpL o, Op.OpP o, Op.OpN o).

(** The values of all aggregate counters of a block. *)
Definition counters (b : Block.t) : list Z :=
  map (fun c => counter c b) Counter.all.

(** An op on which the loop of [Update] does not panic: its raw operation
    is present where the loop reads it, and the constants are present
    where the loop reads them. *)
Definition op_ok (params : option Params.t) (op : Op.t) : bool :=
  match Op.Type_ op with
  | OpTypeEndorsement =>
      match Op.Raw op with RawNil => false | _ => true end
  | OpTypeSeedSlash =>
      match params with None => false | Some _ => true end
  | OpTypeTransaction =>
      if Op.IsSuccess op && negb (Op.IsEvent op) then
        match Op.Raw op with RawTransaction _ _ => true | _ => false end
      else true
  | _ => true
  end.

(** The endorsement power carried by the endorsement ops of a list. *)
Definition endorsedPower (ops : list Op.t) : Z :=
  foldl (fun acc op =>
           match Op.Type_ op with
           | OpTypeEndorsement =>
               match RawOp_Power (Op.Raw op) with
               | Some pw => add64 acc pw
               | None => acc
               end
           | _ => acc
           end) 0 ops.

(** The parent pointer of a block, when set, points into the heap. *)
Definition parent_ok (s : State) (b : Block.t) : Prop :=
  match Block.Parent b with
  | Some q => is_Some (heap s !! q)
  | None => True
  end.

(** Every pooled pointer is allocated and went through [Reset] as far as
    the solve time is concerned. *)
Definition pool_ok (s : State) : Prop :=
  forall p, In p (blockPool s) ->
    exists b, heap s !! p = Some b /\ Block.Solvetime b = 0.

(** The rights fetches among a list of calls. *)
Definition rightsCalls (calls : list RpcCall) : list (Z * Z) :=
  omap (fun c => match c with
                 | CallFetchRightsByCycle h cy => Some (h, cy)
                 | _ => None
                 end) calls.

(** The gas used by a list of ops, summed the way [Update] sums it. *)
Definition sumGasUsed (ops : list Op.t) : Z :=
  foldl (fun acc op => add64 acc (Op.GasUsed op)) 0 ops.

(** The failed ops of a list, counted the way [Update] counts them. *)
Definition countFailed (ops : list Op.t) : Z :=
  foldl (fun acc op => if Op.IsSuccess op then acc else add64 acc 1) 0 ops.

(** The unfrozen amount of one category in a list of flows. *)
Definition sumAmountOut (cat : FlowCategory -> bool) (acc : Z) (flows : list Flow.t) : Z :=
  foldl (fun a f => if cat (Flow.Category f) then add64 a (Flow.AmountOut f) else a) acc flows.

Definition isDeposits (c : FlowCategory) : bool :=
  match c with FlowCategoryDeposits => true | _ => false end.
Definition isRewards (c : FlowCategory) : bool :=
  match c with FlowCategoryRewards => true | _ => false end.
Definition isFees (c : FlowCategory) : bool :=
  match c with FlowCategoryFees => true | _ => false end.


(** ** Concrete inputs used by the examples *)

Definition exParentBlock : Block.t :=
  Block.set_Timestamp (1000 * Second) Block.zero.

Definition exRpcBlock : RpcBlock.t :=
  {| RpcBlock.Hash := Some "BLockGenesisGenesisGenesisGenesisGenesisf79b5d1CoW2";
     RpcBlock.Level := 100;
     RpcBlock.Cycle := 0;
     RpcBlock.Timestamp := 1060 * Second;
     RpcBlock.Version := 12;
     RpcBlock.Priority := 0;
     RpcBlock.PayloadRound := 0;
     RpcBlock.LbVote := 0;
     RpcBlock.ProofOfWorkNonce := [0; 0; 0; 0; 0; 0; 1; 2];
     RpcBlock.Proto := 12;
     RpcBlock.ChainId := "NetXdQprcVkpaWU";
     RpcBlock.Protocol := "Psithaca2MLRFYargivpo7YvUr7wUDqyxrdhC5CQq78mRvimz6A";
     RpcBlock.LiquidityBakingEscapeEma := 0;
     RpcBlock.VotingPeriodKind_ := VotingPeriodProposal;
     RpcBlock.ImplicitOperationsResults := [] |}.

Definition exBundle : Bundle.t := Bundle.mk (Some exRpcBlock) None [] [].

(** A heap holding one parent block, an empty pool, no calls yet. *)
Definition exState : State := mkState {[ 1%positive := exParentBlock ]} [] [].

(** A heap whose only block sits in the pool. *)
Definition exPooledState : State := mkState {[ 1%positive := Block.zero ]} [1%positive] [].

(** [FetchRPC] gets as far as the guard of the rights fetch: the hash is
    valid, the raw block is at hand or the node delivers it, and the
    constants are at hand, or not needed from the node, or delivered. *)
Definition reachesGuard (c : Client) (b : Block.t) : Prop :=
  exists hash,
    Block.Hash b = Some hash /\
    (is_Some (Block.TZ b ≫= Bundle.Block) \/ exists blk, GetBlock c hash = Ok blk) /\
    (is_Some (Block.Params_ b) \/ Block.Height b <= 0 \/
     exists params, GetConstants c (Block.Height b) = Ok params).

(** Cycle arithmetic of a chain with cycles of [BlocksPerCycle] blocks
    that start at height 1. *)
Definition exCycleStartHeight (params : Params.t) (cycle : Z) : Z :=
  cycle * Params.BlocksPerCycle params + 1.

Definition exIsCycleStart (params : Params.t) (height : Z) : bool :=
  (0 <? height) && ((height - 1) mod Params.BlocksPerCycle params =? 0).

Definition exParams : Params.t := Params.mk 12 5 12 4096.

Definition exForNetwork (params : Params.t) (chain : string) : Params.t := params.
Definition exForProtocol (params : Params.t) (proto : string) : Params.t := params.

Definition exClient : Client :=
  {| GetBlock := fun _ => Ok exRpcBlock;
     GetConstants := fun _ => Ok exParams;
     FetchRightsByCycle := fun height cycle tz =>
       Ok (Bundle.mk (Bundle.Block tz) (Bundle.Params_ tz)
                     (Bundle.Baking tz ++ [(height, cycle)])
                     (Bundle.Endorsing tz ++ [(height, cycle)])) |}.

(** The first block of cycle 2, with its raw block and constants at hand. *)
Definition exFetchBlock : Block.t :=
  Block.set_Params (Some exParams)
    (Block.set_TZ (Some exBundle)
       (Block.set_Cycle 2
          (Block.set_Height 8193
             (Block.set_Hash (RpcBlock.Hash exRpcBlock) Block.zero)))).

Definition exFetchState : State := mkState {[ 1%positive := exFetchBlock ]} [] [].

(** The fields of a block that the loops of [Update] read or that the
    statements about it mention, and never write. *)
Definition untouched (b : Block.t) :=
  (Block.Params_ b, Block.Height b, Block.Ops b, Block.Parent b, Block.NSlotsEndorsed b).

(** The running total of endorsement power, from a start value. *)
Definition endorsedFrom (e : Z) (ops : list Op.t) : Z :=
  foldl (fun acc op =>
           match Op.Type_ op with
           | OpTypeEndorsement =>
               match RawOp_Power (Op.Raw op) with
               | Some pw => add64 acc pw
               | None => acc
               end
           | _ => acc
           end) e ops.

(** Two blocks agree on every aggregate counter. *)
Definition same_counters (b1 b2 : Block.t) : Prop :=
  forall c, counter c b1 = counter c b2.

(** A child block with three ops, two of them endorsements, and its
    parent. *)
Definition exEndorsement (n power : Z) : Op.t :=
  {| Op.RowId := 0; Op.Type_ := OpTypeEndorsement; Op.Height := 101; Op.Cycle := 0;
     Op.Timestamp := 0; Op.OpN := n; Op.OpL := 0; Op.OpP := n; Op.OpC := 0; Op.OpI := 0;
     Op.IsSuccess := true; Op.IsEvent := false; Op.IsInternal := false;
     Op.IsContract := false; Op.IsStorageUpdate := false; Op.SenderId := 7;
     Op.ReceiverId := 0; Op.Volume := 0; Op.Fee := 0; Op.Reward := 1250000;
     Op.Deposit := 0; Op.Burned := 0; Op.GasLimit := 0; Op.GasUsed := 0;
     Op.StoragePaid := 0; Op.Entrypoint := 0; Op.Parameters := []; Op.Storage := [];
     Op.StorageHash := 0; Op.BigmapEvents := []; Op.Contract := None;
     Op.Raw := RawOther power |}.

Definition exFailedTransaction : Op.t :=
  {| Op.RowId := 0; Op.Type_ := OpTypeTransaction; Op.Height := 101; Op.Cycle := 0;
     Op.Timestamp := 0; Op.OpN := 2; Op.OpL := 3; Op.OpP := 0; Op.OpC := 0; Op.OpI := 0;
     Op.IsSuccess := false; Op.IsEvent := false; Op.IsInternal := false;
     Op.IsContract := false; Op.IsStorageUpdate := false; Op.SenderId := 8;
     Op.ReceiverId := 9; Op.Volume := 500; Op.Fee := 1000; Op.Reward := 0;
     Op.Deposit := 0; Op.Burned := 0; Op.GasLimit := 10600; Op.GasUsed := 10207;
     Op.StoragePaid := 0; Op.Entrypoint := 0; Op.Parameters := []; Op.Storage := [];
     Op.StorageHash := 0; Op.BigmapEvents := []; Op.Contract := None;
     Op.Raw := RawTransaction (Addr "tz1burnburnburnburnburnburnburjAYjjX") 0 |}.

Definition exChildBlock : Block.t :=
  Block.set_Ops [exEndorsement 0 3; exEndorsement 1 5; exFailedTransaction]
    (Block.set_Parent (Some 1%positive)
       (Block.set_NOpsFailed 41
          (Block.set_GasUsed 99 (Block.set_Height 101 Block.zero)))).

Definition exUpdateState : State :=
  mkState (<[ 2%positive := exChildBlock ]> {[ 1%positive := exParentBlock ]}) [] [].

Definition exAccounts : gmap AccountID Account.t :=
  {[ 8 := Account.mk 8 (Addr "tz1VSUr8wwNhLAzempoch5d6hLRiTh8Cjcjb") true true false false
                     true false 101 ]}.

(** What identifies a synthetic Op: its type tag, the accounts it names
    and its position. *)
Definition identity (o : Op.t) :=
  (Op.Type_ o, Op.SenderId o, Op.ReceiverId o, Op.OpN o, Op.OpL o, Op.OpP o).

(** The sparse array holds, at index [i], only an Op of position [i] in
    the list of block events, made for a flow of [seen] at that
    position. *)
Definition slots_ok (EVENTS : Z) (seen : list Flow.t) (ops : list (option Op.t)) : Prop :=
  forall i o, ops !! i = Some (Some o) ->
    Op.OpN o = Z.of_nat i /\ Op.OpL o = EVENTS /\ Op.OpP o = Z.of_nat i /\
    exists f, In f seen /\ Flow.OpN f = Z.of_nat i.

(** A builder whose block has its constants, and baking flows at
    position 3. *)
Definition exBuilder : Builder :=
  mkBuilder (Block.set_Params (Some exParams) (Block.set_Height 100 Block.zero)) ∅ ∅.

Definition bakingFlow (acc : AccountID) (n : Z) (cat : FlowCategory) (amount : Z) : Flow.t :=
  {| Flow.AccountId := acc;
     Flow.OpN := n;
     Flow.Operation := FlowTypeBaking;
     Flow.Category := cat;
     Flow.AmountIn := amount;
     Flow.AmountOut := 0;
     Flow.IsFee := false;
     Flow.IsBurned := false;
     Flow.IsFrozen := true;
     Flow.IsUnfrozen := false |}.

(** ** Further methods of [Block] *)

(** [ID], [SetID] and [Time]. *)
Definition Block_ID (b : Block.t) : Z := Block.RowId b.

Definition Block_set_RowId : Z -> Block.t -> Block.t := ltac:(setter Block.eta Block.RowId).
Definition Block_set_Baker : option Baker.t -> Block.t -> Block.t :=
  ltac:(setter Block.eta Block.Baker_).
Definition Block_set_Proposer : option Baker.t -> Block.t -> Block.t :=
  ltac:(setter Block.eta Block.Proposer).
Definition Block_set_AbsentBaker : AccountID -> Block.t -> Block.t :=
  ltac:(setter Block.eta Block.AbsentBaker).
Definition Block_set_AbsentEndorsers : list AccountID -> Block.t -> Block.t :=
  ltac:(setter Block.eta Block.AbsentEndorsers).

Definition SetID (p : positive) (id : Z) : M unit := modify p (Block_set_RowId id).

(** The copy [Clone] makes of the receiver, references dropped. *)
Definition Clone_value (b : Block.t) : Block.t :=
  let clone := b in
  let clone := Block.set_TZ None clone in
  let clone := Block.set_Params None clone in
  let clone := Block.set_Chain None clone in
  let clone := Block.set_Supply None clone in
  let clone := Block.set_Ops [] clone in
  let clone := Block.set_Flows [] clone in
  let clone := Block_set_Baker None clone in
  let clone := Block_set_Proposer None clone in
  let clone := Block.set_Parent None clone in
  let clone := Block.set_HasProposals false clone in
  let clone := Block.set_HasBallots false clone in
  let clone := Block.set_HasSeeds false clone in
  let clone := Block_set_AbsentBaker 0 clone in
  let clone := Block_set_AbsentEndorsers [] clone in
  clone.

(** [&clone]: the copy lives at a new address. *)
Definition newBlockAt (b : Block.t) : M positive := fun s =>
  let q := fresh (dom (heap s)) in
  (set_heap (<[q := b]> (heap s)) s, Ok q).

Definition Clone (p : positive) : M positive :=
  b ← load p; newBlockAt (Clone_value b).

(** [IsProtocolUpgrade] reads the block and its parent and writes
    nothing. *)
Definition IsProtocolUpgrade (p : positive) : M bool :=
  b ← load p;
  match Block.Parent b with
  | None => mret false
  | Some q =>
      pb ← load q;
      match Block.TZ pb, Block.TZ b with
      | Some ptz, Some tz =>
          match Bundle.Block ptz, Bundle.Block tz with
          | Some pblk, Some blk =>
              mret (negb (String.eqb (RpcBlock.Protocol pblk) (RpcBlock.Protocol blk)))
          | _, _ => panic
          end
      | _, _ => mret false
      end
  end.

(** The loop of [GetOpId]. *)
Fixpoint GetOpId_loop (ops : list Op.t) (opn opc opi : Z) : Z * bool :=
  match ops with
  | [] => (0, false)
  | o :: rest =>
      (* ops are ordered *)
      if (Op.OpN o <? opn) || (Op.OpC o <? opc) || (Op.OpI o <? opi)
      then GetOpId_loop rest opn opc opi
      else (Op.RowId o, true)
  end.

Definition GetOpId (b : Block.t) (opn opc opi : Z) : Z * bool :=
  if opn <? 0 then (0, false)
  else GetOpId_loop (Block.Ops b) opn opc opi.

(** [Rollback] does nothing. *)
Definition Rollback (p : positive)
    (accounts : gmap AccountID Account.t) (bakers : gmap AccountID Baker.t) : M unit :=
  mret tt.

(** ** [OpSorter] *)

Definition OpSorter_Len (o : list Op.t) : Z := Z.of_nat (length o).

(** [o[i]]; an index outside the slice panics. *)
Definition index {A : Type} (l : list A) (i : Z) : result A :=
  if i <? 0 then Panic
  else match l !! Z.to_nat i with
       | Some x => Ok x
       | None => Panic
       end.

Definition opLess (a b : Op.t) : bool :=
  (Op.Height a <? Op.Height b)
  || ((Op.Height a =? Op.Height b) && (Op.OpN a <? Op.OpN b)).

Definition OpSorter_Less (o : list Op.t) (i j : Z) : result bool :=
  match index o i, index o j with
  | Ok a, Ok b => Ok (opLess a b)
  | _, _ => Panic
  end.

Definition OpSorter_Swap (o : list Op.t) (i j : Z) : result (list Op.t) :=
  match index o i, index o j with
  | Ok a, Ok b => Ok (<[Z.to_nat j := a]> (<[Z.to_nat i := b]> o))
  | _, _ => Panic
  end.

(** ** The JSON stream of [StreamOpTable]

    What is written to the response: the brackets, the commas and the
    rows the encoder renders.  The encoder and [Op.Id] belong to other
    files; they are parameters. *)

Inductive Token : Type :=
| TokOpen
| TokComma
| TokRow (text : string)
| TokClose.

Record Stream : Type := mkStream {
  written : list Token;
  needComma : bool;
  count : Z;
  lastId : Z;
  streamErr : option string
}.

Section StreamJSON.
Variable Encode : Op.t -> result string.
Variable Op_Id : Op.t -> Z.

(** The loop [for _, v := range ops] of the JSON case; [limit] is
    [args.Limit].  An encoder panic is not modelled apart from stopping
    the loop. *)
Fixpoint streamRows (limit : Z) (st : Stream) (ops : list Op.t) : Stream :=
  match ops with
  | [] => st
  | v :: rest =>
      let st :=
        if needComma st
        then mkStream (written st ++ [TokComma]) true (count st) (lastId st) (streamErr st)
        else mkStream (written st) true (count st) (lastId st) (streamErr st) in
      match Encode v with
      | Ok text =>
          let st := mkStream (written st ++ [TokRow text]) (needComma st)
                             (add64 (count st) 1) (Op_Id v) None in
          if (0 <? limit) && (count st =? limit)
          then mkStream (written st) (needComma st) (count st) (lastId st) (Some "EOF")
          else streamRows limit st rest
      | Err e => mkStream (written st) (needComma st) (count st) (lastId st) (Some e)
      | Panic => mkStream (written st) (needComma st) (count st) (lastId st) (Some "panic")
      end
  end.

(** The JSON case as a whole: open the array, stream, close it. *)
Definition streamJSON (limit : Z) (ops : list Op.t) : Stream :=
  let st := streamRows limit (mkStream [TokOpen] false 0 0 None) ops in
  mkStream (written st ++ [TokClose]) (needComma st) (count st) (lastId st) (streamErr st).

(** The cursor of the trailer: the input cursor unless a row with a
    positive id was written. *)
Definition trailerCursor (cursor : string) (st : Stream) : string :=
  if 0 <? lastId st then pretty (lastId st) else cursor.
End StreamJSON.

(** A well-formed JSON array of rows: rows separated by single commas
    between the brackets. *)
Fixpoint rowsSeparated (toks : list Token) : bool :=
  match toks with
  | [TokRow _] => true
  | TokRow _ :: TokComma :: rest => rowsSeparated rest
  | _ => false
  end.

Definition wellFormedArray (toks : list Token) : bool :=
  match toks with
  | TokOpen :: rest =>
      match reverse rest with
      | TokClose :: body => match body with [] => true | _ => rowsSeparated (reverse body) end
      | _ => false
      end
  | _ => false
  end.

(** ** Vocabulary of the further statements *)

(** The position triple [GetOpId] compares. *)
Definition opKey (o : Op.t) : Z * Z * Z := (Op.OpN o, Op.OpC o, Op.OpI o).

Definition key_lt (a b : Z * Z * Z) : Prop :=
  a.1.1 < b.1.1 \/ (a.1.1 = b.1.1 /\ (a.1.2 < b.1.2 \/ (a.1.2 = b.1.2 /\ a.2 < b.2))).

(** The test of the loop of [GetOpId]: all three coordinates reach the
    ones asked for. *)
Definition reaches (o : Op.t) (opn opc opi : Z) : Prop :=
  opn <= Op.OpN o /\ opc <= Op.OpC o /\ opi <= Op.OpI o.

(** The ops of a block in ascending order of their position in the
    block (equal positions allowed). *)
Definition ordered (ops : list Op.t) : Prop :=
  Sorted Z.le (map Op.OpN ops).

(** Example flows: an unfreeze and an invoice. *)
Definition unfreezeFlow (acc : AccountID) (n : Z) (cat : FlowCategory) (amount : Z) : Flow.t :=
  {| Flow.AccountId := acc;
     Flow.OpN := n;
     Flow.Operation := FlowTypeInternal;
     Flow.Category := cat;
     Flow.AmountIn := 0;
     Flow.AmountOut := amount;
     Flow.IsFee := false;
     Flow.IsBurned := false;
     Flow.IsFrozen := false;
     Flow.IsUnfrozen := true |}.

Definition invoiceFlow (acc : AccountID) (n : Z) (amount : Z) : Flow.t :=
  {| Flow.AccountId := acc;
     Flow.OpN := n;
     Flow.Operation := FlowTypeInvoice;
     Flow.Category := FlowCategoryBalance;
     Flow.AmountIn := amount;
     Flow.AmountOut := 0;
     Flow.IsFee := false;
     Flow.IsBurned := false;
     Flow.IsFrozen := false;
     Flow.IsUnfrozen := false |}.

(** Every pooled pointer is allocated and points to a block with every
    field at its zero value. *)
Definition pool_zero (s : State) : Prop :=
  forall p, In p (blockPool s) -> heap s !! p = Some Block.zero.

(** Example Ops at given coordinates. *)
Definition Op_set_RowId : Z -> Op.t -> Op.t := ltac:(setter Op.eta Op.RowId).
Definition Op_set_OpC : Z -> Op.t -> Op.t := ltac:(setter Op.eta Op.OpC).
Definition Op_set_Height : Z -> Op.t -> Op.t := ltac:(setter Op.eta Op.Height).

Definition opAt (id height n c : Z) : Op.t :=
  Op_set_RowId id (Op_set_Height height (Op_set_OpC c (exEndorsement n 1))).

(** ** Vocabulary of the statements about [Update] *)

(** The three classes the loop of [Update] sorts every Op into. *)
Definition isApplied (op : Op.t) : bool := Op.IsSuccess op && negb (Op.IsEvent op).
Definition isEvent (op : Op.t) : bool := Op.IsSuccess op && Op.IsEvent op.
Definition isFailed (op : Op.t) : bool := negb (Op.IsSuccess op).

Definition countOps (P : Op.t -> bool) (ops : list Op.t) : Z :=
  Z.of_nat (length (List.filter P ops)).

(** The counters the loop over the Ops writes; the others belong to the
    loops over accounts and bakers. *)
Definition opCounter (c : Counter.t) : bool :=
  match c with
  | Counter.SeenAccounts | Counter.NewAccounts | Counter.NewContracts
  | Counter.ClearedAccounts | Counter.FundedAccounts => false
  | _ => true
  end.

(** The flags of a block, and the Op types that raise them. *)
Definition flags (b : Block.t) : bool * bool * bool :=
  (Block.HasSeeds b, Block.HasProposals b, Block.HasBallots b).

Definition isNonceRevelation (op : Op.t) : bool :=
  match Op.Type_ op with OpTypeNonceRevelation => true | _ => false end.
Definition isProposal (op : Op.t) : bool :=
  match Op.Type_ op with OpTypeProposal => true | _ => false end.
Definition isBallot (op : Op.t) : bool :=
  match Op.Type_ op with OpTypeBallot => true | _ => false end.

(** An endorsement whose raw operation is missing. *)
Definition Op_set_Raw : RawOp -> Op.t -> Op.t := ltac:(setter Op.eta Op.Raw).

Definition exOrphanBlock : Block.t :=
  Block.set_Ops [exEndorsement 0 3; Op_set_Raw RawNil (exEndorsement 1 5)]
    (Block.set_Height 101 Block.zero).

(** Whether one visit of each loop over the accounts raises a counter by
    one, read off the branches of the loops; [h] is the height of the
    block. *)
Definition seenBump (h : Z) (acc : Account.t) (c : Counter.t) : bool :=
  match c with
  | Counter.SeenAccounts => Account.LastSeen acc =? h
  | Counter.ClearedAccounts =>
      (Account.LastSeen acc =? h) && negb (Account.IsFunded acc) && Account.WasFunded acc
  | Counter.FundedAccounts =>
      (Account.LastSeen acc =? h) && Account.IsFunded acc && negb (Account.WasFunded acc)
  | _ => false
  end.

Definition accountBump (h : Z) (acc : Account.t) (c : Counter.t) : bool :=
  if Account.IsNew acc && Account.IsDirty acc then
    if Account.IsBaker acc then false
    else
      match c with
      | Counter.NewContracts => Account.IsContract acc
      | Counter.NewAccounts => negb (Account.IsContract acc)
      | _ => seenBump h acc c
      end
  else seenBump h acc c.

Definition bakerBump (h : Z) (bkr : Baker.t) (c : Counter.t) : bool :=
  match c with
  | Counter.NewAccounts => Account.IsNew (Baker.Acc bkr)
  | _ => seenBump h (Baker.Acc bkr) c
  end.

(** The number of entries of a list with a property. *)
Definition tally {A : Type} (P : A -> bool) (l : list A) : Z :=
  Z.of_nat (length (List.filter P l)).

(** The kinds of calls in the log of the node client. *)
Definition isGetBlock (c : RpcCall) : bool :=
  match c with CallGetBlock _ => true | _ => false end.
Definition isGetConstants (c : RpcCall) : bool :=
  match c with CallGetConstants _ => true | _ => false end.

(** A builder that knows one contract, and the result of an implicit
    subsidy transaction that pays it twice. *)
Definition exContractAccount : Account.t :=
  Account.mk 9 (Addr "KT1TxqZ8QtKvLu3V3JH7Gx58n7Co8pgtpQU5") false false false true
             true true 100.

Definition exSubsidyBuilder : Builder :=
  mkBuilder (block exBuilder)
            {[ "KT1TxqZ8QtKvLu3V3JH7Gx58n7Co8pgtpQU5" := exContractAccount ]} ∅.

Definition exSubsidy (vs : list BalanceUpdate.t) : ImplicitResult.t :=
  {| ImplicitResult.Kind := TzOpTypeTransaction;
     ImplicitResult.OriginatedContracts := [];
     ImplicitResult.Script_ := None;
     ImplicitResult.BalanceUpdates := vs;
     ImplicitResult.Gas := 2000;
     ImplicitResult.PaidStorageSizeDiff := 0;
     ImplicitResult.StorageIsValid := true;
     ImplicitResult.StorageBinary := [];
     ImplicitResult.StorageHash64 := 0 |}.

Definition exPayment (addr : string) (amount : Z) : BalanceUpdate.t :=
  BalanceUpdate.mk "contract" (Addr addr) amount.

Definition exLoadContract (b : Builder) (id : AccountID) : result Contract.t :=
  Ok (Contract.mk id).

Definition exContractUpdate (c : Contract.t) (o : Op.t) : bool := true.

Definition exGetContractScript (a : Address) : result Script.t := Ok (Script.mk [] []).

(** The balance updates of an implicit origination that move funds:
    those that are neither minted nor burned. *)
Definition movesFunds (v : BalanceUpdate.t) : bool :=
  negb (String.eqb (BalanceUpdate.Kind v) "minted"
        || String.eqb (BalanceUpdate.Kind v) "burned").

Definition sumAmounts (start : Z) (vs : list BalanceUpdate.t) : Z :=
  foldl (fun acc v => add64 acc (BalanceUpdate.Amount v)) start vs.

Definition validAddress (v : BalanceUpdate.t) : bool :=
  Address_IsValid (BalanceUpdate.Address_ v).

(** The result of an implicit origination of the known contract. *)
Definition exOrigination (vs : list BalanceUpdate.t) : ImplicitResult.t :=
  {| ImplicitResult.Kind := TzOpTypeOrigination;
     ImplicitResult.OriginatedContracts := [Addr "KT1TxqZ8QtKvLu3V3JH7Gx58n7Co8pgtpQU5"];
     ImplicitResult.Script_ := Some (Script.mk [] []);
     ImplicitResult.BalanceUpdates := vs;
     ImplicitResult.Gas := 2000;
     ImplicitResult.PaidStorageSizeDiff := 0;
     ImplicitResult.StorageIsValid := false;
     ImplicitResult.StorageBinary := [];
     ImplicitResult.StorageHash64 := 0 |}.
(** * Properties *)

(** ** The state monad *)

Lemma bind_ret {A B : Type} (a : A) (k : A -> M B) (s : State) :
  (mret a ≫= k) s = k a s.
Proof. reflexivity. Qed.

Lemma bind_bind {A B C : Type} (m : M A) (k : A -> M B) (k' : B -> M C) (s : State) :
  ((m ≫= k) ≫= k') s = (m ≫= (fun a => k a ≫= k')) s.
Proof.
  unfold mbind, M_bind. destruct (m s) as [s1 [a | e |]]; try reflexivity.
Qed.

Lemma bind_load (p : positive) (b : Block.t) {B : Type} (k : Block.t -> M B) (s : State) :
  heap s !! p = Some b -> (load p ≫= k) s = k b s.
Proof. intros H. unfold mbind, M_bind, load. rewrite H. reflexivity. Qed.

Lemma bind_modify (p : positive) (b : Block.t) (f : Block.t -> Block.t)
    {B : Type} (k : unit -> M B) (s : State) :
  heap s !! p = Some b ->
  (modify p f ≫= k) s = k tt (set_heap (<[p := f b]> (heap s)) s).
Proof.
  intros H. unfold modify. rewrite bind_bind, (bind_load p b) by exact H.
  reflexivity.
Qed.

Lemma bind_store (p : positive) (b : Block.t) {B : Type} (k : unit -> M B) (s : State) :
  (store p b ≫= k) s = k tt (set_heap (<[p := b]> (heap s)) s).
Proof. reflexivity. Qed.

Lemma bind_logCall (c : RpcCall) {B : Type} (k : unit -> M B) (s : State) :
  (logCall c ≫= k) s = k tt (set_rpcCalls (rpcCalls s ++ [c]) s).
Proof. reflexivity. Qed.

Lemma modify_run (p : positive) (b : Block.t) (f : Block.t -> Block.t) (s : State) :
  heap s !! p = Some b ->
  modify p f s = (set_heap (<[p := f b]> (heap s)) s, Ok tt).
Proof.
  intros H. unfold modify, mbind, M_bind, load. rewrite H. reflexivity.
Qed.

(** States in the form the lemmas above produce. *)
Lemma heap_set_heap h s : heap (set_heap h s) = h.
Proof. reflexivity. Qed.

Lemma set_heap_set_heap h h' s : set_heap h (set_heap h' s) = set_heap h s.
Proof. reflexivity. Qed.

Lemma blockPool_set_heap h s : blockPool (set_heap h s) = blockPool s.
Proof. reflexivity. Qed.

Lemma rpcCalls_set_heap h s : rpcCalls (set_heap h s) = rpcCalls s.
Proof. reflexivity. Qed.
Lemma AllocBlock_spec (s : State) :
  pool_ok s ->
  exists p b0 s1,
    AllocBlock s = (s1, Ok p) /\ heap s1 !! p = Some b0 /\ Block.Solvetime b0 = 0 /\
    (forall q, is_Some (heap s !! q) -> q <> p -> heap s1 !! q = heap s !! q) /\
    (forall q, heap s1 !! q = None -> heap s !! q = None) /\
    blockPool s1 = tail (blockPool s) /\ rpcCalls s1 = rpcCalls s.
Proof.
  intros Hpool. unfold AllocBlock. destruct (blockPool s) as [|p rest] eqn:E.
  - exists (fresh (dom (heap s))), Block.zero,
      (set_heap (<[fresh (dom (heap s)) := Block.zero]> (heap s)) s).
    split; [reflexivity|]. split; [apply lookup_insert_eq|].
    split; [reflexivity|]. split; [|split; [|split]].
    + intros q Hq Hne. cbn. rewrite lookup_insert_ne; [reflexivity | congruence].
    + intros q. cbn. intros Hq.
      destruct (decide (fresh (dom (heap s)) = q)) as [Heq|Hne].
      * rewrite <- Heq, lookup_insert_eq in Hq. discriminate.
      * rewrite lookup_insert_ne in Hq by exact Hne. exact Hq.
    + cbn. rewrite E. reflexivity.
    + reflexivity.
  - destruct (Hpool p) as (b0 & Hb0 & Hs). { rewrite E. left. reflexivity. }
    exists p, b0, (set_blockPool rest s).
    split; [reflexivity|]. split; [exact Hb0|]. split; [exact Hs|].
    split; [|split; [|split]]; try reflexivity.
    intros q Hq. exact Hq.
Qed.

Lemma state_norm (s : State) (p : positive) (b : Block.t) :
  heap s !! p = Some b -> s = set_heap (<[p := b]> (heap s)) s.
Proof.
  intros H. destruct s as [h pool log]. unfold set_heap. cbn in *.
  rewrite insert_id by exact H. reflexivity.
Qed.

Lemma bind_if_modify (c : bool) (p : positive) (b : Block.t) (f : Block.t -> Block.t)
    {B : Type} (k : unit -> M B) (s : State) :
  heap s !! p = Some b ->
  ((if c then modify p f else mret tt) ≫= k) s
  = k tt (set_heap (<[p := if c then f b else b]> (heap s)) s).
Proof.
  intros H. destruct c.
  - apply bind_modify. exact H.
  - rewrite bind_ret. rewrite <- (state_norm s p b H). reflexivity.
Qed.

Ltac norm_state :=
  rewrite ?heap_set_heap, ?set_heap_set_heap, ?insert_insert_eq.

Ltac split_ifs :=
  repeat match goal with
         | |- context [if ?c then _ else _] => destruct c
         end.

(** One step of a computation on a state whose heap is [<[p := b]> h]. *)
Ltac mstep p :=
  first
    [ rewrite bind_ret
    | rewrite bind_bind
    | rewrite (bind_modify p _ _ _ _ (lookup_insert_eq _ _ _)); norm_state
    | rewrite (bind_if_modify _ p _ _ _ _ (lookup_insert_eq _ _ _)); norm_state
    | rewrite (bind_load p _ _ _ (lookup_insert_eq _ _ _))
    | erewrite bind_load
        by (cbn [heap set_heap]; rewrite lookup_insert_ne by congruence; eassumption)
    | match goal with
      | |- context [match ?x with Some _ => _ | None => _ end ≫= _] => destruct x
      | |- context [(if ?c then _ else _) ≫= _] => destruct c
      end ].

Lemma Time_Sub_self (t : Time) : Time_Sub t t = 0.
Proof. unfold Time_Sub, minDuration, maxDuration, two63. rewrite Z.sub_diag. reflexivity. Qed.

Lemma Solvetime_facts (t u : Time) :
  0 <= Z.max 0 (Z.quot (Time_Sub t u) Second) /\
  (t < u -> Z.max 0 (Z.quot (Time_Sub t u) Second) = 0) /\
  (0 <= t - u <= maxDuration -> Z.max 0 (Z.quot (Time_Sub t u) Second) = (t - u) / Second).
Proof.
  split; [lia|]. split.
  - intros Hlt. assert (Hneg : Time_Sub t u < 0).
    { unfold Time_Sub, minDuration, maxDuration, two63.
      destruct (t - u <? - 2 ^ 63) eqn:E1; [lia|].
      destruct (2 ^ 63 - 1 <? t - u) eqn:E2; lia. }
    assert (Z.quot (Time_Sub t u) Second <= 0); [|lia].
    apply Z.quot_le_upper_bound; unfold Second; lia.
  - intros Hr. unfold Time_Sub, minDuration, maxDuration, two63 in *.
    destruct (t - u <? - 2 ^ 63) eqn:E1; [lia|].
    destruct (2 ^ 63 - 1 <? t - u) eqn:E2; [lia|].
    rewrite Z.quot_div_nonneg by (unfold Second; lia).
    apply Z.max_r. apply Z.div_pos; unfold Second; lia.
Qed.

(** ** [NewBlock]: the solve time *)

(** Claim C7.  A block built by [NewBlock] from a bundle that carries a raw
    block has the timestamp of the raw block.  With a parent, its
    [Solvetime] is the difference [Timestamp.Sub(parent.Timestamp)] in whole
    seconds, floored at 0: it is never negative, it is 0 when the block is
    older than its parent, and it is the exact difference of the two
    instants divided by a second when that difference is a [Duration].
    Without a parent [Solvetime] stays 0, the value every pooled or new
    block carries.  [NewBlock] returns the block on these inputs. *)
Theorem NewBlock_Solvetime (s : State) (bundle : Bundle.t) (blk : RpcBlock.t)
    (parent : option positive) :
  pool_ok s ->
  Bundle.Block bundle = Some blk ->
  (forall q, parent = Some q -> is_Some (heap s !! q)) ->
  exists s' p b,
    NewBlock (Some bundle) parent s = (s', Ok p) /\
    heap s' !! p = Some b /\
    Block.Timestamp b = RpcBlock.Timestamp blk /\
    match parent with
    | None => Block.Solvetime b = 0
    | Some q =>
        exists pb,
          heap s' !! q = Some pb /\
          (q <> p -> heap s !! q = Some pb) /\
          Block.Solvetime b
          = Z.max 0 (Z.quot (Time_Sub (Block.Timestamp b) (Block.Timestamp pb)) Second) /\
          0 <= Block.Solvetime b /\
          (Block.Timestamp b < Block.Timestamp pb -> Block.Solvetime b = 0) /\
          (0 <= Block.Timestamp b - Block.Timestamp pb <= maxDuration ->
           Block.Solvetime b = (Block.Timestamp b - Block.Timestamp pb) / Second)
    end.
Proof.
  intros Hpool Hblk Hparent.
  destruct (AllocBlock_spec s Hpool) as (p & b0 & s1 & Halloc & Hp & Hsolve & Hother & _).
  unfold NewBlock. unfold mbind at 1. unfold M_bind at 1. rewrite Halloc.
  rewrite Hblk. rewrite (state_norm s1 p b0 Hp).
  destruct parent as [q|].
  - destruct (Hparent q eq_refl) as [pb Hpb].
    destruct (decide (q = p)) as [->|Hne].
    + (* the parent is the block the pool just handed out *)
      repeat mstep p.
      all: unfold mret, M_ret; eexists _, p, _.
      all: (split; [reflexivity|]); cbn [heap set_heap].
      all: (split; [apply lookup_insert_eq|]).
      all: (split; [split_ifs; reflexivity|]).
      all: eexists; (split; [apply lookup_insert_eq|]).
      all: (split; [congruence|]).
      all: match goal with
           | |- Block.Solvetime ?b = Z.max 0 (Z.quot (Time_Sub ?t ?u) Second) /\ _ =>
               assert (Hs : Block.Solvetime b = Z.max 0 (Z.quot (Time_Sub t u) Second))
                 by (split_ifs; cbn; rewrite !Time_Sub_self; reflexivity)
           end.
      all: rewrite Hs; split; [reflexivity|]; apply Solvetime_facts.
    + assert (Hq1 : heap s1 !! q = Some pb).
      { rewrite Hother; [exact Hpb | eauto | exact Hne]. }
      repeat mstep p.
      all: unfold mret, M_ret; eexists _, p, _.
      all: (split; [reflexivity|]); cbn [heap set_heap].
      all: (split; [apply lookup_insert_eq|]).
      all: (split; [split_ifs; reflexivity|]).
      all: exists pb; (split; [rewrite lookup_insert_ne by congruence; exact Hq1|]).
      all: (split; [intros _; exact Hpb|]).
      all: match goal with
           | |- Block.Solvetime ?b = Z.max 0 (Z.quot (Time_Sub ?t ?u) Second) /\ _ =>
               assert (Hs : Block.Solvetime b = Z.max 0 (Z.quot (Time_Sub t u) Second))
                 by (split_ifs; reflexivity)
           end.
      all: rewrite Hs; split; [reflexivity|]; apply Solvetime_facts.
  - repeat mstep p.
    all: unfold mret, M_ret; eexists _, p, _.
    all: (split; [reflexivity|]); cbn [heap set_heap].
    all: (split; [apply lookup_insert_eq|]).
    all: (split; [split_ifs; reflexivity|]).
    all: split_ifs; cbn; exact Hsolve.
Qed.

Lemma NewBlock_Solvetime_witness :
  pool_ok exState /\
  Bundle.Block exBundle = Some exRpcBlock /\
  (forall q, Some 1%positive = Some q -> is_Some (heap exState !! q)) /\
  exists s' p b,
    NewBlock (Some exBundle) (Some 1%positive) exState = (s', Ok p) /\
    heap s' !! p = Some b /\
    Block.Timestamp b = RpcBlock.Timestamp exRpcBlock /\
    exists pb,
      heap s' !! 1%positive = Some pb /\
      (1%positive <> p -> heap exState !! 1%positive = Some pb) /\
      Block.Solvetime b
      = Z.max 0 (Z.quot (Time_Sub (Block.Timestamp b) (Block.Timestamp pb)) Second) /\
      0 <= Block.Solvetime b /\
      (Block.Timestamp b < Block.Timestamp pb -> Block.Solvetime b = 0) /\
      (0 <= Block.Timestamp b - Block.Timestamp pb <= maxDuration ->
       Block.Solvetime b = (Block.Timestamp b - Block.Timestamp pb) / Second).
Proof.
  assert (H1 : pool_ok exState) by (intros p []).
  assert (H2 : Bundle.Block exBundle = Some exRpcBlock) by reflexivity.
  assert (H3 : forall q, Some 1%positive = Some q -> is_Some (heap exState !! q)).
  { intros q Hq. injection Hq as <-. exists exParentBlock. reflexivity. }
  split; [exact H1|]. split; [exact H2|]. split; [exact H3|].
  exact (NewBlock_Solvetime exState exBundle exRpcBlock (Some 1%positive) H1 H2 H3).
Defined.

Example NewBlock_Solvetime_example :
  exists s' b,
    NewBlock (Some exBundle) (Some 1%positive) exState = (s', Ok 2%positive) /\
    heap s' !! 2%positive = Some b /\ Block.Solvetime b = 60.
Proof. eexists _, _. vm_compute. repeat split. Qed.

(** ** [NewBlock]: the early error return *)

Lemma Free_pool (s : State) (p : positive) (b : Block.t) :
  heap s !! p = Some b ->
  exists s', Free p s = (s', Ok tt) /\ blockPool s' = p :: blockPool s /\
             heap s' !! p = Some (Reset b).
Proof.
  intros H. unfold Free. rewrite (bind_modify p b) by exact H.
  eexists. split; [reflexivity|]. split; [reflexivity|].
  cbn. apply lookup_insert_eq.
Qed.

(** Claim C8.  On the failing input, [NewBlock] without a bundle or with a
    bundle that carries no raw block, the code returns the error
    "block init: missing rpc block" after it took a block out of the pool,
    and it leaves the pool one block short: the pool afterwards is the tail
    of the pool before, the block taken is not put back. *)
Theorem NewBlock_missing_rpc_block_pool (s : State) (parent : option positive)
    (params : option Params.t) (baking endorsing : list (Z * Z)) :
  let r1 := NewBlock None parent s in
  let r2 := NewBlock (Some (Bundle.mk None params baking endorsing)) parent s in
  r1.2 = Err "block init: missing rpc block" /\
  r2.2 = Err "block init: missing rpc block" /\
  blockPool r1.1 = tail (blockPool s) /\
  blockPool r2.1 = tail (blockPool s).
Proof.
  unfold NewBlock, mbind, M_bind, AllocBlock, fail. cbn.
  destruct (blockPool s) as [|p rest] eqn:E; cbn; rewrite ?E; repeat split; reflexivity.
Qed.

Example NewBlock_missing_rpc_block_example :
  NewBlock None None exPooledState
  = (mkState {[ 1%positive := Block.zero ]} [] [], Err "block init: missing rpc block").
Proof. reflexivity. Qed.

(** ** [StreamOpTable]: the cursor *)

Lemma wrap64_small (z : Z) : - two63 <= z < two63 -> wrap64 z = z.
Proof.
  intros H. unfold wrap64. rewrite Z.mod_small; unfold two63, two64 in *; lia.
Qed.

Lemma parseDigits_nonneg (s : string) : forall acc v,
  0 <= acc -> parseDigits acc s = Some v -> 0 <= v.
Proof.
  induction s as [|c s IH]; intros acc v Hacc H; cbn in H.
  - injection H as <-. exact Hacc.
  - destruct (digitOf c) as [d|] eqn:Ed; [|discriminate].
    apply (IH (acc * 10 + d)); [|exact H].
    unfold digitOf in Ed.
    destruct ((48 <=? Z.of_nat (nat_of_ascii c)) && (Z.of_nat (nat_of_ascii c) <=? 57)) eqn:E;
      [|discriminate].
    injection Ed as <-. apply andb_true_iff in E. lia.
Qed.

Lemma ParseUint_range (s : string) (c : Z) : ParseUint s = Some c -> 0 <= c < two64.
Proof.
  unfold ParseUint. destruct s as [|a s]; [discriminate|].
  destruct (parseDigits 0 (String a s)) as [v|] eqn:E; [|discriminate].
  destruct (v <? two64) eqn:Ev; [|discriminate].
  intros H. injection H as <-. split; [|lia].
  apply (parseDigits_nonneg (String a s) 0 v); [lia | exact E].
Qed.

Lemma cursorHeight_div (c : Z) : 0 <= c < two64 -> cursorHeight c = c / 65536.
Proof.
  intros H. unfold cursorHeight. rewrite Z.shiftr_div_pow2 by lia.
  change (2 ^ 16) with 65536. apply wrap64_small.
  assert (0 <= c / 65536 < 2 ^ 48).
  { split; [apply Z.div_pos; lia|]. apply Z.div_lt_upper_bound; unfold two64 in H; lia. }
  unfold two63; lia.
Qed.

Lemma cursorOpN_mod (c : Z) : 0 <= c < two64 -> cursorOpN c = c mod 65536.
Proof.
  intros H. unfold cursorOpN. change 65535 with (Z.ones 16).
  rewrite Z.land_ones by lia. change (2 ^ 16) with 65536. apply wrap64_small.
  pose proof (Z.mod_pos_bound c 65536). unfold two63; lia.
Qed.

Lemma cursorCondition_asc (c : Z) (r : Row) :
  existsb (fun x => matches x r) (cursorCondition OrderAsc c) = true
  <-> pair_lt (cursorHeight c, cursorOpN c) (height r, op_n r).
Proof.
  unfold pair_lt. cbn. rewrite !orb_true_iff, !andb_true_iff. lia.
Qed.

Lemma cursorCondition_desc (c : Z) (r : Row) :
  existsb (fun x => matches x r) (cursorCondition OrderDesc c) = true
  <-> pair_lt (height r, op_n r) (cursorHeight c, cursorOpN c).
Proof.
  unfold pair_lt. cbn. rewrite !orb_true_iff, !andb_true_iff. lia.
Qed.

Lemma Query_keeps_OrCondition (q : Query) (cs : list Condition) (r : Row) :
  Query_keeps (Query_OrCondition cs q) r
  = Query_keeps q r && existsb (fun x => matches x r) cs.
Proof.
  unfold Query_keeps, Query_OrCondition. cbn. rewrite forallb_app. cbn.
  rewrite andb_true_r. reflexivity.
Qed.

Lemma Query_keeps_And (q : Query) (f : string) (m : FilterMode) (v : Z) (r : Row) :
  Query_keeps (Query_And f m v q) r = Query_keeps q r && matches (Leaf f m v) r.
Proof.
  unfold Query_keeps, Query_And. cbn [Conditions]. rewrite forallb_app. cbn.
  rewrite andb_true_r. reflexivity.
Qed.

(** Claim C10.  A cursor or id value [c] that parses as a [uint64] is
    decoded as height [c >> 16] and op position [c & 0xFFFF].  The
    condition the cursor adds keeps, among the rows the query kept
    before, exactly those whose (height, op_n) pair is strictly above the
    decoded pair in ascending order and strictly below it in descending
    order; the id filter keeps exactly the rows at the decoded pair.  The
    decoded position is always below 2^16 and [c] is
    [height * 2^16 + position]: a value composed from a height [h] and a
    position [n >= 2^16] decodes to another position and to the height
    [h + n / 2^16], so the excess of the position lands in the height. *)
Theorem StreamOpTable_cursor (v : string) (c : Z) (q : Query) (r : Row) :
  ParseUint v = Some c ->
  let h := Z.shiftr c 16 in
  let n := Z.land c 65535 in
  cursorHeight c = h /\ cursorOpN c = n /\
  0 <= n < 2 ^ 16 /\ 0 <= h < 2 ^ 48 /\ c = h * 2 ^ 16 + n /\
  (forall rest, exists q',
     filterCursor q (v :: rest) = Ok q' /\
     (Order q = OrderAsc ->
      (Query_keeps q' r = true <->
       Query_keeps q r = true /\ pair_lt (h, n) (height r, op_n r))) /\
     (Order q = OrderDesc ->
      (Query_keeps q' r = true <->
       Query_keeps q r = true /\ pair_lt (height r, op_n r) (h, n)))) /\
  (forall prefix rest, exists q',
     filterId q prefix FilterModeEqual (v :: rest) = Ok q' /\
     (Query_keeps q' r = true <->
      Query_keeps q r = true /\ height r = h /\ op_n r = n)) /\
  (forall h0 n0, 0 <= h0 -> 2 ^ 16 <= n0 -> c = h0 * 2 ^ 16 + n0 ->
     cursorOpN c <> n0 /\ cursorHeight c = h0 + n0 / 2 ^ 16 /\ h0 < cursorHeight c).
Proof.
  intros Hparse h n.
  pose proof (ParseUint_range v c Hparse) as Hc.
  pose proof (cursorHeight_div c Hc) as Hh.
  pose proof (cursorOpN_mod c Hc) as Hn.
  assert (Hh' : h = c / 65536).
  { unfold h. rewrite Z.shiftr_div_pow2 by lia. reflexivity. }
  assert (Hn' : n = c mod 65536).
  { unfold n. change 65535 with (Z.ones 16). rewrite Z.land_ones by lia. reflexivity. }
  change (2 ^ 16) with 65536.
  pose proof (Z.mod_pos_bound c 65536 ltac:(lia)) as Hmod.
  pose proof (Z.div_mod c 65536 ltac:(lia)) as Hdm.
  split; [congruence|]. split; [congruence|].
  split; [lia|]. split.
  { rewrite Hh'. split; [apply Z.div_pos; lia|].
    apply Z.div_lt_upper_bound; unfold two64 in Hc; lia. }
  split; [lia|].
  rewrite Hh', Hn', <- Hh, <- Hn.
  split; [|split].
  - intros rest. unfold filterCursor. rewrite Hparse. eexists. split; [reflexivity|].
    split; intros Ho; rewrite Query_keeps_OrCondition, Ho, andb_true_iff.
    + rewrite cursorCondition_asc. reflexivity.
    + rewrite cursorCondition_desc. reflexivity.
  - intros prefix rest. unfold filterId. rewrite Hparse. eexists. split; [reflexivity|].
    rewrite !Query_keeps_And. cbn. rewrite !andb_true_iff, !Z.eqb_eq. tauto.
  - intros h0 n0 Hh0 Hn0 Hcomp.
    assert (Hd : c / 65536 = h0 + n0 / 65536).
    { rewrite Hcomp, Z.add_comm, Z.div_add by lia. lia. }
    assert (0 < n0 / 65536) by (apply Z.div_str_pos; lia).
    rewrite Hh, Hn. split; [lia|]. split; lia.
Qed.

Lemma StreamOpTable_cursor_witness :
  ParseUint "6553603" = Some 6553603 /\
  cursorHeight 6553603 = 100 /\ cursorOpN 6553603 = 3.
Proof.
  split; [reflexivity|].
  destruct (StreamOpTable_cursor "6553603" 6553603 (mkQuery OrderAsc []) (mkRow 100 4) eq_refl)
    as (Hh & Hn & _).
  split; [exact Hh | exact Hn].
Defined.

(** ** [FetchRPC]: the rights fetch *)

Lemma bind_liftResult {A B : Type} (r : result A) (k : A -> M B) (s : State) :
  (liftResult r ≫= k) s
  = match r with
    | Ok a => k a s
    | Err e => (s, Err e)
    | Panic => (s, Panic)
    end.
Proof. unfold mbind, M_bind, liftResult. destruct r; reflexivity. Qed.

Lemma bind_fail {A B : Type} (msg : string) (k : A -> M B) (s : State) :
  (fail msg ≫= k) s = (s, Err msg).
Proof. reflexivity. Qed.

Lemma bind_panic {A B : Type} (k : A -> M B) (s : State) :
  (panic ≫= k) s = (s, Panic).
Proof. reflexivity. Qed.

Lemma add64_exact (a b : Z) : int64_range (a + b) -> add64 a b = a + b.
Proof. intros H. apply wrap64_small. exact H. Qed.

Ltac norm_in H :=
  unfold set_heap, set_rpcCalls, set_blockPool in H;
  cbn [heap rpcCalls blockPool] in H;
  rewrite ?insert_insert_eq in H.

(** One step of a run recorded in hypothesis [H], on a state whose heap
    is [<[p := b]> h]. *)
Ltac hstep p H :=
  first
    [ rewrite bind_ret in H
    | rewrite bind_bind in H
    | rewrite bind_fail in H
    | rewrite bind_panic in H
    | rewrite bind_logCall in H; norm_in H
    | rewrite bind_liftResult in H
    | rewrite (bind_modify p _ _ _ _ (lookup_insert_eq _ _ _)) in H; norm_in H
    | rewrite (bind_load p _ _ _ (lookup_insert_eq _ _ _)) in H
    | progress cbn [Block.TZ Block.Params_ Block.set_TZ Block.set_Params
                    Bundle.Block Bundle.set_Block Bundle.set_Params Bundle.empty] in H
    | match type of H with
      | context [match ?x with _ => _ end] => destruct x eqn:?
      end ].

Ltac log_eq :=
  cbn [rpcCalls];
  first [ symmetry; apply app_nil_r | rewrite <- ?app_assoc; reflexivity ].

Ltac guard_contra :=
  match goal with
  | Hb : (_ && _) = false |- _ =>
      apply andb_false_iff in Hb; destruct Hb as [Hb|Hb];
      [apply Z.leb_gt in Hb; lia | congruence]
  end.

Section FetchRPC_properties.
Variable CycleStartHeight : Params.t -> Z -> Z.
Variable IsCycleStart : Params.t -> Z -> bool.
Variable NewParams : Params.t.
Variable ForNetwork : Params.t -> string -> Params.t.
Variable ForProtocol : Params.t -> string -> Params.t.

(** Claim C4.  Every rights fetch [FetchRPC] issues is the one of the
    guard: it is asked at the height of the block, for the cycle of the
    block plus [PreservedCycles] (so the rights of cycle N are asked at
    the start of cycle N - PreservedCycles, N - 5 on a chain that
    preserves five cycles), and the height is a cycle start at or above
    the start height of cycle 2; at most one is issued.  When the run
    gets as far as the guard, the fetch is issued if the guard holds
    and no rights fetch is issued if it does not. *)
Theorem FetchRPC_rights (c : Client) (p : positive) (s s' : State)
    (r : result unit) (b : Block.t) :
  heap s !! p = Some b ->
  FetchRPC CycleStartHeight IsCycleStart NewParams ForNetwork ForProtocol c p s = (s', r) ->
  exists new b',
    rpcCalls s' = rpcCalls s ++ new /\
    heap s' !! p = Some b' /\
    Block.Height b' = Block.Height b /\
    Block.Cycle b' = Block.Cycle b /\
    (rightsCalls new = [] \/
     exists params,
       Block.Params_ b' = Some params /\
       CycleStartHeight params 2 <= Block.Height b /\
       IsCycleStart params (Block.Height b) = true /\
       rightsCalls new
       = [(Block.Height b, add64 (Block.Cycle b) (Params.PreservedCycles params))] /\
       (int64_range (Block.Cycle b + Params.PreservedCycles params) ->
        Block.Cycle b
        = add64 (Block.Cycle b) (Params.PreservedCycles params)
          - Params.PreservedCycles params)) /\
    (reachesGuard c b ->
     exists params,
       Block.Params_ b' = Some params /\
       (CycleStartHeight params 2 <= Block.Height b /\
        IsCycleStart params (Block.Height b) = true ->
        rightsCalls new
        = [(Block.Height b, add64 (Block.Cycle b) (Params.PreservedCycles params))]) /\
       (~ (CycleStartHeight params 2 <= Block.Height b /\
           IsCycleStart params (Block.Height b) = true) ->
        rightsCalls new = [])).
Proof.
  intros Hp Hrun. unfold FetchRPC in Hrun.
  rewrite (bind_load p b) in Hrun by exact Hp.
  destruct (Block.Hash b) as [hash|] eqn:Ehash.
  2:{ unfold fail in Hrun. injection Hrun as <- <-. exists [], b.
      rewrite app_nil_r. repeat split; auto.
      intros (hash & Hh & _). congruence. }
  destruct s as [h pool log]. cbn [heap] in Hp.
  rewrite <- (insert_id h p b Hp) in Hrun.
  repeat hstep p Hrun.
  all: try rewrite (modify_run p _ _ _ (lookup_insert_eq _ _ _)) in Hrun.
  all: unfold mret, M_ret, fail, panic in Hrun; norm_in Hrun.
  all: injection Hrun as <- <-; simplify_eq.
  all: unfold fetchesRights in *; cbn [Block.Height Block.Cycle Block.set_TZ Block.set_Params] in *.
  all: repeat match goal with
              | H : (_ && _) = true |- _ => apply andb_true_iff in H; destruct H
              | H : (_ <=? _) = true |- _ => apply Z.leb_le in H
              end.
  all: eexists _, _; (split; [log_eq|]).
  all: (split; [cbn [heap]; apply lookup_insert_eq|]).
  all: (split; [reflexivity|]); (split; [reflexivity|]).
  all: split.
  all: try solve
    [ left; reflexivity
    | right; eexists; (split; [cbn; first [eassumption | reflexivity]|]);
      (split; [assumption|]); (split; [assumption|]); (split; [reflexivity|]);
      intros Hr; rewrite add64_exact by exact Hr; lia ].
  all: intros (hash' & Hh & Hblk & Hpar); simplify_eq.
  all: try solve
    [ eexists; (split; [cbn; first [eassumption | reflexivity]|]); split;
      [ intros [G1 G2]; first [reflexivity | exfalso; guard_contra]
      | intros nG; first [reflexivity | exfalso; apply nG; split; assumption] ] ].
  all: exfalso.
  all: repeat match goal with
              | H : wrapErr _ ?r = _ |- _ =>
                  destruct r eqn:?; cbn [wrapErr] in H; simplify_eq
              end.
  all: repeat match goal with
              | H : Block.TZ _ = _ |- _ => rewrite H in Hblk; clear H
              | H : Bundle.Block _ = _ |- _ => cbn in Hblk; rewrite H in Hblk; clear H
              | H : Block.Params_ _ = _ |- _ => rewrite H in Hpar; clear H
              | H : (0 <? _) = true |- _ => apply Z.ltb_lt in H
              end.
  all: cbn in Hblk.
  all: try (destruct Hblk as [[x Hx]|[blk Hblk]]; [discriminate | congruence]).
  all: destruct Hpar as [[x Hx]|[Hle|[ps Hps]]]; [discriminate | lia | congruence].
Qed.
End FetchRPC_properties.

Lemma FetchRPC_rights_witness :
  let sr := FetchRPC exCycleStartHeight exIsCycleStart exParams exForNetwork exForProtocol
                     exClient 1%positive exFetchState in
  heap exFetchState !! 1%positive = Some exFetchBlock /\
  exists new b',
    rpcCalls sr.1 = rpcCalls exFetchState ++ new /\ heap sr.1 !! 1%positive = Some b'.
Proof.
  intros sr.
  assert (H1 : heap exFetchState !! 1%positive = Some exFetchBlock) by reflexivity.
  assert (H2 : FetchRPC exCycleStartHeight exIsCycleStart exParams exForNetwork exForProtocol
                        exClient 1%positive exFetchState = (sr.1, sr.2))
    by apply surjective_pairing.
  split; [exact H1|].
  destruct (FetchRPC_rights _ _ _ _ _ exClient 1%positive exFetchState sr.1 sr.2
              exFetchBlock H1 H2) as (new & b' & Hlog & Hb & _).
  exists new, b'. split; [exact Hlog | exact Hb].
Defined.

Example FetchRPC_rights_example :
  rpcCalls (FetchRPC exCycleStartHeight exIsCycleStart exParams exForNetwork exForProtocol
                     exClient 1%positive exFetchState).1
  = [CallFetchRightsByCycle 8193 7].
Proof. vm_compute. reflexivity. Qed.

(** ** [Update] *)

Lemma counter_set_same (c : Counter.t) (v : Z) (b : Block.t) :
  counter c (set_counter c v b) = v.
Proof. destruct c; reflexivity. Qed.

Lemma counter_set_other (c c' : Counter.t) (v : Z) (b : Block.t) :
  c <> c' -> counter c' (set_counter c v b) = counter c' b.
Proof. intros H. destruct c, c'; try congruence; reflexivity. Qed.

Lemma untouched_set_counter (c : Counter.t) (v : Z) (b : Block.t) :
  untouched (set_counter c v b) = untouched b.
Proof. destruct c; reflexivity. Qed.

Lemma untouched_add (c : Counter.t) (v : Z) (b : Block.t) :
  untouched (add c v b) = untouched b.
Proof. apply untouched_set_counter. Qed.

Lemma Params_add (c : Counter.t) (v : Z) (b : Block.t) :
  Block.Params_ (add c v b) = Block.Params_ b.
Proof. destruct c; reflexivity. Qed.

Lemma Height_add (c : Counter.t) (v : Z) (b : Block.t) :
  Block.Height (add c v b) = Block.Height b.
Proof. destruct c; reflexivity. Qed.

Lemma counters_ext (b1 b2 : Block.t) :
  counters b1 = counters b2 <-> forall c, counter c b1 = counter c b2.
Proof.
  split.
  - unfold counters. cbn [map Counter.all]. intros H c.
    injection H as ?????????????????????. destruct c; assumption.
  - intros H. unfold counters. apply map_ext. intros c. apply H.
Qed.

Lemma same_counters_iff (b1 b2 : Block.t) :
  same_counters b1 b2 <-> counters b1 = counters b2.
Proof. symmetry. apply counters_ext. Qed.

Lemma same_counters_add (c : Counter.t) (v : Z) (b1 b2 : Block.t) :
  same_counters b1 b2 -> same_counters (add c v b1) (add c v b2).
Proof.
  intros H c'. unfold add.
  destruct (decide (c = c')) as [<-|Hne].
  - rewrite !counter_set_same, H. reflexivity.
  - rewrite !counter_set_other by exact Hne. apply H.
Qed.

Lemma same_counters_set_HasSeeds (b1 b2 : Block.t) (v : bool) :
  same_counters b1 b2 ->
  same_counters (Block.set_HasSeeds v b1) (Block.set_HasSeeds v b2).
Proof. intros H c. specialize (H c). destruct c; exact H. Qed.

Lemma same_counters_set_HasProposals (b1 b2 : Block.t) (v : bool) :
  same_counters b1 b2 ->
  same_counters (Block.set_HasProposals v b1) (Block.set_HasProposals v b2).
Proof. intros H c. specialize (H c). destruct c; exact H. Qed.

Lemma same_counters_set_HasBallots (b1 b2 : Block.t) (v : bool) :
  same_counters b1 b2 ->
  same_counters (Block.set_HasBallots v b1) (Block.set_HasBallots v b2).
Proof. intros H c. specialize (H c). destruct c; exact H. Qed.

(** Peel the assignments off both sides of a [same_counters] goal. *)
Ltac same_counters_step :=
  match goal with
  | |- same_counters (add _ _ _) (add _ _ _) => apply same_counters_add
  | |- same_counters (Block.set_HasSeeds _ _) (Block.set_HasSeeds _ _) =>
      apply same_counters_set_HasSeeds
  | |- same_counters (Block.set_HasProposals _ _) (Block.set_HasProposals _ _) =>
      apply same_counters_set_HasProposals
  | |- same_counters (Block.set_HasBallots _ _) (Block.set_HasBallots _ _) =>
      apply same_counters_set_HasBallots
  end.

Lemma untouched_set_HasSeeds (v : bool) (b : Block.t) :
  untouched (Block.set_HasSeeds v b) = untouched b.
Proof. reflexivity. Qed.

Lemma untouched_set_HasProposals (v : bool) (b : Block.t) :
  untouched (Block.set_HasProposals v b) = untouched b.
Proof. reflexivity. Qed.

Lemma untouched_set_HasBallots (v : bool) (b : Block.t) :
  untouched (Block.set_HasBallots v b) = untouched b.
Proof. reflexivity. Qed.

Lemma Update_op_untouched (b b' : Block.t) (e e' : Z) (op : Op.t) :
  Update_op (b, e) op = Some (b', e') -> untouched b' = untouched b.
Proof.
  unfold Update_op. intros H. cbv zeta in H.
  repeat case_match; simplify_eq;
    rewrite ?untouched_add, ?untouched_set_HasSeeds, ?untouched_set_HasProposals,
      ?untouched_set_HasBallots, ?untouched_add;
    reflexivity.
Qed.

Lemma Update_op_counters (b1 b2 b1' b2' : Block.t) (e1 e2 e1' e2' : Z) (op : Op.t) :
  same_counters b1 b2 ->
  Block.Params_ b1 = Block.Params_ b2 ->
  Update_op (b1, e1) op = Some (b1', e1') ->
  Update_op (b2, e2) op = Some (b2', e2') ->
  same_counters b1' b2'.
Proof.
  unfold Update_op. intros Hc Hp H1 H2. cbv zeta in H1, H2.
  destruct (Op.Type_ op), (Op.IsSuccess op), (Op.IsEvent op);
    rewrite ?Params_add in H1, H2; rewrite <- ?Hp in H2;
    repeat case_match; simplify_eq;
    repeat same_counters_step; exact Hc.
Qed.

Lemma Update_init_counter (c : Counter.t) (b : Block.t) : counter c (Update_init b) = 0.
Proof. destruct c; reflexivity. Qed.

Lemma Update_init_untouched (b : Block.t) : untouched (Update_init b) = untouched b.
Proof. reflexivity. Qed.

Lemma Update_init_same (b1 b2 : Block.t) : same_counters (Update_init b1) (Update_init b2).
Proof. intros c. rewrite !Update_init_counter. reflexivity. Qed.

Lemma Update_ops_untouched (ops : list Op.t) : forall b e b' e',
  Update_ops (b, e) ops = Some (b', e') -> untouched b' = untouched b.
Proof.
  induction ops as [|op ops IH]; intros b e b' e' H; cbn [Update_ops] in H.
  - injection H as <- <-. reflexivity.
  - destruct (Update_op (b, e) op) as [[b1 e1]|] eqn:E; [|discriminate].
    rewrite (IH _ _ _ _ H). exact (Update_op_untouched _ _ _ _ _ E).
Qed.

Lemma Update_ops_counters (ops : list Op.t) : forall b1 b2 e1 e2 b1' b2' e1' e2',
  same_counters b1 b2 ->
  Block.Params_ b1 = Block.Params_ b2 ->
  Update_ops (b1, e1) ops = Some (b1', e1') ->
  Update_ops (b2, e2) ops = Some (b2', e2') ->
  same_counters b1' b2'.
Proof.
  induction ops as [|op ops IH]; intros b1 b2 e1 e2 b1' b2' e1' e2' Hc Hp H1 H2;
    cbn [Update_ops] in H1, H2.
  - injection H1 as <- <-. injection H2 as <- <-. exact Hc.
  - destruct (Update_op (b1, e1) op) as [[x1 y1]|] eqn:E1; [|discriminate].
    destruct (Update_op (b2, e2) op) as [[x2 y2]|] eqn:E2; [|discriminate].
    apply (IH x1 x2 y1 y2 b1' b2' e1' e2'); try assumption.
    + exact (Update_op_counters _ _ _ _ _ _ _ _ _ Hc Hp E1 E2).
    + pose proof (Update_op_untouched _ _ _ _ _ E1) as U1.
      pose proof (Update_op_untouched _ _ _ _ _ E2) as U2.
      unfold untouched in U1, U2. congruence.
Qed.

Lemma Update_op_total (b : Block.t) (e : Z) (op : Op.t) :
  op_ok (Block.Params_ b) op = true -> is_Some (Update_op (b, e) op).
Proof.
  unfold op_ok, Update_op. cbv zeta. intros H.
  destruct (Op.Type_ op), (Op.IsSuccess op), (Op.IsEvent op);
    rewrite ?Params_add; cbn [andb negb] in *;
    repeat case_match; try discriminate; eexists; reflexivity.
Qed.

Lemma Update_ops_total (ops : list Op.t) : forall b e,
  Forall (fun op => op_ok (Block.Params_ b) op = true) ops ->
  is_Some (Update_ops (b, e) ops).
Proof.
  induction ops as [|op ops IH]; intros b e H; cbn [Update_ops].
  - eexists. reflexivity.
  - inversion H as [|? ? Hop Hrest]; subst.
    destruct (Update_op_total b e op Hop) as [[b1 e1] E]. rewrite E.
    apply IH. pose proof (Update_op_untouched _ _ _ _ _ E) as U.
    unfold untouched in U. injection U as U _. rewrite U. exact Hrest.
Qed.

Lemma Update_op_endorsed (b b' : Block.t) (e e' : Z) (op : Op.t) :
  Update_op (b, e) op = Some (b', e') -> e' = endorsedFrom e [op].
Proof.
  unfold Update_op, endorsedFrom. cbv zeta. cbn [foldl]. intros H.
  destruct (Op.Type_ op); repeat case_match; simplify_eq; reflexivity.
Qed.

Lemma Update_ops_endorsed (ops : list Op.t) : forall b e b' e',
  Update_ops (b, e) ops = Some (b', e') -> e' = endorsedFrom e ops.
Proof.
  induction ops as [|op ops IH]; intros b e b' e' H; cbn [Update_ops] in H.
  - injection H as <- <-. reflexivity.
  - destruct (Update_op (b, e) op) as [[b1 e1]|] eqn:E; [|discriminate].
    rewrite (IH _ _ _ _ H). rewrite (Update_op_endorsed _ _ _ _ _ E). reflexivity.
Qed.

Lemma Update_seen_untouched (b : Block.t) (acc : Account.t) :
  untouched (Update_seen b acc) = untouched b.
Proof.
  unfold Update_seen. cbv zeta. repeat case_match; rewrite ?untouched_add; reflexivity.
Qed.

Lemma Update_account_untouched (b : Block.t) (acc : Account.t) :
  untouched (Update_account b acc) = untouched b.
Proof.
  unfold Update_account. cbv zeta.
  repeat case_match; rewrite ?Update_seen_untouched, ?untouched_add; reflexivity.
Qed.

Lemma Update_baker_untouched (b : Block.t) (bkr : Baker.t) :
  untouched (Update_baker b bkr) = untouched b.
Proof.
  unfold Update_baker. cbv zeta.
  repeat case_match; rewrite ?Update_seen_untouched, ?untouched_add; reflexivity.
Qed.

Lemma Update_seen_counters (b1 b2 : Block.t) (acc : Account.t) :
  same_counters b1 b2 -> Block.Height b1 = Block.Height b2 ->
  same_counters (Update_seen b1 acc) (Update_seen b2 acc).
Proof.
  unfold Update_seen. cbv zeta. intros Hc Hh. rewrite <- Hh.
  repeat case_match; repeat same_counters_step; exact Hc.
Qed.

Lemma Update_account_counters (b1 b2 : Block.t) (acc : Account.t) :
  same_counters b1 b2 -> Block.Height b1 = Block.Height b2 ->
  same_counters (Update_account b1 acc) (Update_account b2 acc).
Proof.
  unfold Update_account. cbv zeta. intros Hc Hh.
  repeat case_match; try exact Hc;
    apply Update_seen_counters; rewrite ?Height_add; try assumption;
    repeat same_counters_step; exact Hc.
Qed.

Lemma Update_baker_counters (b1 b2 : Block.t) (bkr : Baker.t) :
  same_counters b1 b2 -> Block.Height b1 = Block.Height b2 ->
  same_counters (Update_baker b1 bkr) (Update_baker b2 bkr).
Proof.
  unfold Update_baker. cbv zeta. intros Hc Hh.
  repeat case_match;
    apply Update_seen_counters; rewrite ?Height_add; try assumption;
    repeat same_counters_step; exact Hc.
Qed.

Lemma foldl_Update_account_untouched (accs : list Account.t) : forall b,
  untouched (foldl Update_account b accs) = untouched b.
Proof.
  induction accs as [|a accs IH]; intros b; cbn [foldl]; [reflexivity|].
  rewrite IH. apply Update_account_untouched.
Qed.

Lemma foldl_Update_baker_untouched (bkrs : list Baker.t) : forall b,
  untouched (foldl Update_baker b bkrs) = untouched b.
Proof.
  induction bkrs as [|a bkrs IH]; intros b; cbn [foldl]; [reflexivity|].
  rewrite IH. apply Update_baker_untouched.
Qed.

Lemma untouched_Height (b1 b2 : Block.t) :
  untouched b1 = untouched b2 -> Block.Height b1 = Block.Height b2.
Proof. unfold untouched. intros H. injection H as _ H _ _ _. exact H. Qed.

Lemma foldl_Update_account_counters (accs : list Account.t) : forall b1 b2,
  same_counters b1 b2 -> Block.Height b1 = Block.Height b2 ->
  same_counters (foldl Update_account b1 accs) (foldl Update_account b2 accs).
Proof.
  induction accs as [|a accs IH]; intros b1 b2 Hc Hh; cbn [foldl]; [exact Hc|].
  apply IH.
  - apply Update_account_counters; assumption.
  - rewrite (untouched_Height _ _ (Update_account_untouched b1 a)).
    rewrite (untouched_Height _ _ (Update_account_untouched b2 a)). exact Hh.
Qed.

Lemma foldl_Update_baker_counters (bkrs : list Baker.t) : forall b1 b2,
  same_counters b1 b2 -> Block.Height b1 = Block.Height b2 ->
  same_counters (foldl Update_baker b1 bkrs) (foldl Update_baker b2 bkrs).
Proof.
  induction bkrs as [|a bkrs IH]; intros b1 b2 Hc Hh; cbn [foldl]; [exact Hc|].
  apply IH.
  - apply Update_baker_counters; assumption.
  - rewrite (untouched_Height _ _ (Update_baker_untouched b1 a)).
    rewrite (untouched_Height _ _ (Update_baker_untouched b2 a)). exact Hh.
Qed.

(** The block [Update] leaves at [p], and what it does to the rest of
    the heap. *)
Lemma Update_entries_run (s : State) (p : positive) (b b1 : Block.t) (e : Z)
    (accs : list Account.t) (bkrs : list Baker.t) :
  heap s !! p = Some b ->
  parent_ok s b ->
  Update_ops (Update_init b, 0) (Block.Ops b) = Some (b1, e) ->
  exists s' bmid,
    Update_entries p accs bkrs s = (s', Ok tt) /\
    heap s' !! p = Some (foldl Update_baker (foldl Update_account bmid accs) bkrs) /\
    same_counters bmid b1 /\
    Block.Height bmid = Block.Height b /\
    Block.Params_ bmid = Block.Params_ b /\
    Block.Ops bmid = Block.Ops b /\
    Block.Parent bmid = Block.Parent b /\
    match Block.Parent b with
    | None =>
        Block.NSlotsEndorsed bmid = Block.NSlotsEndorsed b /\
        forall r, r <> p -> heap s' !! r = heap s !! r
    | Some q =>
        (q <> p ->
         Block.NSlotsEndorsed bmid = Block.NSlotsEndorsed b /\
         exists pb, heap s !! q = Some pb /\
                    heap s' !! q = Some (Block.set_NSlotsEndorsed e pb)) /\
        forall r, r <> p -> r <> q -> heap s' !! r = heap s !! r
    end.
Proof.
  intros Hp Hparent Hops.
  pose proof (Update_ops_untouched _ _ _ _ _ Hops) as U.
  rewrite Update_init_untouched in U. unfold untouched in U.
  injection U as Upar Uh Uops Uparent Uslots.
  unfold Update_entries. rewrite (bind_load p b) by exact Hp. rewrite Hops.
  rewrite bind_store. unfold parent_ok in Hparent. rewrite Uparent.
  destruct (Block.Parent b) as [q|] eqn:Eq.
  - destruct Hparent as [pb Hpb]. destruct (decide (q = p)) as [->|Hne].
    + rewrite (bind_modify p b1) by (cbn; apply lookup_insert_eq).
      rewrite (bind_modify p (Block.set_NSlotsEndorsed e b1)) by (cbn; apply lookup_insert_eq).
      erewrite modify_run by (cbn; apply lookup_insert_eq).
      eexists _, (Block.set_NSlotsEndorsed e b1).
      split; [reflexivity|]. split; [cbn; apply lookup_insert_eq|].
      split; [intros c; destruct c; reflexivity|].
      split; [exact Uh|]. split; [exact Upar|]. split; [exact Uops|].
      split; [exact Uparent|]. split; [intros Hc; congruence|].
      intros r Hr _. cbn. rewrite !lookup_insert_ne by congruence. reflexivity.
    + rewrite (bind_modify q pb) by (cbn; rewrite lookup_insert_ne by congruence; exact Hpb).
      rewrite (bind_modify p b1)
        by (cbn; rewrite lookup_insert_ne by congruence; apply lookup_insert_eq).
      erewrite modify_run by (cbn; apply lookup_insert_eq).
      eexists _, b1.
      split; [reflexivity|]. split; [cbn; apply lookup_insert_eq|].
      split; [intros c; reflexivity|].
      split; [exact Uh|]. split; [exact Upar|]. split; [exact Uops|].
      split; [exact Uparent|]. split.
      * intros _. split; [exact Uslots|]. exists pb. split; [exact Hpb|].
        cbn. rewrite !lookup_insert_ne by congruence. apply lookup_insert_eq.
      * intros r Hr Hrq. cbn. rewrite !lookup_insert_ne by congruence. reflexivity.
  - rewrite bind_ret.
    rewrite (bind_modify p b1) by (cbn; apply lookup_insert_eq).
    erewrite modify_run by (cbn; apply lookup_insert_eq).
    eexists _, b1.
    split; [reflexivity|]. split; [cbn; apply lookup_insert_eq|].
    split; [intros c; reflexivity|].
    split; [exact Uh|]. split; [exact Upar|]. split; [exact Uops|].
    split; [exact Uparent|]. split; [exact Uslots|].
    intros r Hr. cbn. rewrite !lookup_insert_ne by congruence. reflexivity.
Qed.

Lemma counter_add_same (c : Counter.t) (v : Z) (b : Block.t) :
  counter c (add c v b) = add64 (counter c b) v.
Proof. apply counter_set_same. Qed.

Lemma counter_add_other (c c' : Counter.t) (v : Z) (b : Block.t) :
  c <> c' -> counter c' (add c v b) = counter c' b.
Proof. apply counter_set_other. Qed.

Lemma counter_set_HasSeeds (c : Counter.t) (v : bool) (b : Block.t) :
  counter c (Block.set_HasSeeds v b) = counter c b.
Proof. destruct c; reflexivity. Qed.

Lemma counter_set_HasProposals (c : Counter.t) (v : bool) (b : Block.t) :
  counter c (Block.set_HasProposals v b) = counter c b.
Proof. destruct c; reflexivity. Qed.

Lemma counter_set_HasBallots (c : Counter.t) (v : bool) (b : Block.t) :
  counter c (Block.set_HasBallots v b) = counter c b.
Proof. destruct c; reflexivity. Qed.

(** Rewrite a counter of a block through the assignments made to it. *)
Ltac counter_through :=
  repeat first
    [ rewrite counter_add_same
    | rewrite counter_add_other by discriminate
    | rewrite counter_set_HasSeeds
    | rewrite counter_set_HasProposals
    | rewrite counter_set_HasBallots ].

Lemma Update_op_GasUsed (b b' : Block.t) (e e' : Z) (op : Op.t) :
  Update_op (b, e) op = Some (b', e') ->
  counter Counter.GasUsed b' = add64 (counter Counter.GasUsed b) (Op.GasUsed op).
Proof.
  unfold Update_op. cbv zeta. intros H.
  destruct (Op.Type_ op), (Op.IsSuccess op), (Op.IsEvent op);
    repeat case_match; simplify_eq; counter_through; reflexivity.
Qed.

Lemma Update_op_NOpsFailed (b b' : Block.t) (e e' : Z) (op : Op.t) :
  Update_op (b, e) op = Some (b', e') ->
  counter Counter.NOpsFailed b'
  = if Op.IsSuccess op then counter Counter.NOpsFailed b
    else add64 (counter Counter.NOpsFailed b) 1.
Proof.
  unfold Update_op. cbv zeta. intros H.
  destruct (Op.Type_ op), (Op.IsSuccess op), (Op.IsEvent op);
    repeat case_match; simplify_eq; counter_through; reflexivity.
Qed.

Lemma Update_ops_GasUsed (ops : list Op.t) : forall b e b' e',
  Update_ops (b, e) ops = Some (b', e') ->
  counter Counter.GasUsed b'
  = foldl (fun acc op => add64 acc (Op.GasUsed op)) (counter Counter.GasUsed b) ops.
Proof.
  induction ops as [|op ops IH]; intros b e b' e' H; cbn [Update_ops foldl] in *.
  - injection H as <- <-. reflexivity.
  - destruct (Update_op (b, e) op) as [[b1 e1]|] eqn:E; [|discriminate].
    rewrite (IH _ _ _ _ H), (Update_op_GasUsed _ _ _ _ _ E). reflexivity.
Qed.

Lemma Update_ops_NOpsFailed (ops : list Op.t) : forall b e b' e',
  Update_ops (b, e) ops = Some (b', e') ->
  counter Counter.NOpsFailed b'
  = foldl (fun acc op => if Op.IsSuccess op then acc else add64 acc 1)
          (counter Counter.NOpsFailed b) ops.
Proof.
  induction ops as [|op ops IH]; intros b e b' e' H; cbn [Update_ops foldl] in *.
  - injection H as <- <-. reflexivity.
  - destruct (Update_op (b, e) op) as [[b1 e1]|] eqn:E; [|discriminate].
    rewrite (IH _ _ _ _ H), (Update_op_NOpsFailed _ _ _ _ _ E). reflexivity.
Qed.

Lemma Update_seen_op_counters (c : Counter.t) (b : Block.t) (acc : Account.t) :
  c = Counter.GasUsed \/ c = Counter.NOpsFailed ->
  counter c (Update_seen b acc) = counter c b.
Proof.
  unfold Update_seen. cbv zeta. intros [-> | ->];
    repeat case_match; counter_through; reflexivity.
Qed.

Lemma Update_account_op_counters (c : Counter.t) (b : Block.t) (acc : Account.t) :
  c = Counter.GasUsed \/ c = Counter.NOpsFailed ->
  counter c (Update_account b acc) = counter c b.
Proof.
  unfold Update_account. cbv zeta. intros Hc.
  repeat case_match; rewrite ?Update_seen_op_counters by exact Hc;
    destruct Hc as [-> | ->]; counter_through; reflexivity.
Qed.

Lemma Update_baker_op_counters (c : Counter.t) (b : Block.t) (bkr : Baker.t) :
  c = Counter.GasUsed \/ c = Counter.NOpsFailed ->
  counter c (Update_baker b bkr) = counter c b.
Proof.
  unfold Update_baker. cbv zeta. intros Hc.
  repeat case_match; rewrite ?Update_seen_op_counters by exact Hc;
    destruct Hc as [-> | ->]; counter_through; reflexivity.
Qed.

Lemma foldl_Update_account_op_counters (c : Counter.t) (accs : list Account.t) : forall b,
  c = Counter.GasUsed \/ c = Counter.NOpsFailed ->
  counter c (foldl Update_account b accs) = counter c b.
Proof.
  induction accs as [|a accs IH]; intros b Hc; cbn [foldl]; [reflexivity|].
  rewrite IH by exact Hc. apply Update_account_op_counters. exact Hc.
Qed.

Lemma foldl_Update_baker_op_counters (c : Counter.t) (bkrs : list Baker.t) : forall b,
  c = Counter.GasUsed \/ c = Counter.NOpsFailed ->
  counter c (foldl Update_baker b bkrs) = counter c b.
Proof.
  induction bkrs as [|a bkrs IH]; intros b Hc; cbn [foldl]; [reflexivity|].
  rewrite IH by exact Hc. apply Update_baker_op_counters. exact Hc.
Qed.

Lemma Update_entries_counters (s1 s2 : State) (p1 p2 : positive) (b1 b2 : Block.t)
    (accs : list Account.t) (bkrs : list Baker.t) :
  heap s1 !! p1 = Some b1 -> heap s2 !! p2 = Some b2 ->
  parent_ok s1 b1 -> parent_ok s2 b2 ->
  Block.Ops b1 = Block.Ops b2 ->
  Block.Params_ b1 = Block.Params_ b2 ->
  Block.Height b1 = Block.Height b2 ->
  Forall (fun op => op_ok (Block.Params_ b1) op = true) (Block.Ops b1) ->
  exists s1' s2' b1' b2',
    Update_entries p1 accs bkrs s1 = (s1', Ok tt) /\
    Update_entries p2 accs bkrs s2 = (s2', Ok tt) /\
    heap s1' !! p1 = Some b1' /\ heap s2' !! p2 = Some b2' /\
    same_counters b1' b2' /\
    Block.Ops b1' = Block.Ops b1 /\ Block.Params_ b1' = Block.Params_ b1 /\
    Block.Height b1' = Block.Height b1 /\ parent_ok s1' b1' /\
    counter Counter.GasUsed b1' = sumGasUsed (Block.Ops b1) /\
    counter Counter.NOpsFailed b1' = countFailed (Block.Ops b1).
Proof.
  intros Hp1 Hp2 Hpar1 Hpar2 Hops Hparams Hheight Hok.
  destruct (Update_ops_total (Block.Ops b1) (Update_init b1) 0) as [[x1 e1] E1].
  { exact Hok. }
  destruct (Update_ops_total (Block.Ops b2) (Update_init b2) 0) as [[x2 e2] E2].
  { change (Block.Params_ (Update_init b2)) with (Block.Params_ b2).
    rewrite <- Hparams, <- Hops. exact Hok. }
  destruct (Update_entries_run s1 p1 b1 x1 e1 accs bkrs Hp1 Hpar1 E1)
    as (s1' & m1 & R1 & L1 & C1 & H1 & P1 & O1 & Q1 & F1).
  destruct (Update_entries_run s2 p2 b2 x2 e2 accs bkrs Hp2 Hpar2 E2)
    as (s2' & m2 & R2 & L2 & C2 & H2 & P2 & O2 & Q2 & F2).
  exists s1', s2', (foldl Update_baker (foldl Update_account m1 accs) bkrs),
    (foldl Update_baker (foldl Update_account m2 accs) bkrs).
  pose proof (foldl_Update_account_untouched accs m1) as UA1.
  pose proof (foldl_Update_account_untouched accs m2) as UA2.
  pose proof (foldl_Update_baker_untouched bkrs (foldl Update_account m1 accs)) as UB1.
  rewrite UA1 in UB1. unfold untouched in UB1.
  injection UB1 as UBpar UBh UBops UBparent UBslots.
  split; [exact R1|]. split; [exact R2|]. split; [exact L1|]. split; [exact L2|].
  split.
  { apply foldl_Update_baker_counters.
    - apply foldl_Update_account_counters.
      + intros c. rewrite (C1 c), (C2 c).
        rewrite Hops in E1.
        apply (Update_ops_counters _ _ _ _ _ _ _ _ _ (Update_init_same b1 b2) Hparams E1 E2).
      + congruence.
    - rewrite (untouched_Height _ _ UA1), (untouched_Height _ _ UA2). congruence. }
  split; [congruence|]. split; [congruence|]. split; [congruence|].
  split.
  { unfold parent_ok. rewrite UBparent, Q1. unfold parent_ok in Hpar1.
    destruct (Block.Parent b1) as [q|]; [|exact I].
    destruct F1 as [F1 _]. destruct (decide (q = p1)) as [->|Hne].
    - rewrite L1. eexists. reflexivity.
    - destruct (F1 Hne) as (_ & pb & _ & Hq). rewrite Hq. eexists. reflexivity. }
  split.
  - rewrite foldl_Update_baker_op_counters, foldl_Update_account_op_counters by auto.
    rewrite (C1 _), (Update_ops_GasUsed _ _ _ _ _ E1), Update_init_counter. reflexivity.
  - rewrite foldl_Update_baker_op_counters, foldl_Update_account_op_counters by auto.
    rewrite (C1 _), (Update_ops_NOpsFailed _ _ _ _ _ E1), Update_init_counter. reflexivity.
Qed.

(** Claim C2.  [Update] recomputes the aggregate counters from the ops of
    the block, its height and constants and the two maps alone: two blocks
    that agree on these end with the same counters whatever their
    counters were before, so a second [Update] of the same block yields
    the counters of the first.  The gas used and the number of failed ops
    are the folds of the op list from 0.  [Update] returns on every block
    whose ops carry the raw data the loop reads. *)
Theorem Update_recomputes_counters (s1 s2 : State) (p1 p2 : positive) (b1 b2 : Block.t)
    (accounts : gmap AccountID Account.t) (bakers : gmap AccountID Baker.t) :
  heap s1 !! p1 = Some b1 -> heap s2 !! p2 = Some b2 ->
  parent_ok s1 b1 -> parent_ok s2 b2 ->
  Block.Ops b1 = Block.Ops b2 ->
  Block.Params_ b1 = Block.Params_ b2 ->
  Block.Height b1 = Block.Height b2 ->
  Forall (fun op => op_ok (Block.Params_ b1) op = true) (Block.Ops b1) ->
  exists s1' s2' s1'' b1' b2' b1'',
    Update p1 accounts bakers s1 = (s1', Ok tt) /\
    Update p2 accounts bakers s2 = (s2', Ok tt) /\
    heap s1' !! p1 = Some b1' /\ heap s2' !! p2 = Some b2' /\
    counters b1' = counters b2' /\
    Update p1 accounts bakers s1' = (s1'', Ok tt) /\
    heap s1'' !! p1 = Some b1'' /\
    counters b1'' = counters b1' /\
    Block.GasUsed b1' = sumGasUsed (Block.Ops b1) /\
    Block.NOpsFailed b1' = countFailed (Block.Ops b1).
Proof.
  intros Hp1 Hp2 Hpar1 Hpar2 Hops Hparams Hheight Hok. unfold Update.
  destruct (Update_entries_counters s1 s2 p1 p2 b1 b2
              (map_to_list accounts).*2 (map_to_list bakers).*2
              Hp1 Hp2 Hpar1 Hpar2 Hops Hparams Hheight Hok)
    as (s1' & s2' & b1' & b2' & R1 & R2 & L1 & L2 & C & O1 & P1 & H1 & Q1 & G & F).
  assert (Hok' : Forall (fun op => op_ok (Block.Params_ b1') op = true) (Block.Ops b1')).
  { rewrite O1, P1. exact Hok. }
  destruct (Update_entries_counters s1' s1 p1 p1 b1' b1
              (map_to_list accounts).*2 (map_to_list bakers).*2
              L1 Hp1 Q1 Hpar1 O1 P1 H1 Hok')
    as (s1'' & s1x & b1'' & b1x & R1' & R1x & L1' & L1x & C' & _).
  assert (s1x = s1') by congruence. subst s1x.
  assert (b1x = b1') by congruence. subst b1x.
  exists s1', s2', s1'', b1', b2', b1''.
  split; [exact R1|]. split; [exact R2|]. split; [exact L1|]. split; [exact L2|].
  split; [apply same_counters_iff; exact C|].
  split; [exact R1'|]. split; [exact L1'|].
  split; [apply same_counters_iff; exact C'|].
  split; [exact G | exact F].
Qed.

Lemma Update_recomputes_counters_witness :
  heap exUpdateState !! 2%positive = Some exChildBlock /\
  parent_ok exUpdateState exChildBlock /\
  Forall (fun op => op_ok (Block.Params_ exChildBlock) op = true) (Block.Ops exChildBlock) /\
  exists s' b',
    Update 2%positive exAccounts ∅ exUpdateState = (s', Ok tt) /\
    heap s' !! 2%positive = Some b' /\
    Block.GasUsed b' = sumGasUsed (Block.Ops exChildBlock) /\
    Block.NOpsFailed b' = countFailed (Block.Ops exChildBlock).
Proof.
  assert (H1 : heap exUpdateState !! 2%positive = Some exChildBlock) by reflexivity.
  assert (H2 : parent_ok exUpdateState exChildBlock).
  { exists exParentBlock. reflexivity. }
  assert (H3 : Forall (fun op => op_ok (Block.Params_ exChildBlock) op = true)
                      (Block.Ops exChildBlock)).
  { repeat constructor. }
  split; [exact H1|]. split; [exact H2|]. split; [exact H3|].
  destruct (Update_recomputes_counters exUpdateState exUpdateState 2%positive 2%positive
              exChildBlock exChildBlock exAccounts ∅ H1 H1 H2 H2 eq_refl eq_refl eq_refl H3)
    as (s1' & s2' & s1'' & b1' & b2' & b1'' & R & R2 & L & L2 & C & R' & L' & C' & G & F).
  exists s1', b1'. split; [exact R|]. split; [exact L|]. split; [exact G | exact F].
Defined.

(** Claim C9.  [Update] returns on every block whose ops carry the raw
    data the loop reads.  With a parent that is another block, it stores
    the endorsement power of the block's own endorsement ops in the
    parent's [NSlotsEndorsed], changes nothing else in the parent, and
    leaves the block's own [NSlotsEndorsed] and every third block as they
    were.  Without a parent the computed total is dropped: the block keeps
    its [NSlotsEndorsed] and every other block is unchanged. *)
Theorem Update_parent_slots (s : State) (p : positive) (b : Block.t)
    (accounts : gmap AccountID Account.t) (bakers : gmap AccountID Baker.t) :
  heap s !! p = Some b ->
  parent_ok s b ->
  Forall (fun op => op_ok (Block.Params_ b) op = true) (Block.Ops b) ->
  exists s' b',
    Update p accounts bakers s = (s', Ok tt) /\
    heap s' !! p = Some b' /\
    match Block.Parent b with
    | Some q =>
        q <> p ->
        (exists pb,
           heap s !! q = Some pb /\
           heap s' !! q = Some (Block.set_NSlotsEndorsed (endorsedPower (Block.Ops b)) pb)) /\
        Block.NSlotsEndorsed b' = Block.NSlotsEndorsed b /\
        (forall r, r <> p -> r <> q -> heap s' !! r = heap s !! r)
    | None =>
        Block.NSlotsEndorsed b' = Block.NSlotsEndorsed b /\
        (forall r, r <> p -> heap s' !! r = heap s !! r)
    end.
Proof.
  intros Hp Hpar Hok. unfold Update.
  destruct (Update_ops_total (Block.Ops b) (Update_init b) 0) as [[x e] E].
  { exact Hok. }
  destruct (Update_entries_run s p b x e (map_to_list accounts).*2 (map_to_list bakers).*2
              Hp Hpar E)
    as (s' & m & R & L & C & H & P & O & Q & F).
  pose proof (Update_ops_endorsed _ _ _ _ _ E) as He.
  change (endorsedFrom 0 (Block.Ops b)) with (endorsedPower (Block.Ops b)) in He.
  pose proof (foldl_Update_baker_untouched (map_to_list bakers).*2
                (foldl Update_account m (map_to_list accounts).*2)) as UB.
  rewrite foldl_Update_account_untouched in UB. unfold untouched in UB.
  injection UB as _ _ _ _ Uslots.
  eexists s', _. split; [exact R|]. split; [exact L|].
  destruct (Block.Parent b) as [q|].
  - intros Hne. destruct F as [F1 F2]. destruct (F1 Hne) as (Hs & pb & Hq & Hq').
    split; [|split].
    + exists pb. rewrite <- He. split; assumption.
    + rewrite Uslots. exact Hs.
    + exact F2.
  - destruct F as [Hs F2]. split; [|exact F2]. rewrite Uslots. exact Hs.
Qed.

Lemma Update_parent_slots_witness :
  heap exUpdateState !! 2%positive = Some exChildBlock /\
  parent_ok exUpdateState exChildBlock /\
  Forall (fun op => op_ok (Block.Params_ exChildBlock) op = true) (Block.Ops exChildBlock) /\
  exists s' b',
    Update 2%positive exAccounts ∅ exUpdateState = (s', Ok tt) /\
    heap s' !! 2%positive = Some b' /\
    (exists pb,
       heap exUpdateState !! 1%positive = Some pb /\
       heap s' !! 1%positive
       = Some (Block.set_NSlotsEndorsed (endorsedPower (Block.Ops exChildBlock)) pb)) /\
    Block.NSlotsEndorsed b' = Block.NSlotsEndorsed exChildBlock.
Proof.
  assert (H1 : heap exUpdateState !! 2%positive = Some exChildBlock) by reflexivity.
  assert (H2 : parent_ok exUpdateState exChildBlock).
  { exists exParentBlock. reflexivity. }
  assert (H3 : Forall (fun op => op_ok (Block.Params_ exChildBlock) op = true)
                      (Block.Ops exChildBlock)).
  { repeat constructor. }
  split; [exact H1|]. split; [exact H2|]. split; [exact H3|].
  destruct (Update_parent_slots exUpdateState 2%positive exChildBlock exAccounts ∅ H1 H2 H3)
    as (s' & b' & R & L & F).
  cbn [exChildBlock Block.Parent Block.set_Ops Block.set_Parent] in F.
  destruct (F ltac:(discriminate)) as (Hq & Hs & _).
  exists s', b'. split; [exact R|]. split; [exact L|]. split; [exact Hq | exact Hs].
Defined.

Example Update_example :
  exists s' b' pb',
    Update 2%positive exAccounts ∅ exUpdateState = (s', Ok tt) /\
    heap s' !! 2%positive = Some b' /\ heap s' !! 1%positive = Some pb' /\
    Block.NSlotsEndorsed pb' = 8 /\ Block.NSlotsEndorsed b' = 0 /\
    Block.NOpsFailed b' = 1 /\ Block.NOpsApplied b' = 2 /\ Block.GasUsed b' = 10207 /\
    Block.MintedSupply b' = 2500000 /\ Block.NewAccounts b' = 1 /\
    Block.SeenAccounts b' = 1 /\ Block.FundedAccounts b' = 1.
Proof. eexists _, _, _. vm_compute. repeat split. Qed.

(** ** [AppendImplicitEvents] *)

(** An iteration leaves the array alone or stores one Op at the position
    of the flow: a new one for an empty slot, or the Op of the slot with
    its identity kept. *)
Lemma implicitEvent_shape (EVENTS : Z) (blk : Block.t) (ops ops' : list (option Op.t))
    (f : Flow.t) :
  implicitEvent EVENTS blk ops f = Some ops' ->
  ops' = ops \/
  (0 <= Flow.OpN f < Z.of_nat (length ops) /\
   exists o',
     ops' = <[Z.to_nat (Flow.OpN f) := Some o']> ops /\
     ((slot ops (Flow.OpN f) = None /\
       Op.OpN o' = Flow.OpN f /\ Op.OpL o' = EVENTS /\ Op.OpP o' = Flow.OpN f /\
       Op.ReceiverId o' = Flow.AccountId f) \/
      (exists o, slot ops (Flow.OpN f) = Some o /\ identity o' = identity o))).
Proof.
  unfold implicitEvent. cbv zeta. intros H.
  destruct ((Flow.OpN f <? 0) || (Z.of_nat (length ops) <=? Flow.OpN f)) eqn:G.
  { left. congruence. }
  apply orb_false_iff in G. destruct G as [G1 G2].
  apply Z.ltb_ge in G1. apply Z.leb_gt in G2.
  destruct (slot ops (Flow.OpN f)) as [o|] eqn:S.
  - destruct (Flow.Operation f); repeat case_match; simplify_eq;
      first [ left; reflexivity
            | right; split; [lia|]; eexists; split; [reflexivity|];
              right; exists o; split; reflexivity ].
  - destruct (Flow.Operation f); repeat case_match; simplify_eq;
      first [ left; reflexivity
            | right; split; [lia|]; eexists; split; [reflexivity|];
              left; repeat split; reflexivity ].
Qed.

Lemma slot_Some (ops : list (option Op.t)) (n : Z) (o : Op.t) :
  slot ops n = Some o -> ops !! Z.to_nat n = Some (Some o).
Proof.
  unfold slot. destruct (ops !! Z.to_nat n) as [[x|]|]; intros H; congruence.
Qed.

Lemma identity_position (o o' : Op.t) :
  identity o' = identity o ->
  Op.OpN o' = Op.OpN o /\ Op.OpL o' = Op.OpL o /\ Op.OpP o' = Op.OpP o.
Proof. unfold identity. intros H. injection H as _ _ _ H1 H2 H3. auto. Qed.

Lemma implicitEvent_length (EVENTS : Z) (blk : Block.t) (ops ops' : list (option Op.t))
    (f : Flow.t) :
  implicitEvent EVENTS blk ops f = Some ops' -> length ops' = length ops.
Proof.
  intros H. destruct (implicitEvent_shape _ _ _ _ _ H) as [-> | (_ & o' & -> & _)].
  - reflexivity.
  - apply length_insert.
Qed.

Lemma implicitEvent_slots_ok (EVENTS : Z) (blk : Block.t) (ops ops' : list (option Op.t))
    (seen : list Flow.t) (f : Flow.t) :
  implicitEvent EVENTS blk ops f = Some ops' ->
  slots_ok EVENTS seen ops -> slots_ok EVENTS (seen ++ [f]) ops'.
Proof.
  intros H Hinv.
  assert (Hweak : slots_ok EVENTS (seen ++ [f]) ops).
  { intros i o Hi. destruct (Hinv i o Hi) as (A & B & C & g & Hg & Hn).
    repeat split; try assumption. exists g. split; [apply in_or_app; left; exact Hg | exact Hn]. }
  destruct (implicitEvent_shape _ _ _ _ _ H) as [-> | (Hr & o' & -> & Hcase)];
    [exact Hweak|].
  intros i o Hi.
  destruct (decide (i = Z.to_nat (Flow.OpN f))) as [->|Hne].
  - rewrite list_lookup_insert_eq in Hi by lia. injection Hi as <-.
    rewrite Z2Nat.id by lia.
    destruct Hcase as [(_ & A & B & C & _) | (o0 & Hs & Hid)].
    + repeat split; try assumption.
      exists f. split; [apply in_or_app; right; left; reflexivity | reflexivity].
    + destruct (identity_position _ _ Hid) as (A & B & C).
      destruct (Hinv _ _ (slot_Some _ _ _ Hs)) as (A' & B' & C' & _).
      rewrite Z2Nat.id in A', C' by lia.
      repeat split; try congruence.
      exists f. split; [apply in_or_app; right; left; reflexivity | reflexivity].
  - rewrite list_lookup_insert_ne in Hi by congruence. exact (Hweak i o Hi).
Qed.

Lemma implicitEvents_slots_ok (EVENTS : Z) (blk : Block.t) (flows : list Flow.t) :
  forall ops ops' seen,
    implicitEvents EVENTS blk ops flows = Some ops' ->
    slots_ok EVENTS seen ops ->
    slots_ok EVENTS (seen ++ flows) ops' /\ length ops' = length ops.
Proof.
  induction flows as [|f flows IH]; intros ops ops' seen H Hinv; cbn [implicitEvents] in H.
  - injection H as <-. rewrite app_nil_r. auto.
  - destruct (implicitEvent EVENTS blk ops f) as [ops1|] eqn:E; [|discriminate].
    destruct (IH ops1 ops' (seen ++ [f]) H (implicitEvent_slots_ok _ _ _ _ _ _ E Hinv))
      as [Hok Hlen].
    rewrite <- app_assoc in Hok. split; [exact Hok|].
    rewrite Hlen. exact (implicitEvent_length _ _ _ _ _ E).
Qed.

Lemma slots_ok_replicate (EVENTS : Z) (n : nat) : slots_ok EVENTS [] (replicate n None).
Proof.
  intros i o Hi. apply lookup_replicate in Hi. destruct Hi as [Hi _]. discriminate.
Qed.

Lemma elem_of_compact (ops : list (option Op.t)) (o : Op.t) :
  o ∈ compact ops <-> exists i, ops !! i = Some (Some o).
Proof.
  unfold compact. rewrite list_elem_of_omap. split.
  - intros (x & Hx & Hid). cbn in Hid. subst x.
    apply list_elem_of_lookup in Hx. exact Hx.
  - intros (i & Hi). exists (Some o). split; [|reflexivity].
    apply list_elem_of_lookup. exists i. exact Hi.
Qed.

Lemma implicitEvent_total (EVENTS : Z) (blk : Block.t) (ops : list (option Op.t)) (f : Flow.t) :
  is_Some (Block.Params_ blk) -> is_Some (implicitEvent EVENTS blk ops f).
Proof.
  intros [params Hp]. unfold implicitEvent. cbv zeta. rewrite Hp.
  repeat case_match; eexists; reflexivity.
Qed.

Lemma implicitEvents_total (EVENTS : Z) (blk : Block.t) (flows : list Flow.t) : forall ops,
  is_Some (Block.Params_ blk) -> is_Some (implicitEvents EVENTS blk ops flows).
Proof.
  induction flows as [|f flows IH]; intros ops Hp; cbn [implicitEvents].
  - eexists. reflexivity.
  - destruct (implicitEvent_total EVENTS blk ops f Hp) as [ops1 E]. rewrite E.
    apply IH. exact Hp.
Qed.

(** Claim C5.  With no implicit flow [AppendImplicitEvents] returns the
    builder as it is: no Op and no Flow is added.  Otherwise, when it
    returns, the flows are appended to the flows of the block and the Ops
    appended to the block are the non-nil slots of the sparse array: each
    of them sits in the list of block events at the position of one of
    the flows, so no Op is appended for a position without a flow.  The
    function returns whenever the constants of the block are at hand and
    the position of the last flow yields a valid array length. *)
Theorem AppendImplicitEvents_compaction (EVENTS : Z) (b : Builder) (flows : list Flow.t) :
  AppendImplicitEvents EVENTS b [] = Ok b /\
  (forall b',
     AppendImplicitEvents EVENTS b flows = Ok b' ->
     flows <> [] ->
     exists new,
       Block.Ops (block b') = Block.Ops (block b) ++ new /\
       Block.Flows (block b') = Block.Flows (block b) ++ flows /\
       (forall o, o ∈ new ->
          Op.OpL o = EVENTS /\ Op.OpP o = Op.OpN o /\
          exists f, In f flows /\ Flow.OpN f = Op.OpN o) /\
       (forall n, (forall f, In f flows -> Flow.OpN f <> n) ->
          forall o, o ∈ new -> Op.OpN o <> n)) /\
  (is_Some (Block.Params_ (block b)) ->
   (forall lastFlow, last flows = Some lastFlow -> 0 <= add64 (Flow.OpN lastFlow) 1) ->
   exists b', AppendImplicitEvents EVENTS b flows = Ok b').
Proof.
  split; [reflexivity|]. split.
  - intros b' H Hne. unfold AppendImplicitEvents in H.
    destruct (last flows) as [lastFlow|] eqn:El.
    2:{ apply last_None in El. contradiction. }
    destruct (add64 (Flow.OpN lastFlow) 1 <? 0) eqn:Elen; [discriminate|].
    set (blk := Block.set_Flows (Block.Flows (block b) ++ flows) (block b)) in *.
    destruct (implicitEvents EVENTS blk
                (replicate (Z.to_nat (add64 (Flow.OpN lastFlow) 1)) None) flows)
      as [ops|] eqn:E; [|discriminate].
    injection H as <-.
    destruct (implicitEvents_slots_ok EVENTS blk flows _ _ [] E (slots_ok_replicate _ _))
      as [Hok _].
    cbn [app] in Hok.
    assert (Hnew : forall o, o ∈ compact ops ->
              Op.OpL o = EVENTS /\ Op.OpP o = Op.OpN o /\
              exists f, In f flows /\ Flow.OpN f = Op.OpN o).
    { intros o Ho. apply elem_of_compact in Ho. destruct Ho as [i Hi].
      destruct (Hok i o Hi) as (A & B & C & g & Hg & Hn).
      split; [exact B|]. split; [congruence|]. exists g. split; [exact Hg | congruence]. }
    exists (compact ops). split; [reflexivity|]. split; [reflexivity|].
    split; [exact Hnew|].
    intros n Hn o Ho Heq. destruct (Hnew o Ho) as (_ & _ & g & Hg & Hgn).
    apply (Hn g Hg). congruence.
  - intros Hp Hlen. unfold AppendImplicitEvents.
    destruct (last flows) as [lastFlow|] eqn:El; [|eexists; reflexivity].
    specialize (Hlen lastFlow eq_refl).
    destruct (add64 (Flow.OpN lastFlow) 1 <? 0) eqn:Elen; [lia|].
    set (blk := Block.set_Flows (Block.Flows (block b) ++ flows) (block b)).
    destruct (implicitEvents_total EVENTS blk flows
                (replicate (Z.to_nat (add64 (Flow.OpN lastFlow) 1)) None) Hp) as [ops E].
    rewrite E. eexists. reflexivity.
Qed.

Lemma AppendImplicitEvents_compaction_witness :
  let flows := [bakingFlow 7 3 FlowCategoryRewards 100; bakingFlow 7 5 FlowCategoryDeposits 200] in
  is_Some (Block.Params_ (block exBuilder)) /\
  (forall lastFlow, last flows = Some lastFlow -> 0 <= add64 (Flow.OpN lastFlow) 1) /\
  flows <> [] /\
  exists b' new,
    AppendImplicitEvents (-1) exBuilder flows = Ok b' /\
    Block.Ops (block b') = Block.Ops (block exBuilder) ++ new /\
    (forall o, o ∈ new -> Op.OpN o <> 4).
Proof.
  intros flows.
  assert (H1 : is_Some (Block.Params_ (block exBuilder))) by (eexists; reflexivity).
  assert (H2 : forall lastFlow, last flows = Some lastFlow -> 0 <= add64 (Flow.OpN lastFlow) 1).
  { intros lf Hl. injection Hl as <-. vm_compute. discriminate. }
  assert (H3 : flows <> []) by discriminate.
  split; [exact H1|]. split; [exact H2|]. split; [exact H3|].
  destruct (AppendImplicitEvents_compaction (-1) exBuilder flows) as (_ & Hsound & Htotal).
  destruct (Htotal H1 H2) as [b' Hb'].
  destruct (Hsound b' Hb' H3) as (new & Hops & _ & _ & Hnone).
  exists b', new. split; [exact Hb'|]. split; [exact Hops|].
  apply Hnone. intros f [<- | [<- | []]]; discriminate.
Defined.

Example AppendImplicitEvents_sparse_example :
  exists b',
    AppendImplicitEvents (-1) exBuilder
      [bakingFlow 7 3 FlowCategoryRewards 100; bakingFlow 7 5 FlowCategoryDeposits 200] = Ok b' /\
    map Op.OpN (Block.Ops (block b')) = [3; 5].
Proof. eexists. vm_compute. split; reflexivity. Qed.

(** ** [AppendImplicitEvents]: how flows at one position are merged *)

Lemma slot_lt (ops : list (option Op.t)) (n : Z) (o : Op.t) :
  slot ops n = Some o -> (Z.to_nat n < length ops)%nat.
Proof. intros H. apply slot_Some in H. apply lookup_lt_Some in H. exact H. Qed.

Lemma slot_insert (ops : list (option Op.t)) (n : Z) (o : Op.t) :
  (Z.to_nat n < length ops)%nat -> slot (<[Z.to_nat n := Some o]> ops) n = Some o.
Proof. intros H. unfold slot. rewrite list_lookup_insert_eq by exact H. reflexivity. Qed.

Lemma slot_insert_ne (ops : list (option Op.t)) (n m : Z) (x : option Op.t) :
  Z.to_nat n <> Z.to_nat m -> slot (<[Z.to_nat n := x]> ops) m = slot ops m.
Proof. intros H. unfold slot. rewrite list_lookup_insert_ne by exact H. reflexivity. Qed.

Lemma implicitEvent_guard (ops : list (option Op.t)) (n : Z) (o : Op.t) :
  slot ops n = Some o -> 0 <= n ->
  (n <? 0) || (Z.of_nat (length ops) <=? n) = false.
Proof.
  intros Hs Hn. apply slot_lt in Hs. apply orb_false_iff. split.
  - apply Z.ltb_ge. exact Hn.
  - apply Z.leb_gt. lia.
Qed.

Lemma implicitEvent_identity (EVENTS : Z) (blk : Block.t) (ops ops' : list (option Op.t))
    (f : Flow.t) (m : Z) (o : Op.t) :
  implicitEvent EVENTS blk ops f = Some ops' ->
  slot ops m = Some o -> 0 <= m ->
  exists o', slot ops' m = Some o' /\ identity o' = identity o.
Proof.
  intros H Hs Hm.
  destruct (implicitEvent_shape _ _ _ _ _ H) as [-> | (Hr & o' & -> & Hcase)].
  { exists o. auto. }
  destruct (decide (Flow.OpN f = m)) as [Heq|Hne].
  - subst m. exists o'. split; [apply slot_insert; apply (slot_lt _ _ _ Hs)|].
    destruct Hcase as [(Hnone & _) | (o0 & Hs0 & Hid)]; congruence.
  - exists o. split; [|reflexivity]. rewrite slot_insert_ne by lia. exact Hs.
Qed.

Lemma implicitEvents_identity (EVENTS : Z) (blk : Block.t) (flows : list Flow.t) :
  forall ops ops' m o,
    implicitEvents EVENTS blk ops flows = Some ops' ->
    slot ops m = Some o -> 0 <= m ->
    exists o', slot ops' m = Some o' /\ identity o' = identity o.
Proof.
  induction flows as [|f flows IH]; intros ops ops' m o H Hs Hm; cbn [implicitEvents] in H.
  - injection H as <-. exists o. auto.
  - destruct (implicitEvent EVENTS blk ops f) as [ops1|] eqn:E; [|discriminate].
    destruct (implicitEvent_identity _ _ _ _ _ _ _ E Hs Hm) as (o1 & Hs1 & Hid1).
    destruct (IH _ _ _ _ H Hs1 Hm) as (o' & Hs' & Hid').
    exists o'. split; [exact Hs' | congruence].
Qed.

Lemma implicitEvent_unfreeze (EVENTS : Z) (blk : Block.t) (ops : list (option Op.t))
    (f : Flow.t) (o : Op.t) :
  slot ops (Flow.OpN f) = Some o -> 0 <= Flow.OpN f ->
  Flow.Operation f = FlowTypeInternal -> Flow.IsUnfrozen f = true ->
  exists o',
    implicitEvent EVENTS blk ops f = Some (<[Z.to_nat (Flow.OpN f) := Some o']> ops) /\
    Op.Deposit o' = sumAmountOut isDeposits (Op.Deposit o) [f] /\
    Op.Reward o' = sumAmountOut isRewards (Op.Reward o) [f] /\
    Op.Fee o' = sumAmountOut isFees (Op.Fee o) [f].
Proof.
  intros Hs Hn Hop Hun. unfold implicitEvent. cbv zeta.
  rewrite (implicitEvent_guard _ _ _ Hs Hn), Hop, Hun, Hs.
  unfold sumAmountOut. cbn [foldl].
  destruct (Flow.Category f); eexists; (split; [reflexivity|]); repeat split; reflexivity.
Qed.

Lemma sumAmountOut_cons (cat : FlowCategory -> bool) (acc : Z) (f : Flow.t)
    (flows : list Flow.t) :
  sumAmountOut cat acc (f :: flows) = sumAmountOut cat (sumAmountOut cat acc [f]) flows.
Proof. reflexivity. Qed.

Lemma implicitEvents_unfreeze (EVENTS : Z) (blk : Block.t) (n : Z) (flows : list Flow.t) :
  forall ops o,
    0 <= n -> slot ops n = Some o ->
    Forall (fun f => Flow.OpN f = n /\ Flow.Operation f = FlowTypeInternal /\
                     Flow.IsUnfrozen f = true) flows ->
    exists ops' o',
      implicitEvents EVENTS blk ops flows = Some ops' /\
      slot ops' n = Some o' /\
      Op.Deposit o' = sumAmountOut isDeposits (Op.Deposit o) flows /\
      Op.Reward o' = sumAmountOut isRewards (Op.Reward o) flows /\
      Op.Fee o' = sumAmountOut isFees (Op.Fee o) flows.
Proof.
  induction flows as [|f flows IH]; intros ops o Hn Hs Hall; cbn [implicitEvents].
  - exists ops, o. repeat split; try reflexivity. exact Hs.
  - inversion Hall as [|? ? (Hfn & Hop & Hun) Hrest]; subst.
    destruct (implicitEvent_unfreeze EVENTS blk ops f o Hs Hn Hop Hun)
      as (o1 & E & D1 & R1 & F1).
    rewrite E.
    destruct (IH (<[Z.to_nat (Flow.OpN f) := Some o1]> ops) o1 Hn
                 (slot_insert _ _ _ (slot_lt _ _ _ Hs)) Hrest)
      as (ops' & o' & E' & Hs' & D' & R' & F').
    exists ops', o'. split; [exact E'|]. split; [exact Hs'|].
    rewrite !(sumAmountOut_cons _ _ f flows), <- D1, <- R1, <- F1. auto.
Qed.

Lemma implicitEvent_baking (EVENTS : Z) (blk : Block.t) (ops : list (option Op.t))
    (f : Flow.t) (o : Op.t) :
  slot ops (Flow.OpN f) = Some o -> 0 <= Flow.OpN f ->
  Flow.Operation f = FlowTypeBaking ->
  exists o',
    implicitEvent EVENTS blk ops f = Some (<[Z.to_nat (Flow.OpN f) := Some o']> ops) /\
    (Flow.Category f = FlowCategoryRewards ->
     Op.Reward o' = Flow.AmountIn f /\ Op.Deposit o' = Op.Deposit o /\ Op.Fee o' = Op.Fee o) /\
    (Flow.Category f = FlowCategoryDeposits ->
     Op.Deposit o' = Flow.AmountIn f /\ Op.Reward o' = Op.Reward o /\ Op.Fee o' = Op.Fee o) /\
    (Flow.Category f = FlowCategoryBalance -> Flow.IsFee f = true ->
     Op.Fee o' = add64 (Op.Fee o) (Flow.AmountIn f) /\ Op.Reward o' = Op.Reward o) /\
    (Flow.Category f = FlowCategoryBalance -> Flow.IsFee f = false ->
     Op.Reward o' = add64 (Op.Reward o) (Flow.AmountIn f) /\ Op.Fee o' = Op.Fee o).
Proof.
  intros Hs Hn Hop. unfold implicitEvent. cbv zeta.
  rewrite (implicitEvent_guard _ _ _ Hs Hn), Hop, Hs.
  destruct (Flow.Category f), (Flow.IsFee f); eexists; (split; [reflexivity|]);
    repeat split; first [discriminate | reflexivity].
Qed.

Lemma implicitEvent_bonus (EVENTS : Z) (blk : Block.t) (ops : list (option Op.t))
    (f : Flow.t) (o : Op.t) :
  slot ops (Flow.OpN f) = Some o -> 0 <= Flow.OpN f ->
  Flow.Operation f = FlowTypeBonus ->
  exists o',
    implicitEvent EVENTS blk ops f = Some (<[Z.to_nat (Flow.OpN f) := Some o']> ops) /\
    Op.Reward o' = add64 (Op.Reward o) (Flow.AmountIn f).
Proof.
  intros Hs Hn Hop. unfold implicitEvent. cbv zeta.
  rewrite (implicitEvent_guard _ _ _ Hs Hn), Hop, Hs.
  eexists. split; reflexivity.
Qed.

Lemma implicitEvent_ignored (EVENTS : Z) (blk : Block.t) (ops ops' : list (option Op.t))
    (f : Flow.t) (o : Op.t) :
  slot ops (Flow.OpN f) = Some o ->
  Flow.Operation f = FlowTypeInvoice \/ Flow.Operation f = FlowTypeReward \/
  Flow.Operation f = FlowTypeDeposit ->
  implicitEvent EVENTS blk ops f = Some ops' -> ops' = ops.
Proof.
  intros Hs Hop. unfold implicitEvent. cbv zeta. rewrite Hs.
  destruct Hop as [-> | [-> | ->]]; repeat case_match; congruence.
Qed.

(** * Further properties

    ** [AppendImplicitEvents]: how flows merge into Ops *)

Lemma implicitEvent_baking_new (EVENTS : Z) (blk : Block.t) (ops : list (option Op.t))
    (f : Flow.t) :
  slot ops (Flow.OpN f) = None -> 0 <= Flow.OpN f < Z.of_nat (length ops) ->
  Flow.Operation f = FlowTypeBaking ->
  exists o',
    implicitEvent EVENTS blk ops f = Some (<[Z.to_nat (Flow.OpN f) := Some o']> ops) /\
    identity o'
    = (OpTypeBake, Flow.AccountId f, Flow.AccountId f, Flow.OpN f, EVENTS, Flow.OpN f) /\
    (Flow.Category f = FlowCategoryRewards ->
     Op.Reward o' = Flow.AmountIn f /\ Op.Deposit o' = 0 /\ Op.Fee o' = 0) /\
    (Flow.Category f = FlowCategoryDeposits ->
     Op.Deposit o' = Flow.AmountIn f /\ Op.Reward o' = 0 /\ Op.Fee o' = 0).
Proof.
  intros Hs Hn Hop. unfold implicitEvent. cbv zeta.
  replace ((Flow.OpN f <? 0) || (Z.of_nat (length ops) <=? Flow.OpN f)) with false
    by (symmetry; apply orb_false_iff; split; [apply Z.ltb_ge | apply Z.leb_gt]; lia).
  rewrite Hop, Hs.
  destruct (Flow.Category f), (Flow.IsFee f); eexists; (split; [reflexivity|]);
    (split; [reflexivity|]); split; intros Hc; first [discriminate | repeat split; reflexivity].
Qed.

Lemma compact_replicate (n : nat) : compact (replicate n None) = [].
Proof. induction n as [|n IH]; [reflexivity|]. exact IH. Qed.

Lemma compact_single (n i : nat) (o : Op.t) :
  (i < n)%nat -> compact (<[i := Some o]> (replicate n None)) = [o].
Proof.
  intros H. rewrite insert_replicate_lt by exact H. unfold compact.
  rewrite omap_app. change (omap id (replicate i None)) with (compact (replicate i None)).
  rewrite compact_replicate. cbn.
  change (omap id (replicate (n - S i) None)) with (compact (replicate (n - S i) None)).
  rewrite compact_replicate. reflexivity.
Qed.

(** Extra X1.  Two baking flows at one position, one of rewards and
    one of deposits, in either order, make [AppendImplicitEvents] append
    exactly one Op: a bake Op at that position of the list of block
    events, sent and received by the account of the first flow, whose
    Reward and Deposit are the amounts of the two flows. *)
Theorem AppendImplicitEvents_two_baking (EVENTS : Z) (b : Builder) (f1 f2 : Flow.t)
    (n r d : Z) :
  Flow.Operation f1 = FlowTypeBaking -> Flow.Operation f2 = FlowTypeBaking ->
  Flow.OpN f1 = n -> Flow.OpN f2 = n -> 0 <= n < two63 - 1 ->
  (Flow.Category f1 = FlowCategoryRewards /\ Flow.AmountIn f1 = r /\
   Flow.Category f2 = FlowCategoryDeposits /\ Flow.AmountIn f2 = d) \/
  (Flow.Category f1 = FlowCategoryDeposits /\ Flow.AmountIn f1 = d /\
   Flow.Category f2 = FlowCategoryRewards /\ Flow.AmountIn f2 = r) ->
  exists b' o,
    AppendImplicitEvents EVENTS b [f1; f2] = Ok b' /\
    Block.Ops (block b') = Block.Ops (block b) ++ [o] /\
    identity o = (OpTypeBake, Flow.AccountId f1, Flow.AccountId f1, n, EVENTS, n) /\
    Op.Reward o = r /\ Op.Deposit o = d.
Proof.
  intros Hop1 Hop2 Hn1 Hn2 Hn Hcat.
  unfold AppendImplicitEvents. cbn [last]. rewrite Hn2.
  rewrite add64_exact by (unfold int64_range, two63 in *; lia).
  replace (n + 1 <? 0) with false by (symmetry; apply Z.ltb_ge; lia).
  set (blk := Block.set_Flows (Block.Flows (block b) ++ [f1; f2]) (block b)).
  set (ops0 := replicate (Z.to_nat (n + 1)) (@None Op.t)).
  assert (Hlen : length ops0 = Z.to_nat (n + 1)) by apply length_replicate.
  assert (Hs0 : slot ops0 (Flow.OpN f1) = None).
  { unfold slot, ops0. rewrite Hn1. rewrite lookup_replicate_2 by lia. reflexivity. }
  destruct (implicitEvent_baking_new EVENTS blk ops0 f1 Hs0 ltac:(lia) Hop1)
    as (o1 & E1 & Id1 & R1 & D1).
  assert (Hs1 : slot (<[Z.to_nat (Flow.OpN f1) := Some o1]> ops0) (Flow.OpN f2) = Some o1).
  { rewrite Hn1, Hn2. apply slot_insert. lia. }
  destruct (implicitEvent_baking EVENTS blk _ f2 o1 Hs1 ltac:(lia) Hop2)
    as (o2 & E2 & R2 & D2 & _).
  cbn [implicitEvents]. rewrite E1, E2. rewrite Hn1, Hn2, list_insert_insert_eq.
  unfold ops0. rewrite compact_single by lia.
  eexists _, o2. split; [reflexivity|]. split; [reflexivity|].
  destruct (implicitEvent_identity EVENTS blk _ _ f2 (Flow.OpN f2) o1 E2 Hs1 ltac:(lia))
    as (o2' & Hs2 & Id2).
  rewrite Hn1, Hn2, list_insert_insert_eq in Hs2. rewrite slot_insert in Hs2 by lia.
  injection Hs2 as <-. rewrite Hn1 in Id1.
  split; [congruence|].
  destruct Hcat as [(C1 & A1 & C2 & A2) | (C1 & A1 & C2 & A2)].
  - destruct (R1 C1) as (X1 & X2 & X3). destruct (D2 C2) as (Y1 & Y2 & Y3).
    split; congruence.
  - destruct (D1 C1) as (X1 & X2 & X3). destruct (R2 C2) as (Y1 & Y2 & Y3).
    split; congruence.
Qed.

Lemma implicitEvent_unfreeze_new (EVENTS : Z) (blk : Block.t) (ops : list (option Op.t))
    (f : Flow.t) :
  slot ops (Flow.OpN f) = None -> 0 <= Flow.OpN f < Z.of_nat (length ops) ->
  Flow.Operation f = FlowTypeInternal -> Flow.IsUnfrozen f = true ->
  exists o',
    implicitEvent EVENTS blk ops f = Some (<[Z.to_nat (Flow.OpN f) := Some o']> ops) /\
    identity o'
    = (OpTypeUnfreeze, Flow.AccountId f, Flow.AccountId f, Flow.OpN f, EVENTS, Flow.OpN f) /\
    Op.Deposit o' = sumAmountOut isDeposits 0 [f] /\
    Op.Reward o' = sumAmountOut isRewards 0 [f] /\
    Op.Fee o' = sumAmountOut isFees 0 [f].
Proof.
  intros Hs Hn Hop Hun. unfold implicitEvent. cbv zeta.
  replace ((Flow.OpN f <? 0) || (Z.of_nat (length ops) <=? Flow.OpN f)) with false
    by (symmetry; apply orb_false_iff; split; [apply Z.ltb_ge | apply Z.leb_gt]; lia).
  rewrite Hop, Hun, Hs. unfold sumAmountOut. cbn [foldl].
  destruct (Flow.Category f); eexists; (split; [reflexivity|]);
    (split; [reflexivity|]); (split; [reflexivity|]); split; reflexivity.
Qed.

Lemma implicitEvents_unfreeze_at (EVENTS : Z) (blk : Block.t) (n : Z) (flows : list Flow.t) :
  forall ops o,
    0 <= n -> (Z.to_nat n < length ops)%nat ->
    Forall (fun f => Flow.OpN f = n /\ Flow.Operation f = FlowTypeInternal /\
                     Flow.IsUnfrozen f = true) flows ->
    exists o',
      implicitEvents EVENTS blk (<[Z.to_nat n := Some o]> ops) flows
      = Some (<[Z.to_nat n := Some o']> ops) /\
      identity o' = identity o /\
      Op.Deposit o' = sumAmountOut isDeposits (Op.Deposit o) flows /\
      Op.Reward o' = sumAmountOut isRewards (Op.Reward o) flows /\
      Op.Fee o' = sumAmountOut isFees (Op.Fee o) flows.
Proof.
  induction flows as [|f flows IH]; intros ops o Hn Hlt Hall; cbn [implicitEvents].
  - exists o. repeat split; reflexivity.
  - inversion Hall as [|? ? (Hfn & Hop & Hun) Hrest]; subst.
    assert (Hs : slot (<[Z.to_nat (Flow.OpN f) := Some o]> ops) (Flow.OpN f) = Some o)
      by (apply slot_insert; exact Hlt).
    destruct (implicitEvent_unfreeze EVENTS blk _ f o Hs Hn Hop Hun)
      as (o1 & E & D1 & R1 & F1).
    pose proof (implicitEvent_identity EVENTS blk _ _ f (Flow.OpN f) o E Hs Hn)
      as (o1' & Hs1 & Id1).
    rewrite list_insert_insert_eq in E, Hs1. rewrite slot_insert in Hs1 by exact Hlt.
    injection Hs1 as <-. rewrite E.
    destruct (IH ops o1 Hn Hlt Hrest) as (o' & E' & Id' & D' & R' & F').
    exists o'. split; [exact E'|]. split; [congruence|].
    rewrite !(sumAmountOut_cons _ _ f flows), <- D1, <- R1, <- F1. auto.
Qed.

Lemma two63_bounds (n : Z) :
  0 <= n < two63 - 1 -> add64 n 1 = n + 1 /\ (n + 1 <? 0) = false.
Proof.
  intros H. split.
  - apply add64_exact. unfold int64_range, two63 in *. lia.
  - apply Z.ltb_ge. lia.
Qed.

Lemma AppendImplicitEvents_two_baking_witness :
  let f1 := bakingFlow 7 3 FlowCategoryRewards 100 in
  let f2 := bakingFlow 7 3 FlowCategoryDeposits 200 in
  0 <= 3 < two63 - 1 /\
  exists b' o,
    AppendImplicitEvents (-1) exBuilder [f1; f2] = Ok b' /\
    Block.Ops (block b') = Block.Ops (block exBuilder) ++ [o] /\
    identity o = (OpTypeBake, 7, 7, 3, -1, 3) /\
    Op.Reward o = 100 /\ Op.Deposit o = 200.
Proof.
  intros f1 f2.
  assert (H : 0 <= 3 < two63 - 1) by (unfold two63; lia).
  split; [exact H|].
  exact (AppendImplicitEvents_two_baking (-1) exBuilder f1 f2 3 100 200
           eq_refl eq_refl eq_refl eq_refl H
           (or_introl (conj eq_refl (conj eq_refl (conj eq_refl eq_refl))))).
Defined.

(** Extra X2.  Several baking flows of one category at one position do
    not add up: a later flow of category rewards (deposits) overwrites the
    Reward (Deposit) the earlier one wrote, so two such flows leave one
    bake Op that carries the amount of the second flow only. *)
Theorem AppendImplicitEvents_baking_last_wins (EVENTS : Z) (b : Builder) (f1 f2 : Flow.t)
    (n : Z) :
  Flow.Operation f1 = FlowTypeBaking -> Flow.Operation f2 = FlowTypeBaking ->
  Flow.OpN f1 = n -> Flow.OpN f2 = n -> 0 <= n < two63 - 1 ->
  Flow.Category f1 = Flow.Category f2 ->
  exists b' o,
    AppendImplicitEvents EVENTS b [f1; f2] = Ok b' /\
    Block.Ops (block b') = Block.Ops (block b) ++ [o] /\
    (Flow.Category f2 = FlowCategoryRewards -> Op.Reward o = Flow.AmountIn f2) /\
    (Flow.Category f2 = FlowCategoryDeposits -> Op.Deposit o = Flow.AmountIn f2).
Proof.
  intros Hop1 Hop2 Hn1 Hn2 Hn Hcat.
  destruct (two63_bounds n Hn) as [Hadd Hneg].
  unfold AppendImplicitEvents. cbn [last]. rewrite Hn2, Hadd, Hneg.
  set (blk := Block.set_Flows (Block.Flows (block b) ++ [f1; f2]) (block b)).
  set (ops0 := replicate (Z.to_nat (n + 1)) (@None Op.t)).
  assert (Hlen : length ops0 = Z.to_nat (n + 1)) by apply length_replicate.
  assert (Hs0 : slot ops0 (Flow.OpN f1) = None).
  { unfold slot, ops0. rewrite Hn1. rewrite lookup_replicate_2 by lia. reflexivity. }
  destruct (implicitEvent_baking_new EVENTS blk ops0 f1 Hs0 ltac:(lia) Hop1)
    as (o1 & E1 & _).
  assert (Hs1 : slot (<[Z.to_nat (Flow.OpN f1) := Some o1]> ops0) (Flow.OpN f2) = Some o1).
  { rewrite Hn1, Hn2. apply slot_insert. lia. }
  destruct (implicitEvent_baking EVENTS blk _ f2 o1 Hs1 ltac:(lia) Hop2)
    as (o2 & E2 & R2 & D2 & _).
  cbn [implicitEvents]. rewrite E1, E2. rewrite Hn1, Hn2, list_insert_insert_eq.
  unfold ops0. rewrite compact_single by lia.
  eexists _, o2. split; [reflexivity|]. split; [reflexivity|].
  split; intros Hc; [apply (R2 Hc) | apply (D2 Hc)].
Qed.

Lemma AppendImplicitEvents_baking_last_wins_witness :
  let f1 := bakingFlow 7 3 FlowCategoryRewards 100 in
  let f2 := bakingFlow 7 3 FlowCategoryRewards 50 in
  0 <= 3 < two63 - 1 /\
  exists b' o,
    AppendImplicitEvents (-1) exBuilder [f1; f2] = Ok b' /\
    Block.Ops (block b') = Block.Ops (block exBuilder) ++ [o] /\
    Op.Reward o = 50.
Proof.
  intros f1 f2.
  assert (H : 0 <= 3 < two63 - 1) by (unfold two63; lia).
  split; [exact H|].
  destruct (AppendImplicitEvents_baking_last_wins (-1) exBuilder f1 f2 3
              eq_refl eq_refl eq_refl eq_refl H eq_refl) as (b' & o & R & L & Hr & _).
  exists b', o. split; [exact R|]. split; [exact L|]. exact (Hr eq_refl).
Defined.

(** Extra X3.  Unfreeze flows (internal flows flagged unfrozen) at one
    position do add up: however many there are, [AppendImplicitEvents]
    appends one unfreeze Op at that position whose Deposit, Reward and Fee
    are the sums, in 64-bit arithmetic from 0, of the outgoing amounts of
    the flows of category deposits, rewards and fees. *)
Theorem AppendImplicitEvents_unfreeze_sums (EVENTS : Z) (b : Builder) (n : Z)
    (f : Flow.t) (flows : list Flow.t) :
  0 <= n < two63 - 1 ->
  Forall (fun f => Flow.OpN f = n /\ Flow.Operation f = FlowTypeInternal /\
                   Flow.IsUnfrozen f = true) (f :: flows) ->
  exists b' o,
    AppendImplicitEvents EVENTS b (f :: flows) = Ok b' /\
    Block.Ops (block b') = Block.Ops (block b) ++ [o] /\
    Block.Flows (block b') = Block.Flows (block b) ++ f :: flows /\
    identity o = (OpTypeUnfreeze, Flow.AccountId f, Flow.AccountId f, n, EVENTS, n) /\
    Op.Deposit o = sumAmountOut isDeposits 0 (f :: flows) /\
    Op.Reward o = sumAmountOut isRewards 0 (f :: flows) /\
    Op.Fee o = sumAmountOut isFees 0 (f :: flows).
Proof.
  intros Hn Hall.
  destruct (two63_bounds n Hn) as [Hadd Hneg].
  assert (Hlast : exists lf, last (f :: flows) = Some lf /\ Flow.OpN lf = n).
  { destruct (last (f :: flows)) as [lf|] eqn:El.
    - exists lf. split; [reflexivity|].
      apply last_Some_elem_of in El. rewrite Forall_forall in Hall.
      exact (proj1 (Hall lf El)).
    - apply last_None in El. discriminate. }
  destruct Hlast as (lf & El & Hlf).
  unfold AppendImplicitEvents. rewrite El, Hlf, Hadd, Hneg. clear lf El Hlf.
  set (blk := Block.set_Flows (Block.Flows (block b) ++ f :: flows) (block b)).
  set (ops0 := replicate (Z.to_nat (n + 1)) (@None Op.t)).
  assert (Hlen : length ops0 = Z.to_nat (n + 1)) by apply length_replicate.
  apply Forall_cons in Hall. destruct Hall as ((Hfn & Hop & Hun) & Hrest).
  rewrite <- Hfn in Hrest.
  assert (Hs0 : slot ops0 (Flow.OpN f) = None).
  { unfold slot, ops0. rewrite lookup_replicate_2 by lia. reflexivity. }
  destruct (implicitEvent_unfreeze_new EVENTS blk ops0 f Hs0 ltac:(lia) Hop Hun)
    as (o1 & E1 & Id1 & D1 & R1 & F1).
  cbn [implicitEvents]. rewrite E1.
  destruct (implicitEvents_unfreeze_at EVENTS blk (Flow.OpN f) flows ops0 o1
              ltac:(lia) ltac:(lia) Hrest)
    as (o' & E' & Id' & D' & R' & F').
  rewrite E'. unfold ops0. rewrite compact_single by lia.
  eexists _, o'. split; [reflexivity|]. split; [reflexivity|]. split; [reflexivity|].
  split; [congruence|].
  rewrite !(sumAmountOut_cons _ _ f flows), <- D1, <- R1, <- F1. auto.
Qed.

Lemma AppendImplicitEvents_unfreeze_sums_witness :
  let f1 := unfreezeFlow 7 2 FlowCategoryDeposits 300 in
  let f2 := unfreezeFlow 7 2 FlowCategoryRewards 40 in
  let f3 := unfreezeFlow 7 2 FlowCategoryDeposits 5 in
  exists b' o,
    AppendImplicitEvents (-1) exBuilder [f1; f2; f3] = Ok b' /\
    Block.Ops (block b') = Block.Ops (block exBuilder) ++ [o] /\
    Op.Deposit o = 305 /\ Op.Reward o = 40 /\ Op.Fee o = 0.
Proof.
  intros f1 f2 f3.
  assert (H : 0 <= 2 < two63 - 1) by (unfold two63; lia).
  assert (Hall : Forall (fun f => Flow.OpN f = 2 /\ Flow.Operation f = FlowTypeInternal /\
                                  Flow.IsUnfrozen f = true) [f1; f2; f3]).
  { repeat constructor. }
  destruct (AppendImplicitEvents_unfreeze_sums (-1) exBuilder 2 f1 [f2; f3] H Hall)
    as (b' & o & R & L & _ & _ & D & Rw & F).
  exists b', o. split; [exact R|]. split; [exact L|].
  split; [exact D|]. split; [exact Rw|exact F].
Defined.

Lemma compact_sorted (ops : list (option Op.t)) : forall k,
  (forall i o, ops !! i = Some (Some o) -> Op.OpN o = Z.of_nat (k + i)) ->
  StronglySorted Z.lt (map Op.OpN (compact ops)) /\
  Forall (fun o => Z.of_nat k <= Op.OpN o < Z.of_nat (k + length ops)) (compact ops).
Proof.
  induction ops as [|x ops IH]; intros k H.
  - split; constructor.
  - destruct (IH (S k)) as [Hs Hb].
    { intros i o Hi. rewrite (H (S i) o Hi). f_equal. lia. }
    assert (Hb' : Forall (fun o => Z.of_nat k < Op.OpN o < Z.of_nat (k + length (x :: ops)))
                    (compact ops)).
    { eapply Forall_impl; [exact Hb|]. cbn [length]. intros o Ho. lia. }
    unfold compact in *. cbn [omap]. destruct x as [o|]; cbn [id mbind option_bind].
    + pose proof (H 0%nat o eq_refl) as H0. cbn [map]. split.
      * constructor; [exact Hs|]. apply Forall_map.
        eapply Forall_impl; [exact Hb'|]. intros o' Ho'. cbn beta in *. lia.
      * constructor.
        -- cbn [length]. lia.
        -- eapply Forall_impl; [exact Hb'|]. intros o' Ho'. cbn beta in *.
           cbn [length] in *. lia.
    + split; [exact Hs|]. eapply Forall_impl; [exact Hb'|]. intros o' Ho'. cbn beta in *.
      cbn [length] in *. lia.
Qed.

(** Extra X4.  The Ops [AppendImplicitEvents] appends come in strictly
    increasing position: no two of them share a position in the block,
    and every position lies between 0 and the position of the last
    flow. *)
Theorem AppendImplicitEvents_positions (EVENTS : Z) (b b' : Builder) (flows : list Flow.t)
    (lastFlow : Flow.t) :
  last flows = Some lastFlow -> int64_range (Flow.OpN lastFlow) ->
  AppendImplicitEvents EVENTS b flows = Ok b' ->
  exists new,
    Block.Ops (block b') = Block.Ops (block b) ++ new /\
    StronglySorted Z.lt (map Op.OpN new) /\
    Forall (fun o => 0 <= Op.OpN o <= Flow.OpN lastFlow) new.
Proof.
  intros El Hr H. unfold AppendImplicitEvents in H. rewrite El in H.
  destruct (add64 (Flow.OpN lastFlow) 1 <? 0) eqn:Elen; [discriminate|].
  apply Z.ltb_ge in Elen.
  assert (Hadd : add64 (Flow.OpN lastFlow) 1 = Flow.OpN lastFlow + 1).
  { destruct (Z.eq_dec (Flow.OpN lastFlow) (two63 - 1)) as [E|E].
    - exfalso. rewrite E in Elen. vm_compute in Elen. apply Elen. reflexivity.
    - apply add64_exact. unfold int64_range in *. lia. }
  rewrite Hadd in *.
  set (blk := Block.set_Flows (Block.Flows (block b) ++ flows) (block b)) in *.
  destruct (implicitEvents EVENTS blk (replicate (Z.to_nat (Flow.OpN lastFlow + 1)) None) flows)
    as [ops|] eqn:E; [|discriminate].
  injection H as <-.
  destruct (implicitEvents_slots_ok EVENTS blk flows _ _ [] E (slots_ok_replicate _ _))
    as [Hok Hlen].
  rewrite length_replicate in Hlen.
  destruct (compact_sorted ops 0) as [Hs Hb].
  { intros i o Hi. exact (proj1 (Hok i o Hi)). }
  exists (compact ops). split; [reflexivity|]. split; [exact Hs|].
  eapply Forall_impl; [exact Hb|]. intros o Ho. cbn beta in Ho. lia.
Qed.

Lemma AppendImplicitEvents_positions_witness :
  let flows := [bakingFlow 7 3 FlowCategoryRewards 100; unfreezeFlow 8 1 FlowCategoryFees 2;
                bakingFlow 9 4 FlowCategoryDeposits 1] in
  exists b' new,
    AppendImplicitEvents (-1) exBuilder flows = Ok b' /\
    Block.Ops (block b') = Block.Ops (block exBuilder) ++ new /\
    StronglySorted Z.lt (map Op.OpN new) /\
    Forall (fun o => 0 <= Op.OpN o <= 4) new.
Proof.
  intros flows.
  assert (Hr : int64_range 4) by (unfold int64_range, two63; lia).
  destruct (AppendImplicitEvents_positions (-1) exBuilder _ flows
              (bakingFlow 9 4 FlowCategoryDeposits 1) eq_refl Hr eq_refl)
    as (new & L & S & B).
  eexists _, new. split; [reflexivity|]. split; [exact L|]. split; [exact S|exact B].
Defined.

Lemma implicitEvents_empty (EVENTS : Z) (blk : Block.t) (flows : list Flow.t) :
  implicitEvents EVENTS blk [] flows = Some [].
Proof.
  induction flows as [|f flows IH]; cbn [implicitEvents]; [reflexivity|].
  assert (E : implicitEvent EVENTS blk [] f = Some []).
  { unfold implicitEvent. cbv zeta. cbn [length].
    destruct (Flow.OpN f <? 0) eqn:E1; [reflexivity|].
    apply Z.ltb_ge in E1.
    destruct (Z.of_nat 0 <=? Flow.OpN f) eqn:E2; [reflexivity|].
    apply Z.leb_gt in E2. lia. }
  rewrite E. exact IH.
Qed.

(** Extra X5.  The length of the sparse array is the position of the last
    flow plus one.  When that position is -1 the array is empty:
    [AppendImplicitEvents] appends the flows and no Op.  When it is below
    -1, or is the largest 64-bit integer so that the addition wraps, the
    length is negative and the function panics. *)
Theorem AppendImplicitEvents_last_position (EVENTS : Z) (b : Builder) (flows : list Flow.t)
    (lastFlow : Flow.t) :
  last flows = Some lastFlow -> int64_range (Flow.OpN lastFlow) ->
  (Flow.OpN lastFlow = -1 ->
   exists b', AppendImplicitEvents EVENTS b flows = Ok b' /\
              Block.Ops (block b') = Block.Ops (block b) /\
              Block.Flows (block b') = Block.Flows (block b) ++ flows) /\
  (Flow.OpN lastFlow < -1 \/ Flow.OpN lastFlow = two63 - 1 ->
   AppendImplicitEvents EVENTS b flows = Panic).
Proof.
  intros El Hr. unfold AppendImplicitEvents. rewrite El. split.
  - intros E. rewrite E. change (add64 (-1) 1) with 0. cbn [Z.ltb Z.compare Z.to_nat replicate].
    rewrite implicitEvents_empty. eexists. split; [reflexivity|].
    unfold compact. cbn [omap]. rewrite app_nil_r. split; reflexivity.
  - intros Hn.
    assert (Hneg : (add64 (Flow.OpN lastFlow) 1 <? 0) = true).
    { apply Z.ltb_lt. destruct Hn as [Hn|Hn].
      - rewrite add64_exact; unfold int64_range in *; lia.
      - rewrite Hn. vm_compute. reflexivity. }
    rewrite Hneg. reflexivity.
Qed.

Lemma AppendImplicitEvents_last_position_witness :
  let f := bakingFlow 7 (-1) FlowCategoryRewards 100 in
  let g := bakingFlow 7 (-2) FlowCategoryRewards 100 in
  (exists b', AppendImplicitEvents (-1) exBuilder [f] = Ok b' /\
              Block.Ops (block b') = Block.Ops (block exBuilder) /\
              Block.Flows (block b') = Block.Flows (block exBuilder) ++ [f]) /\
  AppendImplicitEvents (-1) exBuilder [f; g] = Panic.
Proof.
  intros f g.
  assert (Hf : int64_range (-1)) by (unfold int64_range, two63; lia).
  assert (Hg : int64_range (-2)) by (unfold int64_range, two63; lia).
  split.
  - exact (proj1 (AppendImplicitEvents_last_position (-1) exBuilder [f] f eq_refl Hf) eq_refl).
  - apply (proj2 (AppendImplicitEvents_last_position (-1) exBuilder [f; g] g eq_refl Hg)).
    left. cbn. lia.
Defined.

(** Extra X6.  An invoice flow makes an Op only from protocol version 9
    on: below it [AppendImplicitEvents] appends the flow and no Op; from
    version 9 on it appends one invoice Op sent by the account of the
    flow, whose Reward is the incoming amount of the flow.  On a block
    without its constants the function panics. *)
Theorem AppendImplicitEvents_invoice (EVENTS : Z) (b : Builder) (f : Flow.t) :
  Flow.Operation f = FlowTypeInvoice -> 0 <= Flow.OpN f < two63 - 1 ->
  match Block.Params_ (block b) with
  | None => AppendImplicitEvents EVENTS b [f] = Panic
  | Some params =>
      exists b',
        AppendImplicitEvents EVENTS b [f] = Ok b' /\
        Block.Flows (block b') = Block.Flows (block b) ++ [f] /\
        if 9 <=? Params.Version params then
          exists o, Block.Ops (block b') = Block.Ops (block b) ++ [o] /\
                    Op.Type_ o = OpTypeInvoice /\ Op.SenderId o = Flow.AccountId f /\
                    Op.OpN o = Flow.OpN f /\ Op.Reward o = Flow.AmountIn f
        else Block.Ops (block b') = Block.Ops (block b)
  end.
Proof.
  intros Hop Hn.
  destruct (two63_bounds _ Hn) as [Hadd Hneg].
  unfold AppendImplicitEvents. cbn [last]. rewrite Hadd, Hneg.
  set (blk := Block.set_Flows (Block.Flows (block b) ++ [f]) (block b)).
  assert (Hp : Block.Params_ blk = Block.Params_ (block b)) by reflexivity.
  set (ops0 := replicate (Z.to_nat (Flow.OpN f + 1)) (@None Op.t)).
  assert (Hlen : length ops0 = Z.to_nat (Flow.OpN f + 1)) by apply length_replicate.
  assert (Hs0 : slot ops0 (Flow.OpN f) = None).
  { unfold slot, ops0. rewrite lookup_replicate_2 by lia. reflexivity. }
  assert (Hg : (Flow.OpN f <? 0) || (Z.of_nat (length ops0) <=? Flow.OpN f) = false).
  { apply orb_false_iff. split; [apply Z.ltb_ge|apply Z.leb_gt]; lia. }
  cbn [implicitEvents]. unfold implicitEvent. cbv zeta. rewrite Hg, Hop, Hp, Hs0.
  destruct (Block.Params_ (block b)) as [params|]; [|reflexivity].
  destruct (9 <=? Params.Version params).
  - unfold ops0. rewrite compact_single by lia.
    eexists. split; [reflexivity|]. split; [reflexivity|].
    eexists. split; [reflexivity|]. repeat split; reflexivity.
  - unfold ops0. rewrite compact_replicate, app_nil_r.
    eexists. split; [reflexivity|]. split; reflexivity.
Qed.

Lemma AppendImplicitEvents_invoice_witness :
  let f := invoiceFlow 7 0 100 in
  exists b' o,
    AppendImplicitEvents (-1) exBuilder [f] = Ok b' /\
    Block.Ops (block b') = Block.Ops (block exBuilder) ++ [o] /\
    Op.Type_ o = OpTypeInvoice /\ Op.SenderId o = 7 /\ Op.Reward o = 100.
Proof.
  intros f.
  assert (H : 0 <= 0 < two63 - 1) by (unfold two63; lia).
  destruct (AppendImplicitEvents_invoice (-1) exBuilder f eq_refl H)
    as (b' & R & _ & o & L & T & S & _ & Rw).
  exists b', o. split; [exact R|]. split; [exact L|].
  split; [exact T|]. split; [exact S|exact Rw].
Defined.

(** ** [GetOpId] and [NextN] *)

Lemma GetOpId_loop_first (ops : list Op.t) (opn opc opi : Z) :
  match GetOpId_loop ops opn opc opi with
  | (id, true) =>
      exists pre o post,
        ops = pre ++ o :: post /\
        Forall (fun p => ~ reaches p opn opc opi) pre /\
        reaches o opn opc opi /\ id = Op.RowId o
  | (id, false) => id = 0 /\ Forall (fun p => ~ reaches p opn opc opi) ops
  end.
Proof.
  induction ops as [|x ops IH]; cbn [GetOpId_loop].
  - split; [reflexivity|constructor].
  - destruct ((Op.OpN x <? opn) || (Op.OpC x <? opc) || (Op.OpI x <? opi)) eqn:E.
    + assert (Hx : ~ reaches x opn opc opi).
      { unfold reaches. intros (H1 & H2 & H3).
        apply orb_true_iff in E. destruct E as [E|E].
        - apply orb_true_iff in E. destruct E as [E|E]; apply Z.ltb_lt in E; lia.
        - apply Z.ltb_lt in E. lia. }
      destruct (GetOpId_loop ops opn opc opi) as [id [|]].
      * destruct IH as (pre & o & post & -> & Hpre & Ho & Hid).
        exists (x :: pre), o, post. split; [reflexivity|].
        split; [constructor; assumption|]. split; assumption.
      * destruct IH as [Hid Hall]. split; [exact Hid|]. constructor; assumption.
    + apply orb_false_iff in E. destruct E as [E E3].
      apply orb_false_iff in E. destruct E as [E1 E2].
      apply Z.ltb_ge in E1, E2, E3.
      exists [], x, ops. split; [reflexivity|]. split; [constructor|].
      split; [|reflexivity]. unfold reaches. lia.
Qed.

(** Extra X7.  [GetOpId] answers with the row id of the first Op of the
    block whose three coordinates (position in the block, position among
    the contents, position among the internal results) all reach the ones
    asked for, whether or not they equal them.  It answers "not found",
    with id 0, exactly when the position asked for is negative or no Op
    reaches the coordinates. *)
Theorem GetOpId_first (b : Block.t) (opn opc opi : Z) :
  match GetOpId b opn opc opi with
  | (id, true) =>
      0 <= opn /\
      exists pre o post,
        Block.Ops b = pre ++ o :: post /\
        Forall (fun p => ~ reaches p opn opc opi) pre /\
        reaches o opn opc opi /\ id = Op.RowId o
  | (id, false) =>
      id = 0 /\ (opn < 0 \/ Forall (fun p => ~ reaches p opn opc opi) (Block.Ops b))
  end.
Proof.
  unfold GetOpId. destruct (opn <? 0) eqn:E.
  - apply Z.ltb_lt in E. split; [reflexivity|]. left. exact E.
  - apply Z.ltb_ge in E.
    pose proof (GetOpId_loop_first (Block.Ops b) opn opc opi) as H.
    destruct (GetOpId_loop (Block.Ops b) opn opc opi) as [id [|]].
    + split; [exact E|exact H].
    + destruct H as [Hid Hall]. split; [exact Hid|]. right. exact Hall.
Qed.

(** Extra X8.  On a block whose Ops are in strictly ascending order of
    the coordinate triple, [GetOpId] asked for the coordinates of one of
    the Ops finds that Op: it returns its row id. *)
Theorem GetOpId_exact (b : Block.t) (o : Op.t) :
  StronglySorted (fun x y => key_lt (opKey x) (opKey y)) (Block.Ops b) ->
  In o (Block.Ops b) -> 0 <= Op.OpN o ->
  GetOpId b (Op.OpN o) (Op.OpC o) (Op.OpI o) = (Op.RowId o, true).
Proof.
  intros Hs Hin Hn. unfold GetOpId.
  replace (Op.OpN o <? 0) with false by (symmetry; apply Z.ltb_ge; exact Hn).
  induction Hs as [|x ops Hs IH Hx]; [destruct Hin|].
  cbn [GetOpId_loop]. destruct Hin as [->|Hin].
  - rewrite !Z.ltb_irrefl. reflexivity.
  - rewrite Forall_forall in Hx. specialize (Hx o ltac:(apply list_elem_of_In; exact Hin)).
    assert (E : (Op.OpN x <? Op.OpN o) || (Op.OpC x <? Op.OpC o) || (Op.OpI x <? Op.OpI o)
                = true).
    { unfold key_lt, opKey in Hx. cbn [fst snd] in Hx.
      rewrite !orb_true_iff, !Z.ltb_lt. lia. }
    rewrite E. exact (IH Hin).
Qed.

Lemma GetOpId_exact_witness :
  let o1 := opAt 11 100 0 0 in
  let o2 := opAt 12 100 0 1 in
  GetOpId (Block.set_Ops [o1; o2] Block.zero) 0 1 0 = (12, true).
Proof.
  intros o1 o2.
  apply (GetOpId_exact (Block.set_Ops [o1; o2] Block.zero) o2).
  - constructor; [constructor; constructor|].
    constructor; [|constructor]. unfold key_lt, opKey. cbn. lia.
  - right. left. reflexivity.
  - cbn. lia.
Defined.

Lemma sorted_last (ops : list Op.t) (l : Op.t) :
  StronglySorted Z.le (map Op.OpN ops) -> last ops = Some l ->
  Forall (fun o => Op.OpN o <= Op.OpN l) ops.
Proof.
  induction ops as [|x ops IH]; intros Hs Hl; [constructor|].
  cbn [map] in Hs. apply StronglySorted_inv in Hs. destruct Hs as [Hs Hx].
  destruct ops as [|y ops].
  - cbn in Hl. injection Hl as ->. constructor; [lia|constructor].
  - change (last (x :: y :: ops)) with (last (y :: ops)) in Hl.
    pose proof (IH Hs Hl) as Hall. constructor; [|exact Hall].
    rewrite Forall_forall in Hx.
    assert (Hin : Op.OpN l ∈ map Op.OpN (y :: ops)).
    { apply list_elem_of_fmap. exists l. split; [reflexivity|].
      apply last_Some_elem_of. exact Hl. }
    exact (Hx _ Hin).
Qed.

(** Extra X9.  On a block without Ops [NextN] is 0.  On a block whose
    Ops are in ascending order of position, [NextN] lies above the
    position of every Op of the block, so that it is a free position,
    as long as the last position is not the largest 64-bit integer;
    there the increment wraps and [NextN] is negative. *)
Theorem NextN_free (b : Block.t) :
  (Block.Ops b = [] -> NextN b = 0) /\
  (ordered (Block.Ops b) ->
   Forall (fun o => int64_range (Op.OpN o)) (Block.Ops b) ->
   forall l, last (Block.Ops b) = Some l ->
     if Op.OpN l =? two63 - 1 then NextN b = - two63
     else Forall (fun o => Op.OpN o < NextN b) (Block.Ops b)).
Proof.
  unfold NextN. split.
  - intros ->. reflexivity.
  - intros Hs Hr l Hl. rewrite Hl.
    assert (Hrl : int64_range (Op.OpN l)).
    { rewrite Forall_forall in Hr. apply Hr. apply last_Some_elem_of. exact Hl. }
    destruct (Op.OpN l =? two63 - 1) eqn:E.
    + apply Z.eqb_eq in E. rewrite E. vm_compute. reflexivity.
    + apply Z.eqb_neq in E.
      rewrite add64_exact by (unfold int64_range in *; lia).
      apply Sorted_StronglySorted in Hs; [|intros x y z; lia].
      eapply Forall_impl; [exact (sorted_last _ _ Hs Hl)|].
      intros o Ho. cbn beta in *. lia.
Qed.

Lemma NextN_free_witness :
  let b := Block.set_Ops [opAt 11 100 0 0; opAt 12 100 3 0] Block.zero in
  Forall (fun o => Op.OpN o < 4) (Block.Ops b).
Proof.
  intros b.
  assert (Hs : ordered (Block.Ops b)).
  { unfold ordered. cbn. repeat constructor. lia. }
  assert (Hr : Forall (fun o => int64_range (Op.OpN o)) (Block.Ops b)).
  { repeat constructor; cbn; unfold two63; lia. }
  exact (proj2 (NextN_free b) Hs Hr (opAt 12 100 3 0) eq_refl).
Defined.

(** ** [Clone], [IsProtocolUpgrade], [Free] *)

Lemma Clone_value_counters (b : Block.t) : same_counters (Clone_value b) b.
Proof. intros c. destruct c; reflexivity. Qed.

(** Extra X10.  [Clone] allocates a new block and leaves the receiver and
    every other block as they are.  The clone keeps the stored columns
    of the receiver (every aggregate counter, the row id, the height and
    the hash among them) and drops what the receiver refers to: raw
    data, constants, chain and supply totals, Ops, flows, bakers and the
    parent; the three flags are cleared. *)
Theorem Clone_fresh (p : positive) (s : State) (b : Block.t) :
  heap s !! p = Some b ->
  exists q c s',
    Clone p s = (s', Ok q) /\
    heap s !! q = None /\ heap s' !! q = Some c /\
    (forall r, r <> q -> heap s' !! r = heap s !! r) /\
    blockPool s' = blockPool s /\ rpcCalls s' = rpcCalls s /\
    same_counters c b /\
    (Block.RowId c, Block.ParentId c, Block.Hash c, Block.Height c, Block.Cycle c,
     Block.Timestamp c)
    = (Block.RowId b, Block.ParentId b, Block.Hash b, Block.Height b, Block.Cycle b,
       Block.Timestamp b) /\
    (Block.TZ c, Block.Params_ c, Block.Chain_ c, Block.Supply_ c, Block.Ops c,
     Block.Flows c, Block.Baker_ c, Block.Proposer c, Block.Parent c)
    = (None, None, None, None, [], [], None, None, None) /\
    (Block.HasProposals c, Block.HasBallots c, Block.HasSeeds c) = (false, false, false).
Proof.
  intros H. unfold Clone. rewrite (bind_load p b) by exact H.
  unfold newBlockAt.
  set (q := fresh (dom (heap s))).
  assert (Hq : heap s !! q = None).
  { apply not_elem_of_dom. apply is_fresh. }
  exists q, (Clone_value b), (set_heap (<[q := Clone_value b]> (heap s)) s).
  split; [reflexivity|]. split; [exact Hq|].
  split; [apply lookup_insert_eq|].
  split; [intros r Hr; apply lookup_insert_ne; congruence|].
  split; [reflexivity|]. split; [reflexivity|].
  split; [apply Clone_value_counters|].
  split; [reflexivity|]. split; reflexivity.
Qed.

Lemma Clone_fresh_witness :
  exists q c s',
    Clone 2%positive exUpdateState = (s', Ok q) /\
    heap s' !! 2%positive = Some exChildBlock /\
    heap s' !! q = Some c /\
    Block.NOpsFailed c = 41 /\ Block.Parent c = None /\ Block.Ops c = [].
Proof.
  destruct (Clone_fresh 2%positive exUpdateState exChildBlock eq_refl)
    as (q & c & s' & R & Hq & Hc & Hfr & _ & _ & Hcnt & _ & Href & _).
  exists q, c, s'. split; [exact R|].
  split.
  { rewrite Hfr; [reflexivity|]. intros <-. discriminate Hq. }
  split; [exact Hc|].
  split; [exact (Hcnt Counter.NOpsFailed)|].
  split; congruence.
Defined.

(** Extra X11.  [IsProtocolUpgrade] writes nothing, whatever it
    answers.  It answers true exactly when the block has a parent, both
    carry a bundle with its raw block, and the protocol hashes of the two
    raw blocks differ. *)
Theorem IsProtocolUpgrade_reads (p : positive) (s : State) :
  fst (IsProtocolUpgrade p s) = s /\
  (snd (IsProtocolUpgrade p s) = Ok true <->
   exists b q pb ptz tz pblk blk,
     heap s !! p = Some b /\ Block.Parent b = Some q /\ heap s !! q = Some pb /\
     Block.TZ pb = Some ptz /\ Block.TZ b = Some tz /\
     Bundle.Block ptz = Some pblk /\ Bundle.Block tz = Some blk /\
     RpcBlock.Protocol pblk <> RpcBlock.Protocol blk).
Proof.
  split.
  - unfold IsProtocolUpgrade, mbind, M_bind, load, mret, M_ret, panic.
    repeat case_match; simplify_eq; reflexivity.
  - split.
    + unfold IsProtocolUpgrade, mbind, M_bind, load, mret, M_ret, panic.
      destruct (heap s !! p) as [b|] eqn:Hb; [|intros [=]].
      destruct (Block.Parent b) as [q|] eqn:Hq; [|intros [=]].
      destruct (heap s !! q) as [pb|] eqn:Hpb; [|intros [=]].
      destruct (Block.TZ pb) as [ptz|] eqn:Hptz; [|intros [=]].
      destruct (Block.TZ b) as [tz|] eqn:Htz; [|intros [=]].
      destruct (Bundle.Block ptz) as [pblk|] eqn:Hpblk; [|intros [=]].
      destruct (Bundle.Block tz) as [blk|] eqn:Hblk; [|intros [=]].
      intros [= E]. apply negb_true_iff, String.eqb_neq in E.
      exists b, q, pb, ptz, tz, pblk, blk. repeat split; assumption.
    + intros (b & q & pb & ptz & tz & pblk & blk & Hb & Hq & Hpb & Hptz & Htz & Hpblk
              & Hblk & Hne).
      unfold IsProtocolUpgrade. rewrite (bind_load p b) by exact Hb.
      rewrite Hq. rewrite (bind_load q pb) by exact Hpb.
      rewrite Hptz, Htz, Hpblk, Hblk. cbn.
      apply String.eqb_neq in Hne. rewrite Hne. reflexivity.
Qed.

(** Extra X12.  Blocks enter the pool only through [Free], which resets
    them: when every pooled block has all its fields at their zero
    values, this still holds after [Free], and the block [AllocBlock]
    hands out next has all its fields at their zero values, so that no
    datum of a freed block shows in a later one. *)
Theorem Free_AllocBlock_zero (p : positive) (s : State) (b : Block.t) :
  pool_zero s -> heap s !! p = Some b ->
  exists s1 s2 q,
    Free p s = (s1, Ok tt) /\ pool_zero s1 /\
    AllocBlock s1 = (s2, Ok q) /\ heap s2 !! q = Some Block.zero /\ pool_zero s2.
Proof.
  intros Hz Hb. unfold Free. rewrite (bind_modify p b) by exact Hb.
  unfold poolPut, AllocBlock. cbn [blockPool set_blockPool set_heap heap rpcCalls].
  assert (Hz1 : forall r, In r (p :: blockPool s) ->
                  <[p := Reset b]> (heap s) !! r = Some Block.zero).
  { intros r [<-|Hr].
    - rewrite lookup_insert_eq. reflexivity.
    - destruct (decide (r = p)) as [->|Hne].
      + rewrite lookup_insert_eq. reflexivity.
      + rewrite lookup_insert_ne by congruence. apply Hz. exact Hr. }
  eexists _, _, p. split; [reflexivity|]. split; [exact Hz1|].
  split; [reflexivity|]. split.
  - cbn [heap]. apply Hz1. left. reflexivity.
  - intros r Hr. cbn [blockPool heap] in *. apply Hz1. right. exact Hr.
Qed.

Lemma Free_AllocBlock_zero_witness :
  exists s1 s2 q,
    Free 2%positive exUpdateState = (s1, Ok tt) /\
    AllocBlock s1 = (s2, Ok q) /\ heap s2 !! q = Some Block.zero.
Proof.
  assert (Hz : pool_zero exUpdateState) by (intros r []).
  destruct (Free_AllocBlock_zero 2%positive exUpdateState exChildBlock Hz eq_refl)
    as (s1 & s2 & q & F & _ & A & Hq & _).
  exists s1, s2, q. split; [exact F|]. split; [exact A|exact Hq].
Defined.

(** ** [Update]: further properties *)

Lemma Update_entries_mid (s : State) (p : positive) (b b1 : Block.t) (e : Z)
    (accs : list Account.t) (bkrs : list Baker.t) :
  heap s !! p = Some b ->
  parent_ok s b ->
  Update_ops (Update_init b, 0) (Block.Ops b) = Some (b1, e) ->
  exists s' bmid,
    Update_entries p accs bkrs s = (s', Ok tt) /\
    heap s' !! p = Some (foldl Update_baker (foldl Update_account bmid accs) bkrs) /\
    (bmid = b1 \/ bmid = Block.set_NSlotsEndorsed e b1) /\
    blockPool s' = blockPool s /\ rpcCalls s' = rpcCalls s.
Proof.
  intros Hp Hparent Hops.
  pose proof (Update_ops_untouched _ _ _ _ _ Hops) as U.
  rewrite Update_init_untouched in U. unfold untouched in U.
  injection U as Upar Uh Uops Uparent Uslots.
  unfold Update_entries. rewrite (bind_load p b) by exact Hp. rewrite Hops.
  rewrite bind_store. unfold parent_ok in Hparent. rewrite Uparent.
  destruct (Block.Parent b) as [q|] eqn:Eq.
  - destruct Hparent as [pb Hpb]. destruct (decide (q = p)) as [->|Hne].
    + rewrite (bind_modify p b1) by (cbn; apply lookup_insert_eq).
      rewrite (bind_modify p (Block.set_NSlotsEndorsed e b1)) by (cbn; apply lookup_insert_eq).
      erewrite modify_run by (cbn; apply lookup_insert_eq).
      eexists _, (Block.set_NSlotsEndorsed e b1).
      split; [reflexivity|]. split; [cbn; apply lookup_insert_eq|].
      split; [right; reflexivity|]. split; reflexivity.
    + rewrite (bind_modify q pb) by (cbn; rewrite lookup_insert_ne by congruence; exact Hpb).
      rewrite (bind_modify p b1)
        by (cbn; rewrite lookup_insert_ne by congruence; apply lookup_insert_eq).
      erewrite modify_run by (cbn; apply lookup_insert_eq).
      eexists _, b1.
      split; [reflexivity|]. split; [cbn; apply lookup_insert_eq|].
      split; [left; reflexivity|]. split; reflexivity.
  - rewrite bind_ret.
    rewrite (bind_modify p b1) by (cbn; apply lookup_insert_eq).
    erewrite modify_run by (cbn; apply lookup_insert_eq).
    eexists _, b1.
    split; [reflexivity|]. split; [cbn; apply lookup_insert_eq|].
    split; [left; reflexivity|]. split; reflexivity.
Qed.

Lemma counter_set_NSlotsEndorsed (c : Counter.t) (v : Z) (b : Block.t) :
  counter c (Block.set_NSlotsEndorsed v b) = counter c b.
Proof. destruct c; reflexivity. Qed.

Lemma Update_seen_frame (c : Counter.t) (b : Block.t) (acc : Account.t) :
  opCounter c = true -> counter c (Update_seen b acc) = counter c b.
Proof.
  unfold Update_seen. cbv zeta. intros Hc.
  repeat case_match; destruct c; try discriminate Hc; counter_through; reflexivity.
Qed.

Lemma Update_account_frame (c : Counter.t) (b : Block.t) (acc : Account.t) :
  opCounter c = true -> counter c (Update_account b acc) = counter c b.
Proof.
  unfold Update_account. cbv zeta. intros Hc.
  repeat case_match; rewrite ?Update_seen_frame by exact Hc;
    destruct c; try discriminate Hc; counter_through; reflexivity.
Qed.

Lemma Update_baker_frame (c : Counter.t) (b : Block.t) (bkr : Baker.t) :
  opCounter c = true -> counter c (Update_baker b bkr) = counter c b.
Proof.
  unfold Update_baker. cbv zeta. intros Hc.
  repeat case_match; rewrite ?Update_seen_frame by exact Hc;
    destruct c; try discriminate Hc; counter_through; reflexivity.
Qed.

Lemma foldl_Update_account_frame (c : Counter.t) (accs : list Account.t) : forall b,
  opCounter c = true -> counter c (foldl Update_account b accs) = counter c b.
Proof.
  induction accs as [|a accs IH]; intros b Hc; cbn [foldl]; [reflexivity|].
  rewrite IH by exact Hc. apply Update_account_frame. exact Hc.
Qed.

Lemma foldl_Update_baker_frame (c : Counter.t) (bkrs : list Baker.t) : forall b,
  opCounter c = true -> counter c (foldl Update_baker b bkrs) = counter c b.
Proof.
  induction bkrs as [|a bkrs IH]; intros b Hc; cbn [foldl]; [reflexivity|].
  rewrite IH by exact Hc. apply Update_baker_frame. exact Hc.
Qed.

Lemma flags_add (c : Counter.t) (v : Z) (b : Block.t) : flags (add c v b) = flags b.
Proof. destruct c; reflexivity. Qed.

Lemma flags_set_HasSeeds (v : bool) (b : Block.t) :
  flags (Block.set_HasSeeds v b) = (v, Block.HasProposals b, Block.HasBallots b).
Proof. reflexivity. Qed.

Lemma flags_set_HasProposals (v : bool) (b : Block.t) :
  flags (Block.set_HasProposals v b) = (Block.HasSeeds b, v, Block.HasBallots b).
Proof. reflexivity. Qed.

Lemma flags_set_HasBallots (v : bool) (b : Block.t) :
  flags (Block.set_HasBallots v b) = (Block.HasSeeds b, Block.HasProposals b, v).
Proof. reflexivity. Qed.

Lemma Update_op_flags (b b' : Block.t) (e e' : Z) (op : Op.t) :
  Update_op (b, e) op = Some (b', e') ->
  flags b' = (Block.HasSeeds b || isNonceRevelation op,
              Block.HasProposals b || isProposal op,
              Block.HasBallots b || isBallot op).
Proof.
  unfold Update_op, isNonceRevelation, isProposal, isBallot. cbv zeta. intros H.
  destruct (Op.Type_ op), (Op.IsSuccess op), (Op.IsEvent op);
    repeat case_match; simplify_eq;
    rewrite ?flags_add, ?flags_set_HasSeeds, ?flags_set_HasProposals, ?flags_set_HasBallots,
      ?flags_add;
    unfold flags; rewrite ?orb_false_r, ?orb_true_r; reflexivity.
Qed.

Lemma Update_ops_flags (ops : list Op.t) : forall b e b' e',
  Update_ops (b, e) ops = Some (b', e') ->
  flags b' = (Block.HasSeeds b || existsb isNonceRevelation ops,
              Block.HasProposals b || existsb isProposal ops,
              Block.HasBallots b || existsb isBallot ops).
Proof.
  induction ops as [|op ops IH]; intros b e b' e' H; cbn [Update_ops existsb] in *.
  - injection H as <- <-. unfold flags. rewrite !orb_false_r. reflexivity.
  - destruct (Update_op (b, e) op) as [[b1 e1]|] eqn:E; [|discriminate].
    rewrite (IH _ _ _ _ H). pose proof (Update_op_flags _ _ _ _ _ E) as F.
    unfold flags in F. injection F as -> -> ->. rewrite !orb_assoc. reflexivity.
Qed.

Lemma Update_seen_flags (b : Block.t) (acc : Account.t) : flags (Update_seen b acc) = flags b.
Proof. unfold Update_seen. cbv zeta. repeat case_match; rewrite ?flags_add; reflexivity. Qed.

Lemma Update_account_flags (b : Block.t) (acc : Account.t) :
  flags (Update_account b acc) = flags b.
Proof.
  unfold Update_account. cbv zeta.
  repeat case_match; rewrite ?Update_seen_flags, ?flags_add; reflexivity.
Qed.

Lemma Update_baker_flags (b : Block.t) (bkr : Baker.t) : flags (Update_baker b bkr) = flags b.
Proof.
  unfold Update_baker. cbv zeta.
  repeat case_match; rewrite ?Update_seen_flags, ?flags_add; reflexivity.
Qed.

Lemma foldl_Update_account_flags (accs : list Account.t) : forall b,
  flags (foldl Update_account b accs) = flags b.
Proof.
  induction accs as [|a accs IH]; intros b; cbn [foldl]; [reflexivity|].
  rewrite IH. apply Update_account_flags.
Qed.

Lemma foldl_Update_baker_flags (bkrs : list Baker.t) : forall b,
  flags (foldl Update_baker b bkrs) = flags b.
Proof.
  induction bkrs as [|a bkrs IH]; intros b; cbn [foldl]; [reflexivity|].
  rewrite IH. apply Update_baker_flags.
Qed.

(** What [Update] leaves in a counter of the Op loop is what the Op loop
    computed. *)
Lemma Update_op_counter (s : State) (p : positive) (b : Block.t)
    (accs : list Account.t) (bkrs : list Baker.t) :
  heap s !! p = Some b ->
  parent_ok s b ->
  Forall (fun op => op_ok (Block.Params_ b) op = true) (Block.Ops b) ->
  exists s' b' b1 e,
    Update_entries p accs bkrs s = (s', Ok tt) /\ heap s' !! p = Some b' /\
    Update_ops (Update_init b, 0) (Block.Ops b) = Some (b1, e) /\
    (forall c, opCounter c = true -> counter c b' = counter c b1) /\
    flags b' = flags b1.
Proof.
  intros Hp Hpar Hok.
  destruct (Update_ops_total (Block.Ops b) (Update_init b) 0) as [[b1 e] E].
  { exact Hok. }
  destruct (Update_entries_mid s p b b1 e accs bkrs Hp Hpar E)
    as (s' & m & R & L & Hm & _).
  eexists s', _, b1, e. split; [exact R|]. split; [exact L|]. split; [exact E|].
  split.
  - intros c Hc. rewrite foldl_Update_baker_frame, foldl_Update_account_frame by exact Hc.
    destruct Hm as [-> | ->]; [reflexivity|apply counter_set_NSlotsEndorsed].
  - rewrite foldl_Update_baker_flags, foldl_Update_account_flags.
    destruct Hm as [-> | ->]; reflexivity.
Qed.

Lemma Update_op_class (b b' : Block.t) (e e' : Z) (op : Op.t) :
  Update_op (b, e) op = Some (b', e') ->
  counter Counter.NOpsApplied b'
  = (if isApplied op then add64 (counter Counter.NOpsApplied b) 1
     else counter Counter.NOpsApplied b) /\
  counter Counter.NEvents b'
  = (if isEvent op then add64 (counter Counter.NEvents b) 1
     else counter Counter.NEvents b).
Proof.
  unfold Update_op, isApplied, isEvent. cbv zeta. intros H.
  destruct (Op.Type_ op), (Op.IsSuccess op), (Op.IsEvent op);
    repeat case_match; simplify_eq; split; counter_through; reflexivity.
Qed.

Lemma count_fold (P : Op.t -> bool) (ops : list Op.t) : forall a,
  0 <= a -> a + Z.of_nat (length ops) < two63 ->
  foldl (fun acc op => if P op then add64 acc 1 else acc) a ops = a + countOps P ops.
Proof.
  unfold countOps.
  induction ops as [|op ops IH]; intros a Ha Hb; cbn [foldl List.filter length].
  - cbn. lia.
  - cbn [length] in Hb. destruct (P op).
    + rewrite add64_exact by (unfold int64_range, two63 in *; lia).
      rewrite IH by lia. cbn [length]. lia.
    + rewrite IH by lia. lia.
Qed.

Lemma Update_ops_class (ops : list Op.t) : forall b e b' e',
  Update_ops (b, e) ops = Some (b', e') ->
  counter Counter.NOpsApplied b'
  = foldl (fun acc op => if isApplied op then add64 acc 1 else acc)
          (counter Counter.NOpsApplied b) ops /\
  counter Counter.NEvents b'
  = foldl (fun acc op => if isEvent op then add64 acc 1 else acc)
          (counter Counter.NEvents b) ops.
Proof.
  induction ops as [|op ops IH]; intros b e b' e' H; cbn [Update_ops foldl] in *.
  - injection H as <- <-. split; reflexivity.
  - destruct (Update_op (b, e) op) as [[b1 e1]|] eqn:E; [|discriminate].
    destruct (IH _ _ _ _ H) as [-> ->].
    destruct (Update_op_class _ _ _ _ _ E) as [-> ->].
    split; destruct (isApplied op), (isEvent op); reflexivity.
Qed.

Lemma failed_fold (ops : list Op.t) : forall a,
  foldl (fun acc op => if Op.IsSuccess op then acc else add64 acc 1) a ops
  = foldl (fun acc op => if isFailed op then add64 acc 1 else acc) a ops.
Proof.
  induction ops as [|op ops IH]; intros a; cbn [foldl]; [reflexivity|].
  rewrite IH. unfold isFailed. destruct (Op.IsSuccess op); reflexivity.
Qed.

Lemma count_classes (ops : list Op.t) :
  countOps isApplied ops + countOps isFailed ops + countOps isEvent ops
  = Z.of_nat (length ops).
Proof.
  unfold countOps, isApplied, isFailed, isEvent.
  induction ops as [|op ops IH]; [reflexivity|].
  cbn [List.filter length].
  destruct (Op.IsSuccess op), (Op.IsEvent op); cbn [andb negb length]; lia.
Qed.

(** Extra X13.  [Update] sorts every Op of the block into exactly one of
    three classes: applied (successful and not an event), event
    (successful event) or failed.  The three counters it leaves are the
    sizes of the classes, so they add up to the number of Ops. *)
Theorem Update_classifies_ops (s : State) (p : positive) (b : Block.t)
    (accounts : gmap AccountID Account.t) (bakers : gmap AccountID Baker.t) :
  heap s !! p = Some b ->
  parent_ok s b ->
  Forall (fun op => op_ok (Block.Params_ b) op = true) (Block.Ops b) ->
  Z.of_nat (length (Block.Ops b)) < two63 ->
  exists s' b',
    Update p accounts bakers s = (s', Ok tt) /\ heap s' !! p = Some b' /\
    Block.NOpsApplied b' = countOps isApplied (Block.Ops b) /\
    Block.NEvents b' = countOps isEvent (Block.Ops b) /\
    Block.NOpsFailed b' = countOps isFailed (Block.Ops b) /\
    Block.NOpsApplied b' + Block.NOpsFailed b' + Block.NEvents b'
    = Z.of_nat (length (Block.Ops b)).
Proof.
  intros Hp Hpar Hok Hlen. unfold Update.
  destruct (Update_op_counter s p b (map_to_list accounts).*2 (map_to_list bakers).*2
              Hp Hpar Hok)
    as (s' & b' & b1 & e & R & L & E & Hc & _).
  destruct (Update_ops_class _ _ _ _ _ E) as [Ha He].
  pose proof (Update_ops_NOpsFailed _ _ _ _ _ E) as Hf.
  rewrite Update_init_counter in Ha, He, Hf.
  rewrite count_fold in Ha, He by lia.
  assert (A : Block.NOpsApplied b' = countOps isApplied (Block.Ops b)).
  { change (Block.NOpsApplied b') with (counter Counter.NOpsApplied b').
    rewrite (Hc Counter.NOpsApplied eq_refl), Ha. lia. }
  assert (B : Block.NEvents b' = countOps isEvent (Block.Ops b)).
  { change (Block.NEvents b') with (counter Counter.NEvents b').
    rewrite (Hc Counter.NEvents eq_refl), He. lia. }
  assert (C : Block.NOpsFailed b' = countOps isFailed (Block.Ops b)).
  { change (Block.NOpsFailed b') with (counter Counter.NOpsFailed b').
    rewrite (Hc Counter.NOpsFailed eq_refl), Hf, failed_fold.
    rewrite count_fold by lia. lia. }
  exists s', b'. split; [exact R|]. split; [exact L|].
  split; [exact A|]. split; [exact B|]. split; [exact C|].
  rewrite A, B, C. apply count_classes.
Qed.

Lemma Update_classifies_ops_witness :
  exists s' b',
    Update 2%positive exAccounts ∅ exUpdateState = (s', Ok tt) /\
    heap s' !! 2%positive = Some b' /\
    Block.NOpsApplied b' + Block.NOpsFailed b' + Block.NEvents b' = 3.
Proof.
  assert (H1 : heap exUpdateState !! 2%positive = Some exChildBlock) by reflexivity.
  assert (H2 : parent_ok exUpdateState exChildBlock).
  { exists exParentBlock. reflexivity. }
  assert (H3 : Forall (fun op => op_ok (Block.Params_ exChildBlock) op = true)
                      (Block.Ops exChildBlock)).
  { repeat constructor. }
  assert (H4 : Z.of_nat (length (Block.Ops exChildBlock)) < two63).
  { cbn. unfold two63. lia. }
  destruct (Update_classifies_ops exUpdateState 2%positive exChildBlock exAccounts ∅
              H1 H2 H3 H4) as (s' & b' & R & L & _ & _ & _ & T).
  exists s', b'. split; [exact R|]. split; [exact L|exact T].
Defined.

(** Extra X14.  [Update] does not reset the three flags: a flag that is
    set stays set, and a nonce revelation, a proposal or a ballot among
    the Ops sets its flag.  Unlike the counters, the flags of a block
    therefore depend on what they were before the call. *)
Theorem Update_flags (s : State) (p : positive) (b : Block.t)
    (accounts : gmap AccountID Account.t) (bakers : gmap AccountID Baker.t) :
  heap s !! p = Some b ->
  parent_ok s b ->
  Forall (fun op => op_ok (Block.Params_ b) op = true) (Block.Ops b) ->
  exists s' b',
    Update p accounts bakers s = (s', Ok tt) /\ heap s' !! p = Some b' /\
    Block.HasSeeds b' = Block.HasSeeds b || existsb isNonceRevelation (Block.Ops b) /\
    Block.HasProposals b' = Block.HasProposals b || existsb isProposal (Block.Ops b) /\
    Block.HasBallots b' = Block.HasBallots b || existsb isBallot (Block.Ops b).
Proof.
  intros Hp Hpar Hok. unfold Update.
  destruct (Update_op_counter s p b (map_to_list accounts).*2 (map_to_list bakers).*2
              Hp Hpar Hok)
    as (s' & b' & b1 & e & R & L & E & _ & Hf).
  pose proof (Update_ops_flags _ _ _ _ _ E) as F. rewrite <- Hf in F.
  unfold flags in F. injection F as F1 F2 F3.
  exists s', b'. split; [exact R|]. split; [exact L|].
  split; [exact F1|]. split; [exact F2|exact F3].
Qed.

Lemma Update_flags_witness :
  let b := Block.set_HasBallots true exChildBlock in
  let s := mkState (<[ 2%positive := b ]> {[ 1%positive := exParentBlock ]}) [] [] in
  exists s' b',
    Update 2%positive exAccounts ∅ s = (s', Ok tt) /\ heap s' !! 2%positive = Some b' /\
    Block.HasBallots b' = true /\ Block.HasSeeds b' = false.
Proof.
  intros b s.
  assert (H1 : heap s !! 2%positive = Some b) by reflexivity.
  assert (H2 : parent_ok s b).
  { exists exParentBlock. reflexivity. }
  assert (H3 : Forall (fun op => op_ok (Block.Params_ b) op = true) (Block.Ops b)).
  { repeat constructor. }
  destruct (Update_flags s 2%positive b exAccounts ∅ H1 H2 H3)
    as (s' & b' & R & L & Fs & _ & Fb).
  exists s', b'. split; [exact R|]. split; [exact L|]. split; [exact Fb|exact Fs].
Defined.

Lemma Update_op_panics (b : Block.t) (e : Z) (op : Op.t) :
  op_ok (Block.Params_ b) op = false -> Update_op (b, e) op = None.
Proof.
  unfold op_ok, Update_op. cbv zeta. intros H.
  destruct (Op.Type_ op), (Op.IsSuccess op), (Op.IsEvent op);
    rewrite ?Params_add; cbn [andb negb] in *;
    repeat case_match; try discriminate; reflexivity.
Qed.

Lemma Update_ops_panics (ops : list Op.t) : forall b e,
  forallb (op_ok (Block.Params_ b)) ops = false -> Update_ops (b, e) ops = None.
Proof.
  induction ops as [|op ops IH]; intros b e H; cbn [Update_ops forallb] in *;
    [discriminate|].
  destruct (Update_op (b, e) op) as [[b1 e1]|] eqn:E; [|reflexivity].
  apply andb_false_iff in H. destruct H as [H|H].
  - rewrite (Update_op_panics _ _ _ H) in E. discriminate.
  - apply IH. pose proof (Update_op_untouched _ _ _ _ _ E) as U.
    unfold untouched in U. injection U as U _. rewrite U. exact H.
Qed.

(** Extra X15.  [Update] returns exactly when every Op carries what the
    loop reads of it; otherwise it panics: on an endorsement without its
    raw operation, on a seed slash in a block without constants, and on
    a successful transaction that is no event and whose raw operation is
    not a transaction. *)
Theorem Update_returns (s : State) (p : positive) (b : Block.t)
    (accounts : gmap AccountID Account.t) (bakers : gmap AccountID Baker.t) :
  heap s !! p = Some b ->
  parent_ok s b ->
  snd (Update p accounts bakers s)
  = if forallb (op_ok (Block.Params_ b)) (Block.Ops b) then Ok tt else Panic.
Proof.
  intros Hp Hpar. unfold Update.
  destruct (forallb (op_ok (Block.Params_ b)) (Block.Ops b)) eqn:E.
  - assert (Hok : Forall (fun op => op_ok (Block.Params_ b) op = true) (Block.Ops b)).
    { apply Forall_forall. intros op Hin. rewrite List.forallb_forall in E.
      apply E. apply list_elem_of_In. exact Hin. }
    destruct (Update_op_counter s p b (map_to_list accounts).*2 (map_to_list bakers).*2
                Hp Hpar Hok) as (s' & b' & b1 & e & R & _).
    rewrite R. reflexivity.
  - unfold Update_entries. rewrite (bind_load p b) by exact Hp.
    rewrite (Update_ops_panics (Block.Ops b) (Update_init b) 0) by exact E.
    reflexivity.
Qed.

Lemma Update_returns_witness :
  snd (Update 1%positive ∅ ∅ (mkState {[ 1%positive := exOrphanBlock ]} [] [])) = Panic.
Proof.
  assert (H : heap (mkState {[ 1%positive := exOrphanBlock ]} [] []) !! 1%positive
              = Some exOrphanBlock) by reflexivity.
  exact (Update_returns _ 1%positive exOrphanBlock ∅ ∅ H I).
Defined.

(** ** [Update]: the loops over accounts and bakers *)

Lemma Update_seen_bump (c : Counter.t) (b : Block.t) (acc : Account.t) :
  counter c (Update_seen b acc)
  = if seenBump (Block.Height b) acc c then add64 (counter c b) 1 else counter c b.
Proof.
  unfold Update_seen, seenBump. cbv zeta.
  destruct (Account.LastSeen acc =? Block.Height b), (Account.IsFunded acc),
    (Account.WasFunded acc); cbn [negb andb];
    destruct c; counter_through; reflexivity.
Qed.

Lemma Update_account_bump (c : Counter.t) (b : Block.t) (acc : Account.t) :
  counter c (Update_account b acc)
  = if accountBump (Block.Height b) acc c then add64 (counter c b) 1 else counter c b.
Proof.
  unfold Update_account, accountBump. cbv zeta.
  destruct (Account.IsNew acc && Account.IsDirty acc); [|apply Update_seen_bump].
  destruct (Account.IsBaker acc); [reflexivity|].
  rewrite Update_seen_bump.
  destruct (Account.IsContract acc); rewrite Height_add; cbn [negb];
    destruct c; counter_through; unfold seenBump; reflexivity.
Qed.

Lemma Update_baker_bump (c : Counter.t) (b : Block.t) (bkr : Baker.t) :
  counter c (Update_baker b bkr)
  = if bakerBump (Block.Height b) bkr c then add64 (counter c b) 1 else counter c b.
Proof.
  unfold Update_baker, bakerBump. cbv zeta. rewrite Update_seen_bump.
  destruct (Account.IsNew (Baker.Acc bkr)); rewrite ?Height_add;
    destruct c; counter_through; unfold seenBump; reflexivity.
Qed.

Lemma Height_Update_account (b : Block.t) (acc : Account.t) :
  Block.Height (Update_account b acc) = Block.Height b.
Proof. exact (untouched_Height _ _ (Update_account_untouched b acc)). Qed.

Lemma Height_Update_baker (b : Block.t) (bkr : Baker.t) :
  Block.Height (Update_baker b bkr) = Block.Height b.
Proof. exact (untouched_Height _ _ (Update_baker_untouched b bkr)). Qed.

Section Bumps.
Context {A : Type}.
Variable f : Block.t -> A -> Block.t.
Variable bump : Z -> A -> Counter.t -> bool.
Hypothesis f_bump : forall c b a,
  counter c (f b a) = if bump (Block.Height b) a c then add64 (counter c b) 1 else counter c b.
Hypothesis f_Height : forall b a, Block.Height (f b a) = Block.Height b.

Lemma foldl_Height (l : list A) : forall b, Block.Height (foldl f b l) = Block.Height b.
Proof.
  induction l as [|a l IH]; intros b; cbn [foldl]; [reflexivity|].
  rewrite IH. apply f_Height.
Qed.

Lemma foldl_tally (c : Counter.t) (l : list A) : forall b,
  0 <= counter c b -> counter c b + Z.of_nat (length l) < two63 ->
  counter c (foldl f b l) = counter c b + tally (fun a => bump (Block.Height b) a c) l.
Proof.
  unfold tally.
  induction l as [|a l IH]; intros b H0 Hb; cbn [foldl List.filter length].
  - cbn. lia.
  - cbn [length] in Hb. rewrite IH; rewrite ?f_Height, f_bump.
    + destruct (bump (Block.Height b) a c).
      * rewrite add64_exact by (unfold int64_range, two63 in *; lia). cbn [length]. lia.
      * lia.
    + destruct (bump (Block.Height b) a c); [|lia].
      rewrite add64_exact by (unfold int64_range, two63 in *; lia). lia.
    + destruct (bump (Block.Height b) a c); [|lia].
      rewrite add64_exact by (unfold int64_range, two63 in *; lia). lia.
Qed.

Lemma f_same (b1 b2 : Block.t) (a : A) :
  same_counters b1 b2 -> Block.Height b1 = Block.Height b2 ->
  same_counters (f b1 a) (f b2 a).
Proof. intros Hc Hh c. rewrite !f_bump, Hh, (Hc c). reflexivity. Qed.

Lemma f_swap (b : Block.t) (x y : A) : same_counters (f (f b x) y) (f (f b y) x).
Proof.
  intros c. rewrite !f_bump, !f_Height.
  destruct (bump (Block.Height b) x c), (bump (Block.Height b) y c); reflexivity.
Qed.

Lemma foldl_same (l : list A) : forall b1 b2,
  same_counters b1 b2 -> Block.Height b1 = Block.Height b2 ->
  same_counters (foldl f b1 l) (foldl f b2 l).
Proof.
  induction l as [|a l IH]; intros b1 b2 Hc Hh; cbn [foldl]; [exact Hc|].
  apply IH; [apply f_same; assumption|]. rewrite !f_Height. exact Hh.
Qed.

Lemma foldl_Permutation (l1 l2 : list A) :
  Permutation l1 l2 -> forall b1 b2,
  same_counters b1 b2 -> Block.Height b1 = Block.Height b2 ->
  same_counters (foldl f b1 l1) (foldl f b2 l2).
Proof.
  induction 1 as [|x l1 l2 HP IH|x y l|l1 l2 l3 HP1 IH1 HP2 IH2]; intros b1 b2 Hc Hh.
  - exact Hc.
  - cbn [foldl]. apply IH; [apply f_same; assumption|]. rewrite !f_Height. exact Hh.
  - cbn [foldl]. apply foldl_same; [|rewrite !f_Height; exact Hh].
    intros c. rewrite (f_swap b1 y x c). revert c.
    apply f_same; [apply f_same; assumption|]. rewrite !f_Height. exact Hh.
  - intros c. rewrite (IH1 b1 b2 Hc Hh c). revert c.
    apply IH2; [intros c; reflexivity|reflexivity].
Qed.
End Bumps.

Lemma Update_op_account_frame (c : Counter.t) (b b' : Block.t) (e e' : Z) (op : Op.t) :
  opCounter c = false ->
  Update_op (b, e) op = Some (b', e') -> counter c b' = counter c b.
Proof.
  unfold Update_op. cbv zeta. intros Hc H.
  destruct (Op.Type_ op), (Op.IsSuccess op), (Op.IsEvent op);
    repeat case_match; simplify_eq;
    destruct c; try discriminate Hc; counter_through; reflexivity.
Qed.

Lemma Update_ops_account_frame (c : Counter.t) (ops : list Op.t) : forall b e b' e',
  opCounter c = false ->
  Update_ops (b, e) ops = Some (b', e') -> counter c b' = counter c b.
Proof.
  induction ops as [|op ops IH]; intros b e b' e' Hc H; cbn [Update_ops] in H.
  - injection H as <- <-. reflexivity.
  - destruct (Update_op (b, e) op) as [[b1 e1]|] eqn:E; [|discriminate].
    rewrite (IH _ _ _ _ Hc H). exact (Update_op_account_frame _ _ _ _ _ _ Hc E).
Qed.

(** Extra X16.  The five account counters [Update] leaves count the
    entries of the two maps: an account is seen when it was last seen at
    the height of the block, cleared when seen, unfunded and funded
    before, funded when seen, funded and not funded before; a new and
    dirty account that is no baker counts as a new contract or a new
    account.  A new and dirty account flagged as baker is skipped by the
    first loop altogether, also for the seen, cleared and funded
    counters; every baker whose account is new counts as a new account. *)
Theorem Update_account_counters_tally (s : State) (p : positive) (b : Block.t)
    (accs : list Account.t) (bkrs : list Baker.t) (c : Counter.t) :
  heap s !! p = Some b ->
  parent_ok s b ->
  Forall (fun op => op_ok (Block.Params_ b) op = true) (Block.Ops b) ->
  Z.of_nat (length accs) + Z.of_nat (length bkrs) < two63 ->
  opCounter c = false ->
  exists s' b',
    Update_entries p accs bkrs s = (s', Ok tt) /\ heap s' !! p = Some b' /\
    counter c b'
    = tally (fun a => accountBump (Block.Height b) a c) accs
      + tally (fun k => bakerBump (Block.Height b) k c) bkrs.
Proof.
  intros Hp Hpar Hok Hlen Hc.
  destruct (Update_ops_total (Block.Ops b) (Update_init b) 0) as [[b1 e] E].
  { exact Hok. }
  destruct (Update_entries_run s p b b1 e accs bkrs Hp Hpar E)
    as (s' & m & R & L & C & H & _).
  assert (Hm : counter c m = 0).
  { rewrite (C c), (Update_ops_account_frame _ _ _ _ _ _ Hc E). apply Update_init_counter. }
  pose proof (foldl_tally Update_account accountBump Update_account_bump
                Height_Update_account c accs m) as T1.
  rewrite Hm, H in T1. specialize (T1 ltac:(lia) ltac:(lia)).
  assert (Hb1 : 0 <= tally (fun a => accountBump (Block.Height b) a c) accs
                <= Z.of_nat (length accs)).
  { unfold tally. pose proof (List.filter_length_le
      (fun a => accountBump (Block.Height b) a c) accs). lia. }
  pose proof (foldl_tally Update_baker bakerBump Update_baker_bump
                Height_Update_baker c bkrs (foldl Update_account m accs)) as T2.
  rewrite (foldl_Height Update_account Height_Update_account), H, T1 in T2.
  specialize (T2 ltac:(lia) ltac:(lia)).
  eexists s', _. split; [exact R|]. split; [exact L|]. rewrite T2. lia.
Qed.

Lemma Update_account_counters_tally_witness :
  exists s' b',
    Update_entries 2%positive (map_to_list exAccounts).*2 [] exUpdateState = (s', Ok tt) /\
    heap s' !! 2%positive = Some b' /\
    Block.SeenAccounts b' = 1.
Proof.
  assert (H1 : heap exUpdateState !! 2%positive = Some exChildBlock) by reflexivity.
  assert (H2 : parent_ok exUpdateState exChildBlock).
  { exists exParentBlock. reflexivity. }
  assert (H3 : Forall (fun op => op_ok (Block.Params_ exChildBlock) op = true)
                      (Block.Ops exChildBlock)).
  { repeat constructor. }
  assert (H4 : Z.of_nat (length (map_to_list exAccounts).*2) + Z.of_nat (@length Baker.t [])
               < two63).
  { vm_compute. reflexivity. }
  destruct (Update_account_counters_tally exUpdateState 2%positive exChildBlock
              (map_to_list exAccounts).*2 [] Counter.SeenAccounts H1 H2 H3 H4 eq_refl)
    as (s' & b' & R & L & T).
  exists s', b'. split; [exact R|]. split; [exact L|]. exact T.
Defined.

(** Extra X17.  The counters [Update] leaves do not depend on the order
    in which the two loops visit the accounts and the bakers: visiting
    the same entries in any other order yields the same counters. *)
Theorem Update_order_independent (s : State) (p : positive) (b : Block.t)
    (accs accs' : list Account.t) (bkrs bkrs' : list Baker.t) :
  heap s !! p = Some b ->
  parent_ok s b ->
  Forall (fun op => op_ok (Block.Params_ b) op = true) (Block.Ops b) ->
  Permutation accs accs' -> Permutation bkrs bkrs' ->
  exists s1 s2 b1 b2,
    Update_entries p accs bkrs s = (s1, Ok tt) /\ heap s1 !! p = Some b1 /\
    Update_entries p accs' bkrs' s = (s2, Ok tt) /\ heap s2 !! p = Some b2 /\
    counters b1 = counters b2.
Proof.
  intros Hp Hpar Hok HP1 HP2.
  destruct (Update_ops_total (Block.Ops b) (Update_init b) 0) as [[x e] E].
  { exact Hok. }
  destruct (Update_entries_mid s p b x e accs bkrs Hp Hpar E)
    as (s1 & m1 & R1 & L1 & Hm1 & _).
  destruct (Update_entries_mid s p b x e accs' bkrs' Hp Hpar E)
    as (s2 & m2 & R2 & L2 & Hm2 & _).
  assert (Hc : same_counters m1 m2).
  { intros c. destruct Hm1 as [-> | ->], Hm2 as [-> | ->];
      rewrite ?counter_set_NSlotsEndorsed; reflexivity. }
  assert (Hh : Block.Height m1 = Block.Height m2).
  { destruct Hm1 as [-> | ->], Hm2 as [-> | ->]; reflexivity. }
  eexists s1, s2, _, _. split; [exact R1|]. split; [exact L1|].
  split; [exact R2|]. split; [exact L2|].
  apply same_counters_iff.
  apply (foldl_Permutation Update_baker bakerBump Update_baker_bump Height_Update_baker
           _ _ HP2).
  - apply (foldl_Permutation Update_account accountBump Update_account_bump
             Height_Update_account _ _ HP1); assumption.
  - rewrite !(foldl_Height Update_account Height_Update_account). exact Hh.
Qed.

Lemma Update_order_independent_witness :
  let a1 := Account.mk 8 (Addr "tz1VSUr8wwNhLAzempoch5d6hLRiTh8Cjcjb") true true false false
              true false 101 in
  let a2 := Account.mk 9 (Addr "KT1PWx2mnDueood7fEmfbBDKx1D9BAnnXitn") true true false true
              false true 101 in
  exists s1 s2 b1 b2,
    Update_entries 2%positive [a1; a2] [] exUpdateState = (s1, Ok tt) /\
    heap s1 !! 2%positive = Some b1 /\
    Update_entries 2%positive [a2; a1] [] exUpdateState = (s2, Ok tt) /\
    heap s2 !! 2%positive = Some b2 /\
    counters b1 = counters b2.
Proof.
  intros a1 a2.
  assert (H1 : heap exUpdateState !! 2%positive = Some exChildBlock) by reflexivity.
  assert (H2 : parent_ok exUpdateState exChildBlock).
  { exists exParentBlock. reflexivity. }
  assert (H3 : Forall (fun op => op_ok (Block.Params_ exChildBlock) op = true)
                      (Block.Ops exChildBlock)).
  { repeat constructor. }
  exact (Update_order_independent exUpdateState 2%positive exChildBlock [a1; a2] [a2; a1]
           [] [] H1 H2 H3 (perm_swap a2 a1 []) (perm_nil _)).
Defined.

(** ** [NewBlock]: what a new block carries *)

Lemma AllocBlock_zero (s : State) :
  pool_zero s ->
  exists p s1,
    AllocBlock s = (s1, Ok p) /\ heap s1 !! p = Some Block.zero /\
    (forall r, r <> p -> heap s1 !! r = heap s !! r) /\
    (forall q, is_Some (heap s !! q) -> ~ In q (blockPool s) -> q <> p) /\
    blockPool s1 = tail (blockPool s) /\ rpcCalls s1 = rpcCalls s.
Proof.
  intros Hz. unfold AllocBlock. destruct (blockPool s) as [|p rest] eqn:E.
  - exists (fresh (dom (heap s))), (set_heap (<[fresh (dom (heap s)) := Block.zero]> (heap s)) s).
    split; [reflexivity|]. split; [apply lookup_insert_eq|].
    split; [intros r Hr; cbn; apply lookup_insert_ne; congruence|].
    split; [|split; [cbn; rewrite E; reflexivity|reflexivity]].
    intros q [x Hq] _ ->.
    assert (Hn : heap s !! fresh (dom (heap s)) = None).
    { apply not_elem_of_dom. apply is_fresh. }
    congruence.
  - exists p, (set_blockPool rest s).
    split; [reflexivity|]. split; [apply Hz; rewrite E; left; reflexivity|].
    split; [intros r _; reflexivity|]. split; [|split; reflexivity].
    intros q _ Hq ->. apply Hq. left. reflexivity.
Qed.

(** Extra X18.  From a bundle with its raw block, and a pool of reset
    blocks, [NewBlock] returns a block with every counter at 0 and no Op
    or flow, which carries the bundle, its constants, and the level,
    hash and nonce of the raw block.  The version is the one of the raw
    block, lowered by one at levels 0 and 1.  An invalid voting period
    kind is replaced by the one of the parent or, without a parent, by
    the proposal period.  With a parent the block points to it, takes
    its row id as parent id and copies its chain and supply totals when
    it has them.  No other block is written to, the parent included. *)
Theorem NewBlock_init (s : State) (bundle : Bundle.t) (blk : RpcBlock.t)
    (parent : option positive) :
  pool_zero s ->
  Bundle.Block bundle = Some blk ->
  (forall q, parent = Some q -> is_Some (heap s !! q) /\ ~ In q (blockPool s)) ->
  exists s' p b,
    NewBlock (Some bundle) parent s = (s', Ok p) /\
    heap s' !! p = Some b /\
    (forall r, r <> p -> heap s' !! r = heap s !! r) /\
    same_counters b Block.zero /\
    (Block.Ops b, Block.Flows b, Block.RowId b) = ([], [], 0) /\
    (Block.TZ b, Block.Params_ b) = (Some bundle, Bundle.Params_ bundle) /\
    (Block.Height b, Block.Hash b) = (RpcBlock.Level blk, RpcBlock.Hash blk) /\
    Block.Nonce b
    = (if 8 <=? Z.of_nat (length (RpcBlock.ProofOfWorkNonce blk))
       then BigEndian_Uint64 (RpcBlock.ProofOfWorkNonce blk) else 0) /\
    Block.Version b
    = (if RpcBlock.Level blk <=? 1 then add64 (RpcBlock.Version blk) (-1)
       else RpcBlock.Version blk) /\
    Block.Parent b = parent /\
    match parent with
    | None =>
        Block.VotingPeriodKind_ b
        = (if negb (VotingPeriodKind_IsValid (RpcBlock.VotingPeriodKind_ blk))
           then VotingPeriodProposal else RpcBlock.VotingPeriodKind_ blk) /\
        Block.ParentId b = 0 /\
        Block.Chain_ b = Some Chain.zero /\ Block.Supply_ b = Some Supply.zero
    | Some q =>
        exists pb,
          heap s !! q = Some pb /\ q <> p /\
          Block.VotingPeriodKind_ b
          = (if negb (VotingPeriodKind_IsValid (RpcBlock.VotingPeriodKind_ blk))
             then Block.VotingPeriodKind_ pb else RpcBlock.VotingPeriodKind_ blk) /\
          Block.ParentId b = Block.RowId pb /\
          Block.Chain_ b
          = Some (match Block.Chain_ pb with Some c => c | None => Chain.zero end) /\
          Block.Supply_ b
          = Some (match Block.Supply_ pb with Some c => c | None => Supply.zero end)
    end.
Proof.
  intros Hpool Hblk Hparent.
  destruct (AllocBlock_zero s Hpool) as (p & s1 & Halloc & Hp & Hother & Hfresh & _).
  unfold NewBlock. unfold mbind at 1. unfold M_bind at 1. rewrite Halloc.
  rewrite Hblk. rewrite (state_norm s1 p Block.zero Hp).
  destruct parent as [q|].
  - destruct (Hparent q eq_refl) as [[pb Hpb] Hnin].
    assert (Hne : q <> p) by (apply Hfresh; [eexists; exact Hpb|exact Hnin]).
    assert (Hq1 : heap s1 !! q = Some pb).
    { rewrite Hother by exact Hne. exact Hpb. }
    destruct (Block.Chain_ pb) as [ch|] eqn:EC; destruct (Block.Supply_ pb) as [su|] eqn:ES.
    all: repeat (first [rewrite EC | rewrite ES | mstep p]).
    all: unfold mret, M_ret; eexists _, p, _.
    all: (split; [reflexivity|]); cbn [heap set_heap].
    all: (split; [apply lookup_insert_eq|]).
    all: (split; [intros r Hr; rewrite lookup_insert_ne by congruence; apply Hother; exact Hr|]).
    all: split_ifs.
    all: (split; [intros c; destruct c; reflexivity|]).
    all: (split; [reflexivity|]).
    all: (split; [reflexivity|]).
    all: (split; [reflexivity|]).
    all: (split; [reflexivity|]).
    all: (split; [reflexivity|]).
    all: (split; [reflexivity|]).
    all: exists pb; (split; [exact Hpb|]); (split; [exact Hne|]).
    all: rewrite ?EC, ?ES.
    all: (split; [reflexivity|]).
    all: (split; [reflexivity|]).
    all: split; reflexivity.
  - repeat mstep p.
    all: unfold mret, M_ret; eexists _, p, _.
    all: (split; [reflexivity|]); cbn [heap set_heap].
    all: (split; [apply lookup_insert_eq|]).
    all: (split; [intros r Hr; rewrite lookup_insert_ne by congruence; apply Hother; exact Hr|]).
    all: split_ifs.
    all: (split; [intros c; destruct c; reflexivity|]).
    all: (split; [reflexivity|]).
    all: (split; [reflexivity|]).
    all: (split; [reflexivity|]).
    all: (split; [reflexivity|]).
    all: (split; [reflexivity|]).
    all: (split; [reflexivity|]).
    all: (split; [reflexivity|]).
    all: (split; [reflexivity|]).
    all: split; reflexivity.
Qed.

Lemma NewBlock_init_witness :
  exists s' p b,
    NewBlock (Some exBundle) (Some 1%positive) exState = (s', Ok p) /\
    heap s' !! p = Some b /\
    heap s' !! 1%positive = Some exParentBlock /\
    Block.Height b = 100 /\ Block.Version b = 12 /\ Block.Parent b = Some 1%positive /\
    Block.Chain_ b = Some Chain.zero.
Proof.
  assert (H1 : pool_zero exState) by (intros p []).
  assert (H3 : forall q, Some 1%positive = Some q ->
                 is_Some (heap exState !! q) /\ ~ In q (blockPool exState)).
  { intros q Hq. injection Hq as <-. split; [exists exParentBlock; reflexivity|intros []]. }
  destruct (NewBlock_init exState exBundle exRpcBlock (Some 1%positive) H1 eq_refl H3)
    as (s' & p & b & R & L & Hfr & _ & _ & _ & Hh & _ & Hv & Hp & pb & Hpb & Hne & _ & _
        & Hc & _).
  exists s', p, b. split; [exact R|]. split; [exact L|].
  split; [rewrite Hfr by exact Hne; reflexivity|].
  split; [injection Hh as Hh _; exact Hh|]. split; [exact Hv|]. split; [exact Hp|].
  assert (Hx : heap exState !! 1%positive = Some exParentBlock) by reflexivity.
  assert (pb = exParentBlock) by congruence. subst pb. exact Hc.
Defined.

(** ** [FetchRPC]: what is fetched and what is kept *)

Section FetchRPC_calls.
Variable CycleStartHeight : Params.t -> Z -> Z.
Variable IsCycleStart : Params.t -> Z -> bool.
Variable NewParams : Params.t.
Variable ForNetwork : Params.t -> string -> Params.t.
Variable ForProtocol : Params.t -> string -> Params.t.

(** Extra X19.  [FetchRPC] asks the node only for what the block lacks.
    With an invalid hash it returns the error that names the row id,
    makes no call and writes nothing.  It asks for the raw block only
    when the bundle has none, and for the constants only when the block
    has none and its height is positive; constants at hand are kept.
    Whatever the outcome, it writes to no other block and leaves the
    height and the hash of the block as they are. *)
Theorem FetchRPC_economy (c : Client) (p : positive) (s s' : State)
    (r : result unit) (b : Block.t) :
  heap s !! p = Some b ->
  FetchRPC CycleStartHeight IsCycleStart NewParams ForNetwork ForProtocol c p s = (s', r) ->
  exists new b',
    rpcCalls s' = rpcCalls s ++ new /\
    heap s' !! p = Some b' /\
    (forall q, q <> p -> heap s' !! q = heap s !! q) /\
    blockPool s' = blockPool s /\
    (Block.Height b', Block.Hash b') = (Block.Height b, Block.Hash b) /\
    (Block.Hash b = None ->
     s' = s /\ r = Err ("invalid block hash on block id " +:+ pretty (Block.RowId b))) /\
    (is_Some (Block.TZ b ≫= Bundle.Block) -> existsb isGetBlock new = false) /\
    (is_Some (Block.Params_ b) ->
     existsb isGetConstants new = false /\ Block.Params_ b' = Block.Params_ b) /\
    (Block.Height b <= 0 -> existsb isGetConstants new = false).
Proof.
  intros Hp Hrun. unfold FetchRPC in Hrun.
  rewrite (bind_load p b) in Hrun by exact Hp.
  destruct (Block.Hash b) as [hash|] eqn:Ehash.
  2:{ unfold fail in Hrun. injection Hrun as <- <-. exists [], b.
      rewrite app_nil_r. split; [reflexivity|]. split; [exact Hp|].
      split; [reflexivity|]. split; [reflexivity|]. split; [rewrite Ehash; reflexivity|].
      split; [intros _; split; reflexivity|]. split; [reflexivity|].
      split; [intros _; split; reflexivity|reflexivity]. }
  destruct s as [h pool log]. cbn [heap] in Hp.
  rewrite <- (insert_id h p b Hp) in Hrun.
  repeat hstep p Hrun.
  all: try rewrite (modify_run p _ _ _ (lookup_insert_eq _ _ _)) in Hrun.
  all: unfold mret, M_ret, fail, panic in Hrun; norm_in Hrun.
  all: injection Hrun as <- <-; simplify_eq.
  all: eexists _, _; (split; [log_eq|]).
  all: (split; [cbn [heap]; apply lookup_insert_eq|]).
  all: (split; [intros q Hq; cbn [heap]; rewrite lookup_insert_ne by congruence; reflexivity|]).
  all: (split; [reflexivity|]).
  all: (split; [cbn; rewrite ?Ehash; reflexivity|]).
  all: (split; [intros [=]|]).
  all: repeat match goal with
              | H : wrapErr _ ?r = _ |- _ =>
                  destruct r eqn:?; cbn [wrapErr] in H; simplify_eq
              | H : (0 <? _) = true |- _ => apply Z.ltb_lt in H
              | H : (0 <? _) = false |- _ => apply Z.ltb_ge in H
              end.
  all: split; [|split].
  all: try solve [intros _; reflexivity].
  all: try solve [intros; cbn [Block.Height Block.set_TZ Block.set_Params] in *; lia].
  all: try solve [intros [x Hx]; cbn in Hx; congruence].
  all: try solve [intros; split; reflexivity].
  all: try solve [intros [x Hx]; discriminate Hx].
  all: try solve [intros _; split; [reflexivity | cbn; assumption]].
Qed.
End FetchRPC_calls.

Lemma FetchRPC_economy_witness :
  let sr := FetchRPC exCycleStartHeight exIsCycleStart exParams exForNetwork exForProtocol
                     exClient 1%positive exFetchState in
  exists new b',
    rpcCalls sr.1 = rpcCalls exFetchState ++ new /\ heap sr.1 !! 1%positive = Some b' /\
    existsb isGetBlock new = false /\ existsb isGetConstants new = false /\
    Block.Params_ b' = Some exParams.
Proof.
  intros sr.
  assert (H1 : heap exFetchState !! 1%positive = Some exFetchBlock) by reflexivity.
  assert (H2 : FetchRPC exCycleStartHeight exIsCycleStart exParams exForNetwork exForProtocol
                        exClient 1%positive exFetchState = (sr.1, sr.2))
    by apply surjective_pairing.
  destruct (FetchRPC_economy _ _ _ _ _ exClient 1%positive exFetchState sr.1 sr.2
              exFetchBlock H1 H2) as (new & b' & Hlog & Hb & _ & _ & _ & _ & Hg & Hc & _).
  exists new, b'. split; [exact Hlog|]. split; [exact Hb|].
  split; [apply Hg; eexists; reflexivity|].
  destruct Hc as [Hc1 Hc2]; [eexists; reflexivity|].
  split; [exact Hc1|exact Hc2].
Defined.

Ltac norm_goal :=
  unfold set_heap, set_rpcCalls, set_blockPool;
  cbn [heap rpcCalls blockPool];
  rewrite ?insert_insert_eq.

(** One step of a computation in the goal, on a state whose heap is
    [<[p := b]> h]. *)
Ltac gstep p :=
  first
    [ rewrite bind_ret
    | rewrite bind_bind
    | rewrite bind_fail
    | rewrite bind_panic
    | rewrite bind_logCall; norm_goal
    | rewrite bind_liftResult
    | rewrite (bind_modify p _ _ _ _ (lookup_insert_eq _ _ _)); norm_goal
    | rewrite (bind_load p _ _ _ (lookup_insert_eq _ _ _))
    | progress cbn [Block.TZ Block.Params_ Block.Hash Block.Height Block.set_TZ Block.set_Params
                    Bundle.Block Bundle.set_Block Bundle.set_Params Bundle.empty wrapErr] ].

Section FetchRPC_errors.
Variable CycleStartHeight : Params.t -> Z -> Z.
Variable IsCycleStart : Params.t -> Z -> bool.
Variable NewParams : Params.t.
Variable ForNetwork : Params.t -> string -> Params.t.
Variable ForProtocol : Params.t -> string -> Params.t.

(** Extra X20.  [FetchRPC] stops at the first call that fails.  When the
    node does not deliver the raw block, the error of the node is
    returned as it is, after the one call; a block that had no bundle is
    left with an empty one.  When the node does not deliver the
    constants, the error is returned behind the prefix "block init: ",
    and the block is left as it was. *)
Theorem FetchRPC_errors (c : Client) (p : positive) (s : State) (b : Block.t)
    (hash e : string) :
  heap s !! p = Some b -> Block.Hash b = Some hash ->
  (Block.TZ b ≫= Bundle.Block = None -> GetBlock c hash = Err e ->
   exists s',
     FetchRPC CycleStartHeight IsCycleStart NewParams ForNetwork ForProtocol c p s
     = (s', Err e) /\
     rpcCalls s' = rpcCalls s ++ [CallGetBlock hash] /\
     heap s' !! p
     = Some (match Block.TZ b with
             | None => Block.set_TZ (Some Bundle.empty) b
             | Some _ => b
             end)) /\
  (is_Some (Block.TZ b ≫= Bundle.Block) -> Block.Params_ b = None ->
   0 < Block.Height b -> GetConstants c (Block.Height b) = Err e ->
   exists s',
     FetchRPC CycleStartHeight IsCycleStart NewParams ForNetwork ForProtocol c p s
     = (s', Err ("block init: " +:+ e)) /\
     rpcCalls s' = rpcCalls s ++ [CallGetConstants (Block.Height b)] /\
     heap s' !! p = Some b).
Proof.
  intros Hp Hhash. destruct s as [h pool log]. cbn [heap] in Hp.
  rewrite <- (insert_id h p b Hp). unfold FetchRPC. split.
  - intros Hblk Hget.
    gstep p. rewrite Hhash.
    destruct (Block.TZ b) as [tz|] eqn:Etz.
    + cbn in Hblk. repeat gstep p. rewrite Etz. repeat gstep p. rewrite Hblk.
      repeat gstep p. rewrite Hget.
      eexists. split; [reflexivity|]. split; [reflexivity|].
      cbn [heap]. apply lookup_insert_eq.
    + repeat gstep p. rewrite Hget.
      eexists. split; [reflexivity|]. split; [reflexivity|].
      cbn [heap]. apply lookup_insert_eq.
  - intros [blk Hblk] Hpar Hh Hget.
    gstep p. rewrite Hhash.
    destruct (Block.TZ b) as [tz|] eqn:Etz; [|discriminate Hblk]. cbn in Hblk.
    repeat gstep p. rewrite Etz. repeat gstep p. rewrite Hblk.
    repeat gstep p. rewrite Hpar.
    replace (0 <? Block.Height b) with true by (symmetry; apply Z.ltb_lt; exact Hh).
    repeat gstep p. rewrite Hget. repeat gstep p.
    eexists. split; [reflexivity|]. split; [reflexivity|].
    cbn [heap]. apply lookup_insert_eq.
Qed.
End FetchRPC_errors.

Lemma FetchRPC_errors_witness :
  let c := mkClient (fun _ => Err "connection refused") (GetConstants exClient)
                    (FetchRightsByCycle exClient) in
  let b := Block.set_Hash (Some "BLhash") Block.zero in
  exists s',
    FetchRPC exCycleStartHeight exIsCycleStart exParams exForNetwork exForProtocol
             c 1%positive (mkState {[ 1%positive := b ]} [] [])
    = (s', Err "connection refused") /\
    rpcCalls s' = [CallGetBlock "BLhash"] /\
    heap s' !! 1%positive = Some (Block.set_TZ (Some Bundle.empty) b).
Proof.
  intros c b.
  assert (H1 : heap (mkState {[ 1%positive := b ]} [] []) !! 1%positive = Some b)
    by reflexivity.
  exact (proj1 (FetchRPC_errors exCycleStartHeight exIsCycleStart exParams exForNetwork
                  exForProtocol c 1%positive _ b "BLhash" "connection refused" H1 eq_refl)
               eq_refl eq_refl).
Defined.
